(** * Budget application: validation, transaction aggregation, category
      deletion and the offline expense queue

    A shallow embedding of the TypeScript sources

      - features/transaction/hooks/useTransactionList.ts and
        features/transaction/models/transactionModel.ts,
      - features/expense/models/expenseValidation.ts and
        features/income/utils/incomeValidation.ts,
      - features/expense/services/categoryService.ts and
        features/expense/hooks/useCategories.ts,
      - features/expense/services/expenseStorageService.ts,

    together with the properties the specification states about them.

    Conventions of the embedding.

      - A JavaScript string is a [string]: one [ascii] per UTF-16 code unit,
        for code units below 256 (Latin-1).
      - The amount of a stored record, and an amount bound of a filter, is
        a rational ([Q]): arithmetic on amounts is exact, and [NaN] and the
        infinities are not amounts.  The validation functions, which meet
        every Number value and look at its decimal text, use the [number]
        type of module [JSNumber] instead.
      - [undefined] for an optional field is [None].
      - The [Date] object of the platform is the interface [DateAPI]. *)

From Stdlib Require Import Bool Arith ZArith QArith Lia List Ascii String.
From Stdlib Require Import Permutation Sorted DecimalString SpecFloat.
Import ListNotations.

Close Scope Q_scope.

Set Implicit Arguments.

(* ================================================================== *)
(** * JavaScript strings *)
(* ================================================================== *)

Module JSString.

Local Open Scope string_scope.
Local Open Scope N_scope.

Definition code (c : ascii) : N := N_of_ascii c.

Definition in_range (lo hi : N) (c : ascii) : bool :=
  (lo <=? code c) && (code c <=? hi).

(** [A-Z], [a-z] and [0-9]. *)
Definition is_upper_az (c : ascii) : bool := in_range 65 90 c.
Definition is_lower_az (c : ascii) : bool := in_range 97 122 c.
Definition is_digit (c : ascii) : bool := in_range 48 57 c.

(** White space and line terminators of ECMAScript below code unit 256:
    TAB, LF, VT, FF, CR, SP and NBSP.  This is the class [\s] of a regular
    expression and the class that [trim] strips. *)
Definition is_whitespace (c : ascii) : bool :=
  in_range 9 13 c || (code c =? 32) || (code c =? 160).

(** Upper-case letters of Latin-1: A-Z and the accented capitals
    U+00C0..U+00DE without the multiplication sign U+00D7. *)
Definition is_upper (c : ascii) : bool :=
  is_upper_az c || (in_range 192 222 c && negb (code c =? 215)).

(** [String.prototype.toLowerCase] on one code unit. *)
Definition lower_char (c : ascii) : ascii :=
  if is_upper c then ascii_of_N (code c + 32) else c.

Fixpoint toLowerCase (s : string) : string :=
  match s with
  | EmptyString => EmptyString
  | String c s' => String (lower_char c) (toLowerCase s')
  end.

(** [s.includes(q)]: [q] occurs in [s] as a contiguous substring. *)
Fixpoint includes (s q : string) : bool :=
  prefix q s ||
  match s with
  | EmptyString => false
  | String _ s' => includes s' q
  end.

Fixpoint forallb (p : ascii -> bool) (s : string) : bool :=
  match s with
  | EmptyString => true
  | String c s' => p c && forallb p s'
  end.

(** [trimStart]: drop leading white space. *)
Fixpoint trimStart (s : string) : string :=
  match s with
  | EmptyString => EmptyString
  | String c s' => if is_whitespace c then trimStart s' else s
  end.

(** [trimEnd]: drop trailing white space. *)
Fixpoint trimEnd (s : string) : string :=
  match s with
  | EmptyString => EmptyString
  | String c s' =>
      match trimEnd s' with
      | EmptyString => if is_whitespace c then EmptyString else String c EmptyString
      | r => String c r
      end
  end.

Definition trim (s : string) : string := trimEnd (trimStart s).

(** A string is falsy exactly when it is empty. *)
Definition truthy (s : string) : bool :=
  match s with EmptyString => false | _ => true end.

(** [s.split('.')]: the pieces of [s] between the dots; never empty. *)
Fixpoint split_dot (s : string) : list string :=
  match s with
  | EmptyString => [EmptyString]
  | String c s' =>
      if (code c =? 46)
      then EmptyString :: split_dot s'
      else match split_dot s' with
           | [] => [String c EmptyString]
           | p :: ps => String c p :: ps
           end
  end.

(** Two code units that differ at most in letter case: they are equal, or
    one is an upper-case letter and the other its lower-case form. *)
Definition case_variant_char (c d : ascii) : bool :=
  Ascii.eqb c d
  || (is_upper c && Ascii.eqb d (lower_char c))
  || (is_upper d && Ascii.eqb c (lower_char d)).

(** Two strings that differ at most in the case of their letters. *)
Fixpoint case_variantb (s t : string) : bool :=
  match s, t with
  | EmptyString, EmptyString => true
  | String c s', String d t' => case_variant_char c d && case_variantb s' t'
  | _, _ => false
  end.

Definition case_variant (s t : string) : Prop := case_variantb s t = true.

End JSString.

(* ================================================================== *)
(** * The platform's [Date] *)
(* ================================================================== *)

Module JSDate.

Local Open Scope Z_scope.

(** What the sources use of [Date]: the time value of [new Date(s)]
    ([None] is the [NaN] of an invalid date), the local month (0..11) and
    the local year of a time value, and the time value of [new Date()]. *)
Class DateAPI : Type := {
  getTime : string -> option Z;
  getMonth : Z -> Z;
  getFullYear : Z -> Z;
  now : Z
}.

Definition msPerDay : Z := 86400000.

(** Days since 1970-01-01 of a proleptic Gregorian date. *)
Definition days_from_civil (y m d : Z) : Z :=
  let y' := if m <=? 2 then y - 1 else y in
  let era := y' / 400 in
  let yoe := y' - era * 400 in
  let doy := (153 * (if 2 <? m then m - 3 else m + 9) + 2) / 5 + d - 1 in
  let doe := yoe * 365 + yoe / 4 - yoe / 100 + doy in
  era * 146097 + doe - 719468.

(** The inverse: year and month (1..12) of a day number. *)
Definition civil_from_days (z : Z) : Z * Z :=
  let z := z + 719468 in
  let era := z / 146097 in
  let doe := z - era * 146097 in
  let yoe := (doe - doe / 1460 + doe / 36524 - doe / 146096) / 365 in
  let doy := doe - (365 * yoe + yoe / 4 - yoe / 100) in
  let mp := (5 * doy + 2) / 153 in
  let m := if mp <? 10 then mp + 3 else mp - 9 in
  (if m <=? 2 then yoe + era * 400 + 1 else yoe + era * 400, m).

Definition is_leap (y : Z) : bool :=
  ((y mod 4 =? 0) && negb (y mod 100 =? 0)) || (y mod 400 =? 0).

Definition days_in_month (y m : Z) : Z :=
  if m =? 2 then (if is_leap y then 29 else 28)
  else if (m =? 4) || (m =? 6) || (m =? 9) || (m =? 11) then 30 else 31.

Definition digit_value (c : ascii) : option Z :=
  if JSString.is_digit c then Some (Z.of_N (JSString.code c) - 48) else None.

Definition number_of_digits (ds : list ascii) : option Z :=
  fold_left (fun acc c =>
               match acc, digit_value c with
               | Some a, Some v => Some (10 * a + v)
               | _, _ => None
               end) ds (Some 0).

(** The date-only form [YYYY-MM-DD] of the ECMAScript date-time string
    format, which denotes midnight UTC of that day.  This is the form the
    application writes ([toISOString().split('T')[0]]).  Any other text is
    reported as an invalid date by this instance. *)
Definition parse_date_only (s : string) : option Z :=
  match list_ascii_of_string s with
  | [y1; y2; y3; y4; h1; m1; m2; h2; d1; d2] =>
      if (JSString.code h1 =? 45)%N && (JSString.code h2 =? 45)%N then
        match number_of_digits [y1; y2; y3; y4],
              number_of_digits [m1; m2], number_of_digits [d1; d2] with
        | Some y, Some m, Some d =>
            if (1 <=? m) && (m <=? 12) && (1 <=? d) && (d <=? days_in_month y m)
            then Some (days_from_civil y m d * msPerDay)
            else None
        | _, _, _ => None
        end
      else None
  | _ => None
  end.

(** A platform whose local time is [tza] milliseconds ahead of UTC and
    whose clock shows the time value [clock]. *)
Definition ISODate (tza clock : Z) : DateAPI := {|
  getTime := parse_date_only;
  getMonth := fun t => snd (civil_from_days ((t + tza) / msPerDay)) - 1;
  getFullYear := fun t => fst (civil_from_days ((t + tza) / msPerDay));
  now := clock
|}.

End JSDate.

(* ================================================================== *)
(** * Records of the data model *)
(* ================================================================== *)

(** [Receipt] (expenseModel.ts) and [SupportingDocument] (incomeModel.ts)
    have the same fields. *)
Record Document : Type := {
  doc_id : string;
  filename : string;
  url : string;
  size : Z;
  mimeType : string;
  uploadedAt : string
}.

Module Income.
Record t : Type := {
  id : string;
  amount : Q;
  label : string;
  description : option string;
  category : string;
  date : string;
  supportingDocuments : option (list Document);
  createdAt : string;
  updatedAt : string
}.
End Income.

Module Expense.
Record t : Type := {
  id : string;
  amount : Q;
  label : string;
  description : option string;
  category : string;
  date : string;
  receipts : option (list Document);
  createdAt : string;
  updatedAt : string
}.
End Expense.

(** Strict order on amounts as a boolean. *)
Definition Qltb (x y : Q) : bool :=
  (Qnum x * QDen y <? Qnum y * QDen x)%Z.

(* ================================================================== *)
(** * Transactions: transactionModel.ts and useTransactionList.ts *)
(* ================================================================== *)

Module Transaction.

Import JSString JSDate.
Local Open Scope Q_scope.

(** [TransactionType = 'income' | 'expense'] *)
Inductive TransactionType : Type := income | expense.

Definition TransactionType_eqb (a b : TransactionType) : bool :=
  match a, b with
  | income, income | expense, expense => true
  | _, _ => false
  end.

Record Transaction : Type := {
  id : string;
  amount : Q;
  label : string;
  description : option string;
  category : string;
  date : string;
  type : TransactionType;
  createdAt : string;
  updatedAt : string;
  documents : option (list Document)
}.

(** The [type] field of [TransactionFilters]: ['all' | 'income' | 'expense'].
    The field is [typeFilter] below, [type] being the field of
    [Transaction]. *)
Inductive TypeFilter : Type := all | only (k : TransactionType).

Record TransactionFilters : Type := {
  searchQuery : option string;
  typeFilter : option TypeFilter;
  categories : option (list string);
  dateFrom : option string;
  dateTo : option string;
  amountMin : option Q;
  amountMax : option Q
}.

Record TransactionSummaryData : Type := {
  totalIncome : Q;
  totalExpenses : Q;
  netBalance : Q;
  transactionCount : nat;
  incomeCount : nat;
  expenseCount : nat;
  averageIncome : Q;
  averageExpense : Q
}.

(** [x || []] on an optional array: an array is always truthy. *)
Definition or_empty (x : option (list Document)) : option (list Document) :=
  match x with Some d => Some d | None => Some [] end.

Definition createTransactionFromIncome (i : Income.t) : Transaction := {|
  id := Income.id i;
  amount := Income.amount i;
  label := Income.label i;
  description := Income.description i;
  category := Income.category i;
  date := Income.date i;
  type := income;
  createdAt := Income.createdAt i;
  updatedAt := Income.updatedAt i;
  documents := or_empty (Income.supportingDocuments i)
|}.

Definition createTransactionFromExpense (e : Expense.t) : Transaction := {|
  id := Expense.id e;
  amount := Expense.amount e;
  label := Expense.label e;
  description := Expense.description e;
  category := Expense.category e;
  date := Expense.date e;
  type := expense;
  createdAt := Expense.createdAt e;
  updatedAt := Expense.updatedAt e;
  documents := or_empty (Expense.receipts e)
|}.

(** ** [Array.prototype.sort] with a comparator

    The comparator returns a number, [None] standing for [NaN], which
    [sort] reads as [+0].  [sort] is stable, so for a consistent comparator
    its result is the one of the insertion sort below: [x] moves behind
    [y] only when [cmp x y > 0]. *)
Section Sort.
Variable A : Type.
Variable cmp : A -> A -> option Z.

Definition comes_after (x y : A) : bool :=
  match cmp x y with
  | Some v => (0 <? v)%Z
  | None => false
  end.

Fixpoint insert (x : A) (l : list A) : list A :=
  match l with
  | [] => [x]
  | y :: l' => if comes_after x y then y :: insert x l' else x :: l
  end.

Definition sort (l : list A) : list A := fold_right insert [] l.
End Sort.

Section Hook.
Context {D : DateAPI}.

(** [new Date(b.date).getTime() - new Date(a.date).getTime()] *)
Definition newest_first (a b : Transaction) : option Z :=
  match getTime (date b), getTime (date a) with
  | Some tb, Some ta => Some (tb - ta)%Z
  | _, _ => None
  end.

Definition allTransactions (incomes : list Income.t) (expenses : list Expense.t)
  : list Transaction :=
  let incomeTransactions := map createTransactionFromIncome incomes in
  let expenseTransactions := map createTransactionFromExpense expenses in
  let combined := incomeTransactions ++ expenseTransactions in
  sort newest_first combined.

Definition or_empty_string (x : option string) : string :=
  match x with Some s => s | None => EmptyString end.

(** [`${transaction.label} ${transaction.description || ''}`] *)
Definition searchableText (t : Transaction) : string :=
  (label t ++ " " ++ or_empty_string (description t))%string.

(** [new Date(x) < new Date(y)]: false when either date is invalid. *)
Definition date_lt (x y : string) : bool :=
  match getTime x, getTime y with
  | Some a, Some b => (a <? b)%Z
  | _, _ => false
  end.

Definition fails_search (filters : TransactionFilters) (t : Transaction) : bool :=
  match searchQuery filters with
  | Some q =>
      truthy q &&
      negb (includes (toLowerCase (searchableText t)) (toLowerCase q))
  | None => false
  end.

Definition fails_type (filters : TransactionFilters) (t : Transaction) : bool :=
  match typeFilter filters with
  | Some (only k) => negb (TransactionType_eqb (type t) k)
  | Some all | None => false
  end.

Definition fails_category (filters : TransactionFilters) (t : Transaction) : bool :=
  match categories filters with
  | Some cs =>
      (0 <? List.length cs)%nat && negb (existsb (String.eqb (category t)) cs)
  | None => false
  end.

Definition fails_dateFrom (filters : TransactionFilters) (t : Transaction) : bool :=
  match dateFrom filters with
  | Some d => truthy d && date_lt (date t) d
  | None => false
  end.

Definition fails_dateTo (filters : TransactionFilters) (t : Transaction) : bool :=
  match dateTo filters with
  | Some d => truthy d && date_lt d (date t)
  | None => false
  end.

Definition fails_amountMin (filters : TransactionFilters) (t : Transaction) : bool :=
  match amountMin filters with
  | Some m => Qltb (amount t) m
  | None => false
  end.

Definition fails_amountMax (filters : TransactionFilters) (t : Transaction) : bool :=
  match amountMax filters with
  | Some m => Qltb m (amount t)
  | None => false
  end.

(** The callback of [allTransactions.filter]: each test that fails
    returns [false] at once, in the order of the source. *)
Definition keeps (filters : TransactionFilters) (t : Transaction) : bool :=
  if fails_search filters t then false
  else if fails_type filters t then false
  else if fails_category filters t then false
  else if fails_dateFrom filters t then false
  else if fails_dateTo filters t then false
  else if fails_amountMin filters t then false
  else if fails_amountMax filters t then false
  else true.

Definition filteredTransactions (filters : TransactionFilters)
           (allTransactions : list Transaction) : list Transaction :=
  filter (keeps filters) allTransactions.

Definition isIncome (t : Transaction) : bool := TransactionType_eqb (type t) income.
Definition isExpense (t : Transaction) : bool := TransactionType_eqb (type t) expense.

(** [list.reduce((sum, t) => sum + t.amount, 0)] *)
Definition sumAmounts (l : list Transaction) : Q :=
  fold_left (fun sum t => sum + amount t) l 0.

Definition count (n : nat) : Q := inject_Z (Z.of_nat n).

(** The body shared, word for word, by [summaryData], [monthlyData] and
    [yearToDateData], from the two [filter] calls to the returned
    object. *)
Definition summarise (transactions : list Transaction) : TransactionSummaryData :=
  let incomeTransactions := filter isIncome transactions in
  let expenseTransactions := filter isExpense transactions in
  let totalIncome := sumAmounts incomeTransactions in
  let totalExpenses := sumAmounts expenseTransactions in
  {| totalIncome := totalIncome;
     totalExpenses := totalExpenses;
     netBalance := totalIncome - totalExpenses;
     transactionCount := List.length transactions;
     incomeCount := List.length incomeTransactions;
     expenseCount := List.length expenseTransactions;
     averageIncome :=
       if (0 <? List.length incomeTransactions)%nat
       then totalIncome / count (List.length incomeTransactions) else 0;
     averageExpense :=
       if (0 <? List.length expenseTransactions)%nat
       then totalExpenses / count (List.length expenseTransactions) else 0 |}.

Definition summaryData (filteredTransactions : list Transaction) :=
  summarise filteredTransactions.

(** [new Date().getMonth()] and [new Date().getFullYear()]: the two
    readings of the clock are taken at one instant, [now]. *)
Definition currentMonth : Z := getMonth now.
Definition currentYear : Z := getFullYear now.

(** [getMonth() === currentMonth && getFullYear() === currentYear]; both
    getters give [NaN] on an invalid date, and the test is false. *)
Definition inCurrentMonth (t : Transaction) : bool :=
  match getTime (date t) with
  | Some tv => ((getMonth tv =? currentMonth) && (getFullYear tv =? currentYear))%Z
  | None => false
  end.

Definition inCurrentYear (t : Transaction) : bool :=
  match getTime (date t) with
  | Some tv => (getFullYear tv =? currentYear)%Z
  | None => false
  end.

Definition monthlyTransactions (filteredTransactions : list Transaction) :=
  filter inCurrentMonth filteredTransactions.

Definition ytdTransactions (filteredTransactions : list Transaction) :=
  filter inCurrentYear filteredTransactions.

Definition monthlyData (filteredTransactions : list Transaction) :=
  summarise (monthlyTransactions filteredTransactions).

Definition yearToDateData (filteredTransactions : list Transaction) :=
  summarise (ytdTransactions filteredTransactions).

(** The data part of what the hook returns. *)
Record HookData : Type := {
  hook_transactions : list Transaction;
  hook_allTransactions : list Transaction;
  hook_summaryData : TransactionSummaryData;
  hook_monthlyData : TransactionSummaryData;
  hook_yearToDateData : TransactionSummaryData
}.

Definition useTransactionList (filters : TransactionFilters)
           (incomes : list Income.t) (expenses : list Expense.t) : HookData :=
  let allTx := allTransactions incomes expenses in
  let filtered := filteredTransactions filters allTx in
  {| hook_transactions := filtered;
     hook_allTransactions := allTx;
     hook_summaryData := summaryData filtered;
     hook_monthlyData := monthlyData filtered;
     hook_yearToDateData := yearToDateData filtered |}.

End Hook.

(** [clearFilters]: the empty filter object. *)
Definition noFilters : TransactionFilters := {|
  searchQuery := None; typeFilter := None; categories := None;
  dateFrom := None; dateTo := None; amountMin := None; amountMax := None
|}.

End Transaction.

(* ================================================================== *)
(** * Numbers as the validators see them *)
(* ================================================================== *)

Module JSNumber.

Import JSString.
Local Open Scope string_scope.
Local Open Scope Z_scope.

Inductive digit : Type := D0 | D1 | D2 | D3 | D4 | D5 | D6 | D7 | D8 | D9.

(** A Number value, a finite non-zero one by the decimal digits that
    [Number::toString] prints: the integers [s], [k] and [n] of ECMA-262
    with [k >= 1], [10^(k-1) <= s < 10^k], the value [s * 10^(n-k)] and [k]
    as small as possible.  [Finite neg d ds n] has the digits [d :: ds] of
    [s], so [k = 1 + length ds], and the value is negated when [neg]. *)
Inductive number : Type :=
| NaN
| Infinity (negative : bool)
| Zero (negative : bool)
| Finite (negative : bool) (d : digit) (ds : list digit) (n : Z).

Definition is_D0 (d : digit) : bool :=
  match d with D0 => true | _ => false end.

(** The digits are those of a shortest representation: no leading zero,
    no trailing zero, and at most 17 of them (a binary64 needs no more). *)
Definition well_formed (x : number) : bool :=
  match x with
  | Finite _ d ds _ =>
      negb (is_D0 d) && negb (is_D0 (last ds d)) && (List.length ds <? 17)%nat
  | _ => true
  end.

Definition digit_char (d : digit) : ascii :=
  match d with
  | D0 => "0" | D1 => "1" | D2 => "2" | D3 => "3" | D4 => "4"
  | D5 => "5" | D6 => "6" | D7 => "7" | D8 => "8" | D9 => "9"
  end%char.

Fixpoint digits_string (ds : list digit) : string :=
  match ds with
  | [] => EmptyString
  | d :: ds' => String (digit_char d) (digits_string ds')
  end.

Fixpoint zeros (n : nat) : string :=
  match n with
  | O => EmptyString
  | S n' => String "0"%char (zeros n')
  end.

(** The decimal digits of a natural number, ["0"] for zero. *)
Definition decimal (n : Z) : string :=
  DecimalString.NilZero.string_of_uint (N.to_uint (Z.to_N n)).

(** [Number::toString(x, 10)] of ECMA-262. *)
Definition toString (x : number) : string :=
  match x with
  | NaN => "NaN"
  | Zero _ => "0"
  | Infinity neg => (if neg then "-" else "") ++ "Infinity"
  | Finite neg d ds n =>
      let digits := d :: ds in
      let k := Z.of_nat (List.length digits) in
      (if neg then "-" else "") ++
      (if (-5 <=? n) && (n <=? 21) then
         if k <=? n then
           digits_string digits ++ zeros (Z.to_nat (n - k))
         else if 0 <? n then
           digits_string (firstn (Z.to_nat n) digits) ++ "." ++
           digits_string (skipn (Z.to_nat n) digits)
         else
           "0." ++ zeros (Z.to_nat (- n)) ++ digits_string digits
       else
         let e := n - 1 in
         let sign := if e <? 0 then "-" else "+" in
         if k =? 1 then
           digits_string [d] ++ "e" ++ sign ++ decimal (Z.abs e)
         else
           digits_string [d] ++ "." ++ digits_string ds ++
           "e" ++ sign ++ decimal (Z.abs e))
  end.

Definition isNaN (x : number) : bool :=
  match x with NaN => true | _ => false end.

Definition isFinite (x : number) : bool :=
  match x with Zero _ | Finite _ _ _ _ => true | _ => false end.

(** [x < 0] *)
Definition lt_zero (x : number) : bool :=
  match x with
  | Infinity neg | Finite neg _ _ _ => neg
  | _ => false
  end.

(** [x <= 0] *)
Definition le_zero (x : number) : bool :=
  match x with
  | Infinity neg | Finite neg _ _ _ => neg
  | Zero _ => true
  | NaN => false
  end.

(** [parts[1] || ''] *)
Definition second_or_empty (parts : list string) : string :=
  match nth_error parts 1 with
  | Some part => part
  | None => EmptyString
  end.

(** [(x.toString().split('.')[1] || '').length] *)
Definition decimalPlaces (x : number) : nat :=
  String.length (second_or_empty (split_dot (toString x))).

(** The number of digits after the decimal point in the decimal expansion
    of the value: [s * 10^(n-k)] with [s] not a multiple of ten has
    [k - n] of them when that is positive, none otherwise. *)
Definition fractionDigits (x : number) : Z :=
  match x with
  | Finite _ d ds n => Z.max 0 (Z.of_nat (List.length (d :: ds)) - n)
  | _ => 0
  end.

End JSNumber.

(* ================================================================== *)
(** * expenseValidation.ts *)
(* ================================================================== *)

Module ExpenseValidation.

Import JSString JSNumber.
Local Open Scope string_scope.

Record ValidationResult : Type := {
  isValid : bool;
  error : option string
}.

Definition invalid (msg : string) : ValidationResult :=
  {| isValid := false; error := Some msg |}.

Definition valid : ValidationResult := {| isValid := true; error := None |}.

Definition validateAmount (amount : number) : ValidationResult :=
  if lt_zero amount then invalid "Amount cannot be negative"
  else if negb (isFinite amount) then invalid "Amount must be a valid number"
  else
    let decimalPlaces := decimalPlaces amount in
    if (2 <? decimalPlaces)%nat
    then invalid "Amount cannot have more than 2 decimal places"
    else valid.

(** A member of the class [[a-zA-Z0-9\s]]. *)
Definition name_char (c : ascii) : bool :=
  is_lower_az c || is_upper_az c || is_digit c || is_whitespace c.

(** [/^[a-zA-Z0-9\s]+$/.test(s)] *)
Definition name_regex (s : string) : bool :=
  truthy s && JSString.forallb name_char s.

Definition validateCategoryName (name : string) (existingCategories : list string)
  : ValidationResult :=
  if negb (truthy name) || (String.length (trim name) =? 0)%nat then
    invalid "Category name is required"
  else if negb (String.eqb (trim name) name) || (String.length (trim name) =? 0)%nat then
    invalid "Category name cannot be only spaces"
  else if (15 <? String.length name)%nat then
    invalid "Category name cannot exceed 15 characters"
  else if negb (name_regex name) then
    invalid "Category name can only contain alphanumeric characters and spaces"
  else
    let duplicateExists :=
      existsb (fun existing => String.eqb existing name) existingCategories in
    if duplicateExists then
      invalid "Category name already exists (case-sensitive)"
    else valid.

End ExpenseValidation.

(* ================================================================== *)
(** * incomeValidation.ts *)
(* ================================================================== *)

Module IncomeValidation.

Import JSString JSNumber.
Local Open Scope string_scope.

Record IncomeValidationError : Type := {
  field : string;
  message : string
}.

Definition AMOUNT_MAX_DECIMAL_PLACES : nat := 2.
Definition CATEGORY_MAX_LENGTH : nat := 15.

Definition amount_required := {| field := "amount"; message := "Amount is required" |}.
Definition amount_positive := {| field := "amount"; message := "Amount must be positive" |}.
Definition amount_decimal :=
  {| field := "amount"; message := "Amount can have maximum 2 decimal places" |}.
Definition category_required :=
  {| field := "category"; message := "Category is required" |}.
Definition category_maxLength :=
  {| field := "category"; message := "Category name cannot exceed 15 characters" |}.
Definition category_alphanumeric :=
  {| field := "category";
     message := "Category name must contain only alphanumeric characters and spaces" |}.
Definition category_duplicate :=
  {| field := "category"; message := "Category name already exists" |}.

(** The argument of [validateAmount]: [number | string]. *)
Inductive AmountInput : Type :=
| ofNumber (x : number)
| ofString (s : string).

(** [errors.push(e)] when [b] holds. *)
Definition push_if (b : bool) (e : IncomeValidationError)
           (errors : list IncomeValidationError) : list IncomeValidationError :=
  if b then errors ++ [e] else errors.

Section ValidateAmount.
(** The global [parseFloat]. *)
Variable parseFloat : string -> number.

(** [!amount && amount !== 0]: a number is falsy when it is [NaN] or a
    zero, and only [NaN] among these differs from [0]; a string is falsy
    when it is empty. *)
Definition amount_missing (amount : AmountInput) : bool :=
  match amount with
  | ofNumber x => isNaN x
  | ofString s => negb (truthy s)
  end.

Definition validateAmount (amount : AmountInput) : list IncomeValidationError :=
  let errors := [] in
  if amount_missing amount then push_if true amount_required errors
  else
    let numAmount :=
      match amount with ofString s => parseFloat s | ofNumber x => x end in
    let errors :=
      push_if (isNaN numAmount || le_zero numAmount) amount_positive errors in
    let decimalPlaces := decimalPlaces numAmount in
    let errors :=
      push_if (AMOUNT_MAX_DECIMAL_PLACES <? decimalPlaces)%nat amount_decimal errors in
    errors.
End ValidateAmount.

Definition validateCategory (category : string) (existingCategories : list string)
  : list IncomeValidationError :=
  let errors := [] in
  if negb (truthy category) || (String.length (trim category) =? 0)%nat then
    push_if true category_required errors
  else
    let errors :=
      push_if (CATEGORY_MAX_LENGTH <? String.length category)%nat
              category_maxLength errors in
    let errors :=
      push_if (negb (ExpenseValidation.name_regex category))
              category_alphanumeric errors in
    let errors :=
      push_if (existsb (String.eqb category) existingCategories)
              category_duplicate errors in
    errors.

(** What [validateIncome] makes of an error list. *)
Definition accepts (errors : list IncomeValidationError) : bool :=
  (List.length errors =? 0)%nat.

End IncomeValidation.

(* ================================================================== *)
(** * The remote store, the local store and their failures *)
(* ================================================================== *)

Module Category.
Record t : Type := {
  id : string;
  name : string;
  color : string;
  isDefault : bool;
  createdAt : string;
  updatedAt : string
}.
End Category.

Module Store.

Local Open Scope string_scope.

(** A thrown value: an [Error] with its [message]. *)
Record Error : Type := { message : string }.

(** The world the services run in.

    - The Firestore collections ['categories'], ['expenses'] and
      ['incomes']: a document is the record with its [id].
    - The AsyncStorage entries ['cached_expenses'] (an object with [data]
      and [timestamp]), ['pending_sync_expenses'] and
      ['last_sync_timestamp']; [None] is an absent key.
    - The outcome of the coming calls: the head of [remote_faults] says
      whether the next Firestore call rejects, and with which error, the
      head of [local_faults] the same for the next AsyncStorage call; a
      call made when the list is empty succeeds.
    - The text [new Date().toISOString()] gives. *)
Record World : Type := {
  fs_categories : list Category.t;
  fs_expenses : list Expense.t;
  fs_incomes : list Income.t;
  cached_expenses : option (list Expense.t * string);
  pending_sync_expenses : option (list Expense.t);
  last_sync_timestamp : option string;
  remote_faults : list (option Error);
  local_faults : list (option Error);
  clock : string
}.

Definition set_fs_categories v w := {|
  fs_categories := v; fs_expenses := fs_expenses w; fs_incomes := fs_incomes w;
  cached_expenses := cached_expenses w;
  pending_sync_expenses := pending_sync_expenses w;
  last_sync_timestamp := last_sync_timestamp w;
  remote_faults := remote_faults w; local_faults := local_faults w;
  clock := clock w |}.

Definition set_fs_expenses v w := {|
  fs_categories := fs_categories w; fs_expenses := v; fs_incomes := fs_incomes w;
  cached_expenses := cached_expenses w;
  pending_sync_expenses := pending_sync_expenses w;
  last_sync_timestamp := last_sync_timestamp w;
  remote_faults := remote_faults w; local_faults := local_faults w;
  clock := clock w |}.

Definition set_cached_expenses v w := {|
  fs_categories := fs_categories w; fs_expenses := fs_expenses w;
  fs_incomes := fs_incomes w;
  cached_expenses := v;
  pending_sync_expenses := pending_sync_expenses w;
  last_sync_timestamp := last_sync_timestamp w;
  remote_faults := remote_faults w; local_faults := local_faults w;
  clock := clock w |}.

Definition set_pending_sync_expenses v w := {|
  fs_categories := fs_categories w; fs_expenses := fs_expenses w;
  fs_incomes := fs_incomes w;
  cached_expenses := cached_expenses w;
  pending_sync_expenses := v;
  last_sync_timestamp := last_sync_timestamp w;
  remote_faults := remote_faults w; local_faults := local_faults w;
  clock := clock w |}.

Definition set_last_sync_timestamp v w := {|
  fs_categories := fs_categories w; fs_expenses := fs_expenses w;
  fs_incomes := fs_incomes w;
  cached_expenses := cached_expenses w;
  pending_sync_expenses := pending_sync_expenses w;
  last_sync_timestamp := v;
  remote_faults := remote_faults w; local_faults := local_faults w;
  clock := clock w |}.

Definition set_remote_faults v w := {|
  fs_categories := fs_categories w; fs_expenses := fs_expenses w;
  fs_incomes := fs_incomes w;
  cached_expenses := cached_expenses w;
  pending_sync_expenses := pending_sync_expenses w;
  last_sync_timestamp := last_sync_timestamp w;
  remote_faults := v; local_faults := local_faults w;
  clock := clock w |}.

Definition set_local_faults v w := {|
  fs_categories := fs_categories w; fs_expenses := fs_expenses w;
  fs_incomes := fs_incomes w;
  cached_expenses := cached_expenses w;
  pending_sync_expenses := pending_sync_expenses w;
  last_sync_timestamp := last_sync_timestamp w;
  remote_faults := remote_faults w; local_faults := v;
  clock := clock w |}.

(** ** Computations that change the world and may throw *)

Inductive Result (A : Type) : Type :=
| Ok (a : A)
| Throw (e : Error).
Arguments Ok {A} a.
Arguments Throw {A} e.

Definition M (A : Type) : Type := World -> Result A * World.

Definition ret {A} (a : A) : M A := fun w => (Ok a, w).

Definition throw {A} (e : Error) : M A := fun w => (Throw e, w).

Definition bind {A B} (m : M A) (k : A -> M B) : M B :=
  fun w =>
    match m w with
    | (Ok a, w') => k a w'
    | (Throw e, w') => (Throw e, w')
    end.

(** [try { m } catch (error) { handler(error) }] *)
Definition try_catch {A} (m : M A) (handler : Error -> M A) : M A :=
  fun w =>
    match m w with
    | (Ok a, w') => (Ok a, w')
    | (Throw e, w') => handler e w'
    end.

Definition gets {A} (f : World -> A) : M A := fun w => (Ok (f w), w).

Definition modify (f : World -> World) : M unit := fun w => (Ok tt, f w).

Declare Scope store_scope.
Delimit Scope store_scope with store.
Notation "x <- m ;; k" := (bind m (fun x => k))
  (at level 61, m at next level, right associativity) : store_scope.
Notation "m ;; k" := (bind m (fun _ => k))
  (at level 61, right associativity) : store_scope.
Local Open Scope store_scope.

(** [for (const x of xs) { body(x) }] *)
Fixpoint for_of {A} (xs : list A) (body : A -> M unit) : M unit :=
  match xs with
  | [] => ret tt
  | x :: xs' => body x ;; for_of xs' body
  end.

(** ** The primitives *)

(** Awaiting a Firestore call: the next remote outcome is consumed. *)
Definition remote_call : M unit :=
  fun w =>
    match remote_faults w with
    | [] => (Ok tt, w)
    | None :: rest => (Ok tt, set_remote_faults rest w)
    | Some e :: rest => (Throw e, set_remote_faults rest w)
    end.

(** Awaiting an AsyncStorage call: the next local outcome is consumed. *)
Definition local_call : M unit :=
  fun w =>
    match local_faults w with
    | [] => (Ok tt, w)
    | None :: rest => (Ok tt, set_local_faults rest w)
    | Some e :: rest => (Throw e, set_local_faults rest w)
    end.

Definition has_id (i : string) (e : Expense.t) : bool := String.eqb (Expense.id e) i.

(** [array.findIndex(p)], [None] for [-1]. *)
Fixpoint findIndex {A} (p : A -> bool) (l : list A) : option nat :=
  match l with
  | [] => None
  | x :: l' =>
      if p x then Some O
      else match findIndex p l' with
           | Some i => Some (S i)
           | None => None
           end
  end.

(** [array[i] = x] for an index inside the array. *)
Fixpoint set_at {A} (i : nat) (x : A) (l : list A) : list A :=
  match l, i with
  | [], _ => []
  | _ :: l', O => x :: l'
  | y :: l', S i' => y :: set_at i' x l'
  end.

(** What the services do to a list of expenses for a new version of one:
    overwrite the first entry with that [id], or append. *)
Definition put_expense (expense : Expense.t) (l : list Expense.t) : list Expense.t :=
  match findIndex (has_id (Expense.id expense)) l with
  | Some existingIndex => set_at existingIndex expense l
  | None => l ++ [expense]
  end.

(** [setDoc(doc(db, 'expenses', id), data)]: create or overwrite. *)
Definition setDoc (expense : Expense.t) : M unit :=
  remote_call ;;
  modify (fun w => set_fs_expenses (put_expense expense (fs_expenses w)) w).



(** [deleteDoc(doc(db, 'categories', id))] *)
Definition deleteCategoryDoc (id : string) : M unit :=
  remote_call ;;
  modify (fun w =>
            set_fs_categories
              (filter (fun c => negb (String.eqb (Category.id c) id)) (fs_categories w)) w).

End Store.

(* ================================================================== *)
(** * expenseStorageService.ts *)
(* ================================================================== *)

Module ExpenseStorageService.

Import Store.
Local Open Scope string_scope.
Local Open Scope store_scope.

Definition new_Error (msg : string) : Error := {| message := msg |}.

Definition cacheExpenses (expenses : list Expense.t) : M unit :=
  try_catch
    (local_call ;;
     modify (fun w => set_cached_expenses (Some (expenses, clock w)) w))
    (fun _ => throw (new_Error "Failed to cache expenses")).

Definition getCachedExpenses : M (list Expense.t) :=
  try_catch
    (local_call ;;
     stored <- gets cached_expenses ;;
     match stored with
     | None => ret []
     | Some (data, _) => ret data
     end)
    (fun _ => ret []).

Definition cacheExpenseLocally (expense : Expense.t) : M unit :=
  cached <- getCachedExpenses ;;
  cacheExpenses (put_expense expense cached).


Definition getPendingSyncExpenses : M (list Expense.t) :=
  try_catch
    (local_call ;;
     stored <- gets pending_sync_expenses ;;
     match stored with
     | Some pending => ret pending
     | None => ret []
     end)
    (fun _ => ret []).

Definition addPendingSyncExpense (expense : Expense.t) : M unit :=
  try_catch
    (pending <- getPendingSyncExpenses ;;
     local_call ;;
     modify (set_pending_sync_expenses (Some (put_expense expense pending))))
    (fun _ => throw (new_Error "Failed to add pending sync expense")).

Definition removePendingSyncExpense (expenseId : string) : M unit :=
  try_catch
    (pending <- getPendingSyncExpenses ;;
     let filtered := filter (fun expense => negb (has_id expenseId expense)) pending in
     local_call ;;
     modify (set_pending_sync_expenses (Some filtered)))
    (fun _ => throw (new_Error "Failed to remove pending sync expense")).

Definition updateLastSyncTimestamp : M unit :=
  try_catch
    (local_call ;;
     modify (fun w => set_last_sync_timestamp (Some (clock w)) w))
    (fun _ => throw (new_Error "Failed to update last sync timestamp")).

Definition saveExpenseToFirestore (expense : Expense.t) : M unit :=
  try_catch
    (setDoc expense ;;
     cacheExpenseLocally expense)
    (fun error =>
       addPendingSyncExpense expense ;;
       throw error).


(** The body of the loop of [syncWithFirestore]: the inner [try] and its
    [catch], which only logs. *)
Definition sync_one (expense : Expense.t) : M unit :=
  try_catch
    (saveExpenseToFirestore expense ;;
     removePendingSyncExpense (Expense.id expense))
    (fun _ => ret tt).

Definition syncWithFirestore : M unit :=
  try_catch
    (pendingExpenses <- getPendingSyncExpenses ;;
     for_of pendingExpenses sync_one ;;
     updateLastSyncTimestamp)
    (fun error => throw error).

End ExpenseStorageService.

(* ================================================================== *)
(** * categoryService.ts and useCategories.ts *)
(* ================================================================== *)

Module CategoryService.

Import Store.

(** [CategoryServiceImpl.deleteCategory] *)
Definition deleteCategory (id : string) : M unit :=
  deleteCategoryDoc id.

End CategoryService.

Module UseCategories.

Import Store.
Local Open Scope string_scope.
Local Open Scope store_scope.

(** The state of the hook that [deleteCategory] reads and writes. *)
Record HookState : Type := {
  categories : list Category.t;
  isDeleting : option string;
  error : option string
}.

Definition setCategories v st :=
  {| categories := v; isDeleting := isDeleting st; error := error st |}.
Definition setIsDeleting v st :=
  {| categories := categories st; isDeleting := v; error := error st |}.
Definition setError v st :=
  {| categories := categories st; isDeleting := isDeleting st; error := v |}.

(** [err.message || fallback] *)
Definition message_or (err : Error) (fallback : string) : string :=
  if JSString.truthy (message err) then message err else fallback.

Definition is_category (categoryId : string) (cat : Category.t) : bool :=
  String.eqb (Category.id cat) categoryId.

Definition deleteCategory (st : HookState) (categoryId : string)
  : M (bool * HookState) :=
  match find (is_category categoryId) (categories st) with
  | None => ret (false, setError (Some "Category not found") st)
  | Some categoryToDelete =>
      if Category.isDefault categoryToDelete then
        ret (false, setError (Some "Cannot delete default categories") st)
      else
        let st := setError None (setIsDeleting (Some categoryId) st) in
        r <- try_catch
               (CategoryService.deleteCategory categoryId ;;
                ret (true,
                     setCategories
                       (filter (fun cat => negb (is_category categoryId cat))
                               (categories st)) st))
               (fun err =>
                  ret (false,
                       setError (Some (message_or err "Failed to delete category")) st)) ;;
        ret (fst r, setIsDeleting None (snd r))
  end.

(** A record refers to a category by its name. *)
Definition expense_refers (name : string) (e : Expense.t) : bool :=
  String.eqb (Expense.category e) name.
Definition income_refers (name : string) (i : Income.t) : bool :=
  String.eqb (Income.category i) name.

End UseCategories.

(* ================================================================== *)
(** * What the specification says, as predicates *)
(* ================================================================== *)

Module TransactionSpec.

Import JSString JSDate Transaction.
Local Open Scope Q_scope.

(** The sum of a list of amounts. *)
Fixpoint total (amounts : list Q) : Q :=
  match amounts with
  | [] => 0
  | a :: rest => a + total rest
  end.



(** The filter object with another search query. *)
Definition with_searchQuery (q : option string) (f : TransactionFilters)
  : TransactionFilters := {|
  searchQuery := q; typeFilter := typeFilter f;
  categories := categories f; dateFrom := dateFrom f; dateTo := dateTo f;
  amountMin := amountMin f; amountMax := amountMax f
|}.

Section Dates.
Context {D : DateAPI}.

(** [a] is dated strictly later than [b]. *)
Definition strictly_later (a b : Transaction) : Prop :=
  exists ta tb, getTime (date a) = Some ta /\ getTime (date b) = Some tb /\
                (tb < ta)%Z.

(** [a] is dated later than [b], or at the same time. *)
Definition not_earlier (a b : Transaction) : Prop :=
  exists ta tb, getTime (date a) = Some ta /\ getTime (date b) = Some tb /\
                (tb <= ta)%Z.

(** The date of the transaction is a valid one. *)
Definition dated (t : Transaction) : Prop :=
  exists tv, getTime (date t) = Some tv.
End Dates.

(** Two optional texts that differ at most in letter case. *)
Definition case_variant_opt (x y : option string) : Prop :=
  match x, y with
  | None, None => True
  | Some s, Some t => case_variant s t
  | _, _ => False
  end.



End TransactionSpec.

(* ================================================================== *)
(** * What the specification says of the validators *)
(* ================================================================== *)

Module ValidationSpec.

Import JSString JSNumber.
Local Open Scope string_scope.

(** A letter, a digit or the space character U+0020. *)
Definition letter_digit_space (c : ascii) : bool :=
  is_lower_az c || is_upper_az c || is_digit c || (code c =? 32)%N.

(** The text has no full stop in it. *)
Definition no_dot (s : string) : bool :=
  JSString.forallb (fun c => negb (code c =? 46)%N) s.

(** [Number::toString] prints the digits positionally, without an
    exponent, for [n] from -5 to 21. *)
Definition positional (n : Z) : bool := ((-5 <=? n) && (n <=? 21))%Z.

(** The amounts 0.0000001, which JavaScript prints as [1e-7], and 12.34. *)
Definition one_ten_millionth : number := Finite false D1 [] (-6).
Definition twelve_34 : number := Finite false D1 [D2; D3; D4] 2.

(** The three code units a, TAB, b. *)
Definition a_tab_b : string := String "a" (String (ascii_of_N 9) "b").

End ValidationSpec.

(* ================================================================== *)
(** * What the specification says of the stores *)
(* ================================================================== *)

Module StoreSpec.

Import Store.

(** The pending-sync queue as [getPendingSyncExpenses] reads it: empty
    when the key is absent. *)
Definition pending_list (w : World) : list Expense.t :=
  match pending_sync_expenses w with
  | Some pending => pending
  | None => []
  end.


(** The queue holds at most one entry for an [id]. *)
Definition queue_ok (w : World) : Prop :=
  NoDup (map Expense.id (pending_list w)).


End StoreSpec.

(* ================================================================== *)
(** * Sample data *)
(* ================================================================== *)

Module Examples.

Import JSDate Transaction.
Local Open Scope string_scope.
Local Open Scope Q_scope.

Definition an_income (id : string) (amount : Q) (label date : string) : Income.t := {|
  Income.id := id; Income.amount := amount; Income.label := label;
  Income.description := None; Income.category := "Salary";
  Income.date := date; Income.supportingDocuments := None;
  Income.createdAt := "2024-01-01T08:00:00.000Z";
  Income.updatedAt := "2024-01-01T08:00:00.000Z" |}.

Definition an_expense (id : string) (amount : Q) (label category date : string)
  : Expense.t := {|
  Expense.id := id; Expense.amount := amount; Expense.label := label;
  Expense.description := Some "Paid by card"; Expense.category := category;
  Expense.date := date; Expense.receipts := None;
  Expense.createdAt := "2024-01-02T08:00:00.000Z";
  Expense.updatedAt := "2024-01-02T08:00:00.000Z" |}.

Definition salary : Income.t := an_income "i1" 100 "Salary January" "2024-01-01".
Definition groceries : Expense.t := an_expense "e1" 40 "Groceries" "Food" "2024-01-02".


(** An expense of the same day as [salary]. *)
Definition lunch : Expense.t := an_expense "e2" 12 "Lunch" "Food" "2024-01-01".

(** Time values: noon UTC of 2024-01-15 and of 2026-11-01. *)
Definition mid_january_2024 : Z := 1705320000000.
Definition november_2026 : Z := 1793534400000.

(** Local time equal to UTC, and five hours behind it. *)
Definition utc : Z := 0.
Definition utc_minus_5 : Z := (-18000000)%Z.

(** A custom category, the default category "Other", and records that
    refer to the custom one. *)
Definition travel : Category.t := {|
  Category.id := "c7"; Category.name := "Travel"; Category.color := "#2196F3";
  Category.isDefault := false;
  Category.createdAt := "2024-01-01T08:00:00.000Z";
  Category.updatedAt := "2024-01-01T08:00:00.000Z" |}.

Definition other : Category.t := {|
  Category.id := "c5"; Category.name := "Other"; Category.color := "#FECA57";
  Category.isDefault := true;
  Category.createdAt := "2024-01-01T08:00:00.000Z";
  Category.updatedAt := "2024-01-01T08:00:00.000Z" |}.

Definition train_ticket : Expense.t :=
  an_expense "e3" 55 "Train ticket" "Travel" "2024-01-03".

Definition refund : Income.t := {|
  Income.id := "i2"; Income.amount := 20; Income.label := "Ticket refund";
  Income.description := None; Income.category := "Travel";
  Income.date := "2024-01-04"; Income.supportingDocuments := None;
  Income.createdAt := "2024-01-04T08:00:00.000Z";
  Income.updatedAt := "2024-01-04T08:00:00.000Z" |}.

(** A world in which every call succeeds. *)
Definition calm_world : Store.World := {|
  Store.fs_categories := [other; travel];
  Store.fs_expenses := [train_ticket];
  Store.fs_incomes := [refund];
  Store.cached_expenses := None;
  Store.pending_sync_expenses := None;
  Store.last_sync_timestamp := None;
  Store.remote_faults := [];
  Store.local_faults := [];
  Store.clock := "2024-01-15T12:00:00.000Z" |}.

Definition categories_screen : UseCategories.HookState := {|
  UseCategories.categories := [other; travel];
  UseCategories.isDeleting := None;
  UseCategories.error := None |}.

Definition unavailable : Store.Error := {| Store.message := "unavailable" |}.
Definition disk_full : Store.Error := {| Store.message := "disk full" |}.

(** The network is down for the next Firestore call. *)
Definition offline_world : Store.World :=
  Store.set_remote_faults [Some unavailable] calm_world.

(** The network is down and the local store rejects writes. *)
Definition broken_world : Store.World :=
  Store.set_local_faults [None; Some disk_full] offline_world.

(** Two writes wait in the queue; the first save of the next
    synchronisation fails, the second succeeds. *)
Definition queued_world : Store.World :=
  Store.set_remote_faults [Some unavailable; None]
    (Store.set_pending_sync_expenses (Some [groceries; lunch]) calm_world).

End Examples.

(* ================================================================== *)
(** * Splitting a text at white space *)
(* ================================================================== *)

Module JSSplit.

Import JSString.
Local Open Scope string_scope.

(** Put a code unit in front of the first piece. *)
Definition cons_head (c : ascii) (pieces : list string) : list string :=
  match pieces with
  | p :: ps => String c p :: ps
  | [] => [String c EmptyString]
  end.

(** [s.split(/\s+/)]: the pieces of [s] between its maximal runs of white
    space.  [in_run] says that the code unit before [s] belongs to a run
    that has closed a piece already.  A text that begins with white space
    has an empty first piece, one that ends with white space an empty last
    piece, and the empty text has the one piece [""]. *)
Fixpoint split_ws (in_run : bool) (s : string) : list string :=
  match s with
  | EmptyString => [EmptyString]
  | String c s' =>
      if is_whitespace c then
        if in_run then split_ws true s' else EmptyString :: split_ws true s'
      else cons_head c (split_ws false s')
  end.

Definition split_whitespace (s : string) : list string := split_ws false s.

(** [word => word.length > 0] *)
Definition nonempty (word : string) : bool := (0 <? String.length word)%nat.

(** The number of words of a text: of its maximal runs of code units that
    are not white space.  [after_space] says that a word would begin with
    the next code unit. *)
Fixpoint count_words_from (after_space : bool) (s : string) : nat :=
  match s with
  | EmptyString => 0
  | String c s' =>
      if is_whitespace c then count_words_from true s'
      else (if after_space then 1 else 0) + count_words_from false s'
  end.

Definition count_words (s : string) : nat := count_words_from true s.

(** The text has a code unit that is not white space. *)
Definition has_visible (s : string) : bool :=
  negb (JSString.forallb is_whitespace s).

(** The number of pieces that are not empty. *)
Definition visible_pieces (pieces : list string) : nat :=
  List.length (filter nonempty pieces).

End JSSplit.

(* ================================================================== *)
(** * expenseValidation.ts: the other validators *)
(* ================================================================== *)

Module ExpenseFormValidation.

Import JSString JSSplit JSNumber JSDate ExpenseValidation.
Local Open Scope string_scope.

Definition validateLabel (label : string) : ValidationResult :=
  if negb (truthy label) || (String.length (trim label) =? 0)%nat then
    invalid "Label is required"
  else if (26 <? String.length label)%nat then
    invalid "Label cannot exceed 26 characters"
  else valid.

(** [description.trim().split(/\s+/).filter(word => word.length > 0).length] *)
Definition wordCount (description : string) : nat :=
  List.length (filter nonempty (split_whitespace (trim description))).

Definition validateDescription (description : option string) : ValidationResult :=
  match description with
  | None => valid
  | Some text =>
      if negb (truthy text) then valid
      else if (50 <? wordCount text)%nat then
        invalid "Description cannot exceed 50 words"
      else valid
  end.

(** [inputDate < minDate] is false when [minDate] is not a valid date. *)
Definition validateDate {D : DateAPI} (date : string) : ValidationResult :=
  let inputDate := getTime date in
  let minDate := getTime "2008-01-01" in
  match inputDate with
  | None => invalid "Invalid date format"
  | Some t =>
      match minDate with
      | Some m =>
          if (t <? m)%Z then invalid "Date cannot be before January 1, 2008"
          else valid
      | None => valid
      end
  end.

(** [{ size: number; type: string }] *)
Record FileInfo : Type := {
  file_size : Z;
  file_type : string
}.

Definition maxSize : Z := 10 * 1024 * 1024.

Definition allowedTypes : list string :=
  ["image/jpeg"; "image/jpg"; "image/png"; "application/pdf"].

Definition validateReceiptFile (file : FileInfo) : ValidationResult :=
  if (maxSize <? file_size file)%Z then
    invalid "File size cannot exceed 10MB"
  else if negb (existsb (String.eqb (file_type file)) allowedTypes) then
    invalid "File must be JPG, PNG, JPEG, or PDF format"
  else valid.

(** The argument of [validateExpenseForm]. *)
Record ExpenseFormInput : Type := {
  amount : number;
  label : string;
  description : option string;
  category : string;
  date : string
}.

Definition validateExpenseForm {D : DateAPI} (expense : ExpenseFormInput)
  : ValidationResult :=
  let amountValidation := validateAmount (amount expense) in
  if negb (isValid amountValidation) then amountValidation
  else
    let labelValidation := validateLabel (label expense) in
    if negb (isValid labelValidation) then labelValidation
    else
      let descriptionValidation := validateDescription (description expense) in
      if negb (isValid descriptionValidation) then descriptionValidation
      else if negb (truthy (category expense))
              || (String.length (trim (category expense)) =? 0)%nat then
        invalid "Category is required"
      else
        let dateValidation := validateDate (date expense) in
        if negb (isValid dateValidation) then dateValidation
        else valid.

End ExpenseFormValidation.

(* ================================================================== *)
(** * incomeValidation.ts: the other validators *)
(* ================================================================== *)

Module IncomeFormValidation.

Import JSString JSSplit JSNumber JSDate IncomeValidation.
Local Open Scope string_scope.

Definition LABEL_MAX_LENGTH : nat := 26.
Definition DESCRIPTION_MAX_WORDS : nat := 50.
Definition MIN_DATE : string := "2008-01-01".
Definition MAX_FILE_SIZE : Z := 10 * 1024 * 1024.
Definition ALLOWED_FILE_FORMATS : list string :=
  ["image/jpeg"; "image/jpg"; "image/png"; "application/pdf"].

Definition label_required := {| field := "label"; message := "Label is required" |}.
Definition label_maxLength :=
  {| field := "label"; message := "Label cannot exceed 26 characters" |}.
Definition description_maxWords :=
  {| field := "description"; message := "Description cannot exceed 50 words" |}.
Definition date_required := {| field := "date"; message := "Date is required" |}.
Definition date_invalid :=
  {| field := "date"; message := "Please select a valid date" |}.
Definition date_minDate :=
  {| field := "date"; message := "Date cannot be before January 1, 2008" |}.

Definition validateLabel (label : string) : list IncomeValidationError :=
  let errors := [] in
  if negb (truthy label) || (String.length (trim label) =? 0)%nat then
    push_if true label_required errors
  else if (LABEL_MAX_LENGTH <? String.length label)%nat then
    push_if true label_maxLength errors
  else errors.

Definition validateDescription (description : option string)
  : list IncomeValidationError :=
  let errors := [] in
  match description with
  | None => errors
  | Some text =>
      if truthy text && truthy (trim text) then
        let wordCount := List.length (split_whitespace (trim text)) in
        push_if (DESCRIPTION_MAX_WORDS <? wordCount)%nat description_maxWords errors
      else errors
  end.

Definition validateDate {D : DateAPI} (date : string) : list IncomeValidationError :=
  let errors := [] in
  if negb (truthy date) then push_if true date_required errors
  else
    match getTime date with
    | None => push_if true date_invalid errors
    | Some dateObj =>
        match getTime MIN_DATE with
        | Some minDate => push_if (dateObj <? minDate)%Z date_minDate errors
        | None => errors
        end
    end.

(** What the validator reads of a [File]. *)
Record FileInfo : Type := {
  file_size : Z;
  file_type : string
}.

(** [`supportingDocuments[${index}]`] *)
Definition document_field (index : nat) : string :=
  "supportingDocuments[" ++ decimal (Z.of_nat index) ++ "]".

Definition document_maxSize (index : nat) :=
  {| field := document_field index; message := "File size cannot exceed 10MB" |}.
Definition document_invalidFormat (index : nat) :=
  {| field := document_field index;
     message := "Only JPG, PNG, and PDF files are allowed" |}.

(** The callback of [documents.forEach((file, index) => ...)]. *)
Definition check_document (errors : list IncomeValidationError)
           (file : FileInfo) (index : nat) : list IncomeValidationError :=
  let errors :=
    push_if (MAX_FILE_SIZE <? file_size file)%Z (document_maxSize index) errors in
  push_if (negb (existsb (String.eqb (file_type file)) ALLOWED_FILE_FORMATS))
          (document_invalidFormat index) errors.

Fixpoint forEach_document (documents : list FileInfo) (index : nat)
         (errors : list IncomeValidationError) : list IncomeValidationError :=
  match documents with
  | [] => errors
  | file :: rest => forEach_document rest (S index) (check_document errors file index)
  end.

Definition validateSupportingDocuments (documents : option (list FileInfo))
  : list IncomeValidationError :=
  let errors := [] in
  match documents with
  | None => errors
  | Some [] => errors
  | Some files => forEach_document files 0 errors
  end.

(** The argument of [validateIncome]. *)
Record IncomeInput : Type := {
  amount : AmountInput;
  label : string;
  description : option string;
  category : string;
  date : string;
  supportingDocuments : option (list FileInfo)
}.

Record IncomeValidationResult : Type := {
  isValid : bool;
  errors : list IncomeValidationError
}.

Section ValidateIncome.
Context {D : DateAPI}.
Variable parseFloat : string -> number.

Definition validateIncome (incomeData : IncomeInput)
           (existingCategories : list string) : IncomeValidationResult :=
  let allErrors :=
    (validateAmount parseFloat (amount incomeData)
     ++ validateLabel (label incomeData)
     ++ validateDescription (description incomeData)
     ++ validateCategory (category incomeData) existingCategories
     ++ validateDate (date incomeData)
     ++ validateSupportingDocuments (supportingDocuments incomeData))%list in
  {| isValid := (List.length allErrors =? 0)%nat; errors := allErrors |}.

End ValidateIncome.

(** [errors.find(error => error.field === fieldName)?.message] *)
Definition getFieldError (errors : list IncomeValidationError) (fieldName : string)
  : option string :=
  match find (fun error => String.eqb (field error) fieldName) errors with
  | Some fieldError => Some (message fieldError)
  | None => None
  end.

(** The names of DEFAULT_INCOME_CATEGORIES (income categoryModel.ts) and of
    DEFAULT_CATEGORIES (expense categoryModel.ts). *)
Definition DEFAULT_INCOME_CATEGORY_NAMES : list string :=
  ["Salary"; "Freelance"; "Business Revenue"; "Investment Returns";
   "Side Hustle"; "Other"].

Definition DEFAULT_CATEGORY_NAMES : list string :=
  ["Food"; "Transportation"; "Entertainment"; "Utilities"; "Other"].

End IncomeFormValidation.

(* ================================================================== *)
(** * Calendar dates *)
(* ================================================================== *)

Module CalendarSpec.

Import JSString JSDate.
Local Open Scope Z_scope.



End CalendarSpec.

(* ================================================================== *)
(** * Whole records: what is compared *)
(* ================================================================== *)

Module FormSpec.

Import JSString IncomeValidation IncomeFormValidation.
Local Open Scope string_scope.

(** The receipt of an expense with the size and type of a document. *)
Definition as_receipt (file : FileInfo) : ExpenseFormValidation.FileInfo :=
  {| ExpenseFormValidation.file_size := file_size file;
     ExpenseFormValidation.file_type := file_type file |}.

(** [documents || []] *)
Definition documents_of (documents : option (list FileInfo)) : list FileInfo :=
  match documents with Some files => files | None => [] end.

(** The message of the first error of a list. *)
Definition first_message (errors : list IncomeValidationError) : option string :=
  match errors with
  | e :: _ => Some (message e)
  | [] => None
  end.

(** Every error of the list is on the field [f]. *)
Definition all_on (f : string) (errors : list IncomeValidationError) : bool :=
  List.forallb (fun e => String.eqb (field e) f) errors.

(** No error of the list is on the field [f]. *)
Definition none_on (f : string) (errors : list IncomeValidationError) : bool :=
  List.forallb (fun e => negb (String.eqb (field e) f)) errors.

(** An income record with every field in order, and its category. *)
Definition sound_income (category : string) : IncomeInput := {|
  amount := ofNumber (JSNumber.Finite false JSNumber.D1 [JSNumber.D2] 2);
  label := "Consulting";
  description := Some "Two days on site";
  category := category;
  date := "2024-03-01";
  supportingDocuments := None
|}.

End FormSpec.

(* ================================================================== *)
(** * expenseStorageService.ts: deletion and the last synchronisation *)
(* ================================================================== *)

Module ExpenseStorageRest.

Import Store ExpenseStorageService.
Local Open Scope string_scope.
Local Open Scope store_scope.

(** [deleteDoc(doc(db, 'expenses', expenseId))]: it succeeds also when
    there is no such document. *)
Definition deleteExpenseDoc (expenseId : string) : M unit :=
  remote_call ;;
  modify (fun w =>
            set_fs_expenses
              (filter (fun e => negb (has_id expenseId e)) (fs_expenses w)) w).

Definition removeCachedExpense (expenseId : string) : M unit :=
  cached <- getCachedExpenses ;;
  let filtered := filter (fun e => negb (has_id expenseId e)) cached in
  cacheExpenses filtered.

Definition deleteExpenseFromFirestore (expenseId : string) : M unit :=
  try_catch
    (deleteExpenseDoc expenseId ;;
     removeCachedExpense expenseId)
    (fun error => throw error).

Definition getLastSyncTimestamp : M (option string) :=
  try_catch
    (local_call ;;
     gets last_sync_timestamp)
    (fun _ => ret None).

End ExpenseStorageRest.

Module StorageSpec.

Import Store.

(** The cached expenses as [getCachedExpenses] reads them. *)
Definition cached_list (w : World) : list Expense.t :=
  match cached_expenses w with
  | Some (data, _) => data
  | None => []
  end.

(** The document or entry found under an [id]. *)
Definition document (i : string) (docs : list Expense.t) : option Expense.t :=
  find (has_id i) docs.

(** The last version of each queued expense, over the documents [docs]. *)
Definition latest (queue docs : list Expense.t) (i : string) : option Expense.t :=
  match document i (rev queue) with
  | Some e => Some e
  | None => document i docs
  end.

(** A computation leaves a component of the world as it was. *)
Definition leaves {A B : Type} (f : World -> B) (m : M A) : Prop :=
  forall w, f (snd (m w)) = f w.

(** A component no AsyncStorage or Firestore call touches by itself. *)
Definition outside_calls {B : Type} (f : World -> B) : Prop :=
  (forall v w, f (set_local_faults v w) = f w) /\
  (forall v w, f (set_remote_faults v w) = f w).

Definition never_throws {A : Type} (m : M A) : Prop :=
  forall w, exists a, fst (m w) = Ok a.

(** The clock and the time of the last synchronisation. *)
Definition sync_mark (w : World) : string * option string :=
  (clock w, last_sync_timestamp w).

(** The coming AsyncStorage call succeeds. *)
Definition next_succeeds (faults : list (option Error)) : bool :=
  match faults with
  | Some _ :: _ => false
  | _ => true
  end.

(** The queue of [Examples.queued_world] with the network back, and a
    later version of the lunch that waits in it. *)
Definition reconnected_world : World :=
  set_remote_faults [] Examples.queued_world.

Definition lunch_corrected : Expense.t :=
  Examples.an_expense "e2" 15 "Lunch and coffee" "Food" "2024-01-01".

End StorageSpec.

(* ================================================================== *)
(** * useCategories.ts: creating, updating and looking up categories *)
(* ================================================================== *)

Module CategoryCreateInput.
Record t : Type := {
  name : string;
  color : string
}.
End CategoryCreateInput.

Module CategoryUpdateInput.
Record t : Type := {
  id : string;
  name : option string;
  color : option string
}.
End CategoryUpdateInput.

Module UseCategoriesActions.

Import JSString Store ExpenseValidation.
Local Open Scope string_scope.
Local Open Scope store_scope.

(** The state of the hook. *)
Record State : Type := {
  categories : list Category.t;
  isLoading : bool;
  isCreating : bool;
  isUpdating : bool;
  isDeleting : option string;
  error : option string
}.

Definition setCategories v st :=
  {| categories := v; isLoading := isLoading st; isCreating := isCreating st;
     isUpdating := isUpdating st; isDeleting := isDeleting st; error := error st |}.
Definition setIsCreating v st :=
  {| categories := categories st; isLoading := isLoading st; isCreating := v;
     isUpdating := isUpdating st; isDeleting := isDeleting st; error := error st |}.
Definition setIsUpdating v st :=
  {| categories := categories st; isLoading := isLoading st;
     isCreating := isCreating st; isUpdating := v;
     isDeleting := isDeleting st; error := error st |}.
Definition setError v st :=
  {| categories := categories st; isLoading := isLoading st;
     isCreating := isCreating st; isUpdating := isUpdating st;
     isDeleting := isDeleting st; error := v |}.

(** [validation.error || fallback] *)
Definition error_or (e : option string) (fallback : string) : string :=
  match e with
  | Some msg => if truthy msg then msg else fallback
  | None => fallback
  end.

(** ** The helpers, which read [categories] only *)

Section Helpers.
Variable categories : list Category.t.

Definition getCategoryById (categoryId : string) : option Category.t :=
  find (fun cat => String.eqb (Category.id cat) categoryId) categories.

Definition getCategoryByName (categoryName : string) : option Category.t :=
  find (fun cat => String.eqb (Category.name cat) categoryName) categories.





(** [excludeId ? cat.id !== excludeId : true] *)
Definition not_excluded (excludeId : option string) (cat : Category.t) : bool :=
  match excludeId with
  | Some i => if truthy i then negb (String.eqb (Category.id cat) i) else true
  | None => true
  end.

Definition categoryNameExists (name : string) (excludeId : option string) : bool :=
  existsb (fun cat => String.eqb (Category.name cat) name && not_excluded excludeId cat)
          categories.

Definition validateNewCategoryName (name : string) (excludeId : option string)
  : ValidationResult :=
  let existingNames :=
    map Category.name (filter (not_excluded excludeId) categories) in
  validateCategoryName name existingNames.

Definition isEmpty (isLoading : bool) : bool :=
  (List.length categories =? 0)%nat && negb isLoading.



End Helpers.

(** ** The actions, over any category service *)

Section Actions.
(** [categoryService.createCategory] and [categoryService.updateCategory]. *)
Variable service_createCategory : CategoryCreateInput.t -> M Category.t.
Variable service_updateCategory : CategoryUpdateInput.t -> M Category.t.

Definition createCategory (st : State) (categoryData : CategoryCreateInput.t)
  : M (option Category.t * State) :=
  let existingNames := map Category.name (categories st) in
  let validation :=
    validateCategoryName (CategoryCreateInput.name categoryData) existingNames in
  if negb (isValid validation) then
    ret (None,
         setError (Some (error_or (ExpenseValidation.error validation)
                                  "Invalid category name")) st)
  else
    let st := setError None (setIsCreating true st) in
    r <- try_catch
           (newCategory <- service_createCategory categoryData ;;
            ret (Some newCategory,
                 setCategories (categories st ++ [newCategory]) st))
           (fun err =>
              ret (None,
                   setError
                     (Some (UseCategories.message_or err "Failed to create category"))
                     st)) ;;
    ret (fst r, setIsCreating false (snd r)).

(** [if (categoryData.name) { ... }]: the name to validate, when there is
    one and it is not empty. *)
Definition name_to_validate (categoryData : CategoryUpdateInput.t) : option string :=
  match CategoryUpdateInput.name categoryData with
  | Some name => if truthy name then Some name else None
  | None => None
  end.

Definition updateCategory (st : State) (categoryData : CategoryUpdateInput.t)
  : M (option Category.t * State) :=
  let validation :=
    match name_to_validate categoryData with
    | Some name =>
        let existingNames :=
          map Category.name
              (filter (fun cat =>
                         negb (String.eqb (Category.id cat)
                                          (CategoryUpdateInput.id categoryData)))
                      (categories st)) in
        validateCategoryName name existingNames
    | None => valid
    end in
  if negb (isValid validation) then
    ret (None,
         setError (Some (error_or (ExpenseValidation.error validation)
                                  "Invalid category name")) st)
  else
    let st := setError None (setIsUpdating true st) in
    r <- try_catch
           (updatedCategory <- service_updateCategory categoryData ;;
            ret (Some updatedCategory,
                 setCategories
                   (map (fun cat =>
                           if String.eqb (Category.id cat)
                                         (CategoryUpdateInput.id categoryData)
                           then updatedCategory else cat)
                        (categories st)) st))
           (fun err =>
              ret (None,
                   setError
                     (Some (UseCategories.message_or err "Failed to update category"))
                     st)) ;;
    ret (fst r, setIsUpdating false (snd r)).

End Actions.

End UseCategoriesActions.

(* ================================================================== *)
(** * useTransactionList.ts: the filter state and its actions *)
(* ================================================================== *)

Module TransactionFilterState.

Import JSString Transaction.
Local Open Scope string_scope.

(** The two pieces of state of the hook: [filters] and [searchQuery]. *)
Record State : Type := {
  filters : TransactionFilters;
  searchQuery : string
}.

(** [useState(initialFilters)] and [useState(filters.searchQuery || '')] *)
Definition initial (initialFilters : TransactionFilters) : State :=
  {| filters := initialFilters;
     searchQuery := or_empty_string (Transaction.searchQuery initialFilters) |}.

(** [{ ...prev, searchQuery: query }] *)
Definition spread_searchQuery (prev : TransactionFilters) (query : string)
  : TransactionFilters := {|
  Transaction.searchQuery := Some query;
  typeFilter := typeFilter prev;
  categories := categories prev;
  dateFrom := dateFrom prev;
  dateTo := dateTo prev;
  amountMin := amountMin prev;
  amountMax := amountMax prev
|}.

Definition search (st : State) (query : string) : State :=
  {| filters := spread_searchQuery (filters st) query; searchQuery := query |}.

Definition applyFilters (st : State) (newFilters : TransactionFilters) : State :=
  {| filters := newFilters;
     searchQuery := or_empty_string (Transaction.searchQuery newFilters) |}.

Definition clearFilters (st : State) : State :=
  let clearedFilters := noFilters in
  {| filters := clearedFilters; searchQuery := "" |}.

(** What the user does to the filters. *)
Inductive Action : Type :=
| Search (query : string)
| ApplyFilters (newFilters : TransactionFilters)
| ClearFilters.

Definition step (st : State) (a : Action) : State :=
  match a with
  | Search query => search st query
  | ApplyFilters newFilters => applyFilters st newFilters
  | ClearFilters => clearFilters st
  end.

(** [filteredTransactions.length === 0 && !isLoading] *)
Definition isEmpty (filteredTransactions : list Transaction) (isLoading : bool) : bool :=
  (List.length filteredTransactions =? 0)%nat && negb isLoading.

End TransactionFilterState.

Module TransactionViewSpec.

Import JSString JSDate Transaction.

(** The filter object without its date bounds. *)
Definition without_date_range (f : TransactionFilters) : TransactionFilters := {|
  searchQuery := searchQuery f; typeFilter := typeFilter f;
  categories := categories f; dateFrom := None; dateTo := None;
  amountMin := amountMin f; amountMax := amountMax f
|}.

(** The filter object with another type filter. *)
Definition with_typeFilter (k : option TypeFilter) (f : TransactionFilters)
  : TransactionFilters := {|
  searchQuery := searchQuery f; typeFilter := k;
  categories := categories f; dateFrom := dateFrom f; dateTo := dateTo f;
  amountMin := amountMin f; amountMax := amountMax f
|}.

(** The three summaries the hook returns. *)
Definition summaries (h : HookData) : list TransactionSummaryData :=
  [hook_summaryData h; hook_monthlyData h; hook_yearToDateData h].

(** The summary has no transaction of the kind [k]. *)
Definition none_of (k : TransactionType) (s : TransactionSummaryData) : Prop :=
  match k with
  | income =>
      incomeCount s = 0 /\ totalIncome s = 0%Q /\ averageIncome s = 0%Q /\
      transactionCount s = expenseCount s
  | expense =>
      expenseCount s = 0 /\ totalExpenses s = 0%Q /\ averageExpense s = 0%Q /\
      transactionCount s = incomeCount s
  end.

Definition other_type (k : TransactionType) : TransactionType :=
  match k with income => expense | expense => income end.

(** The counts and totals of [s] do not exceed those of [s']. *)
Definition counts_within (s s' : TransactionSummaryData) : Prop :=
  transactionCount s <= transactionCount s' /\
  incomeCount s <= incomeCount s' /\
  expenseCount s <= expenseCount s'.

Definition totals_within (s s' : TransactionSummaryData) : Prop :=
  (totalIncome s <= totalIncome s')%Q /\
  (totalExpenses s <= totalExpenses s')%Q.

End TransactionViewSpec.

(* ================================================================== *)
(** * useExpenseForm.ts: validation while typing and on submit *)
(* ================================================================== *)

Module ExpenseFormData.
Record t : Type := {
  amount : string;
  label : string;
  description : string;
  category : string;
  date : string;
  receipts : list Document
}.
End ExpenseFormData.

(** [FormErrors]: a key is absent ([None]) or holds what was assigned to
    it, which may be [undefined]. *)
Module FormErrors.
Record t : Type := {
  amount : option (option string);
  label : option (option string);
  description : option (option string);
  category : option (option string);
  date : option (option string);
  general : option (option string)
}.
End FormErrors.

Module UseExpenseForm.

Import JSString JSNumber JSDate ExpenseValidation ExpenseFormValidation.
Local Open Scope string_scope.

Section Form.
Context {D : DateAPI}.
(** The global [parseFloat]. *)
Variable parseFloat : string -> number.

(** [if (value) { const v = validate(value); if (!v.isValid) newErrors.key = v.error; }] *)
Definition key_for (value : string) (validation : ValidationResult)
  : option (option string) :=
  if truthy value then
    if negb (isValid validation) then Some (error validation) else None
  else None.

(** The [newErrors] of the effect that runs on every change of the form. *)
Definition newErrors (formData : ExpenseFormData.t) : FormErrors.t := {|
  FormErrors.amount :=
    key_for (ExpenseFormData.amount formData)
            (validateAmount (parseFloat (ExpenseFormData.amount formData)));
  FormErrors.label :=
    key_for (ExpenseFormData.label formData)
            (validateLabel (ExpenseFormData.label formData));
  FormErrors.description :=
    key_for (ExpenseFormData.description formData)
            (validateDescription (Some (ExpenseFormData.description formData)));
  FormErrors.category := None;
  FormErrors.date :=
    key_for (ExpenseFormData.date formData)
            (validateDate (ExpenseFormData.date formData));
  FormErrors.general := None
|}.

Definition present {A : Type} (key : option A) : nat :=
  match key with Some _ => 1 | None => 0 end.

(** [Object.keys(errors).length] *)
Definition keys_length (errors : FormErrors.t) : nat :=
  present (FormErrors.amount errors) + present (FormErrors.label errors)
  + present (FormErrors.description errors) + present (FormErrors.category errors)
  + present (FormErrors.date errors) + present (FormErrors.general errors).

(** The [isValid] state the effect sets. *)
Definition isValid_state (formData : ExpenseFormData.t) : bool :=
  let hasRequiredFields :=
    truthy (ExpenseFormData.amount formData)
    && truthy (ExpenseFormData.label formData)
    && truthy (ExpenseFormData.category formData)
    && truthy (ExpenseFormData.date formData) in
  let hasNoErrors := (keys_length (newErrors formData) =? 0)%nat in
  hasRequiredFields && hasNoErrors.

(** The [expenseData] that [submitForm] builds for the final validation. *)
Definition expenseData (formData : ExpenseFormData.t) : ExpenseFormInput := {|
  amount := parseFloat (ExpenseFormData.amount formData);
  label := trim (ExpenseFormData.label formData);
  description :=
    (let trimmed := trim (ExpenseFormData.description formData) in
     if truthy trimmed then Some trimmed else None);
  category := ExpenseFormData.category formData;
  date := ExpenseFormData.date formData
|}.

(** The final validation of [submitForm]. *)
Definition finalValidation (formData : ExpenseFormData.t) : ValidationResult :=
  validateExpenseForm (expenseData formData).

End Form.

(** A form filled in, and the same with a blank category. *)
Definition lunch_form : ExpenseFormData.t := {|
  ExpenseFormData.amount := "12.34";
  ExpenseFormData.label := " Lunch ";
  ExpenseFormData.description := "";
  ExpenseFormData.category := "Food";
  ExpenseFormData.date := "2024-01-02";
  ExpenseFormData.receipts := []
|}.

(** What [parseFloat] makes of the amount of [lunch_form]. *)
Definition sample_parseFloat (s : string) : number :=
  if String.eqb s "12.34" then ValidationSpec.twelve_34 else NaN.

End UseExpenseForm.

(* ================================================================== *)
(** * transactionFilters.tsx: choosing categories *)
(* ================================================================== *)

Module TransactionFiltersComponent.

Import JSString Transaction.
Local Open Scope string_scope.

(** [tempFilters.categories || []]: an array is always truthy. *)
Definition currentCategories (tempFilters : TransactionFilters) : list string :=
  match categories tempFilters with
  | Some cs => cs
  | None => []
  end.

(** [currentCategories.includes(categoryName)] *)
Definition isSelected (tempFilters : TransactionFilters) (categoryName : string)
  : bool :=
  existsb (String.eqb categoryName) (currentCategories tempFilters).

Definition handleCategoryToggle (tempFilters : TransactionFilters)
           (categoryName : string) : TransactionFilters :=
  let currentCategories := currentCategories tempFilters in
  let isSelected := existsb (String.eqb categoryName) currentCategories in
  let newCategories :=
    if isSelected
    then filter (fun cat => negb (String.eqb cat categoryName)) currentCategories
    else (currentCategories ++ [categoryName])%list in
  {| searchQuery := searchQuery tempFilters;
     typeFilter := typeFilter tempFilters;
     categories :=
       if (0 <? List.length newCategories)%nat then Some newCategories else None;
     dateFrom := dateFrom tempFilters;
     dateTo := dateTo tempFilters;
     amountMin := amountMin tempFilters;
     amountMax := amountMax tempFilters |}.

End TransactionFiltersComponent.

(* ================================================================== *)
(** * useIncomeCategories.ts: the name of an income category *)
(* ================================================================== *)

Module IncomeCategory.
Record t : Type := {
  id : string;
  name : string;
  color : string;
  isDefault : bool;
  incomeCount : Z;
  totalAmount : Q;
  createdAt : string;
  updatedAt : string
}.
End IncomeCategory.

Module UseIncomeCategories.

Import JSString ExpenseValidation.
Local Open Scope string_scope.

(** [excludeId ? cat.id !== excludeId : true] *)
Definition not_excluded (excludeId : option string) (cat : IncomeCategory.t) : bool :=
  match excludeId with
  | Some i => if truthy i then negb (String.eqb (IncomeCategory.id cat) i) else true
  | None => true
  end.

Definition validateCategoryName (categories : list IncomeCategory.t)
           (name : string) (excludeId : option string) : ValidationResult :=
  if negb (truthy name) || (String.length (trim name) =? 0)%nat then
    invalid "Category name is required"
  else if (15 <? String.length name)%nat then
    invalid "Category name cannot exceed 15 characters"
  else if negb (name_regex name) then
    invalid "Category name must contain only alphanumeric characters and spaces"
  else if negb (String.eqb (trim name) name) then
    invalid "Category name cannot start or end with spaces"
  else
    let isDuplicate :=
      existsb (fun cat => String.eqb (IncomeCategory.name cat) name
                          && not_excluded excludeId cat)
              categories in
    if isDuplicate then invalid "Category name already exists"
    else valid.

End UseIncomeCategories.

Unset Implicit Arguments.

(* ================================================================== *)
(** * Summaries of the transaction list *)
(* ================================================================== *)

Module SummaryProofs.

Import JSString JSDate Transaction TransactionSpec.
Local Open Scope Q_scope.

Lemma Qltb_lt (x y : Q) : Qltb x y = true <-> x < y.
Proof. unfold Qltb, Qlt. apply Z.ltb_lt. Qed.


(** ** Sums *)

Lemma fold_sum_shift (l : list Transaction) (acc : Q) :
  fold_left (fun sum t => sum + amount t) l acc == acc + total (map amount l).
Proof.
  revert acc; induction l as [| t l IH]; intros acc; simpl.
  - ring.
  - rewrite IH. ring.
Qed.

Lemma sumAmounts_total (l : list Transaction) :
  sumAmounts l == total (map amount l).
Proof. unfold sumAmounts. rewrite fold_sum_shift. ring. Qed.






End SummaryProofs.

(* ================================================================== *)
(** * Filtering the transaction list *)
(* ================================================================== *)

Module FilterProofs.

Import JSString JSDate Transaction TransactionSpec.
Local Open Scope Q_scope.

(** ** Letter case *)





Lemma case_variant_refl (s : string) : case_variant s s.
Proof.
  unfold case_variant. induction s as [| c s IH]; simpl; [reflexivity |].
  unfold case_variant_char. now rewrite Ascii.eqb_refl, IH.
Qed.



Section Keeps.
Context {D : DateAPI}.



Lemma with_own_searchQuery (f : TransactionFilters) (t : Transaction) :
  keeps (with_searchQuery (searchQuery f) f) t = keeps f t.
Proof. reflexivity. Qed.

Lemma case_variant_opt_refl (q : option string) : case_variant_opt q q.
Proof. destruct q; simpl; [apply case_variant_refl | exact I]. Qed.


(** ** Category set and amount range *)






End Keeps.

End FilterProofs.

(* ================================================================== *)
(** * The order of the merged list *)
(* ================================================================== *)

Module SortProofs.

Import JSString JSDate Transaction TransactionSpec Examples.
Local Open Scope Z_scope.

Section AnyComparator.
Variable A : Type.
Variable cmp : A -> A -> option Z.

Lemma insert_perm (x : A) (l : list A) : Permutation (x :: l) (insert cmp x l).
Proof.
  induction l as [| y l IH]; simpl; [apply Permutation_refl |].
  destruct (comes_after cmp x y).
  - eapply perm_trans; [apply perm_swap |]. now apply perm_skip.
  - apply Permutation_refl.
Qed.

Lemma sort_perm (l : list A) : Permutation l (sort cmp l).
Proof.
  induction l as [| x l IH]; simpl; [constructor |].
  eapply perm_trans; [apply perm_skip, IH | apply insert_perm].
Qed.
End AnyComparator.

Section ByDate.
Context {D : DateAPI}.

Lemma comes_after_dated (x y : Transaction) (tx ty : Z) :
  getTime (date x) = Some tx -> getTime (date y) = Some ty ->
  comes_after newest_first x y = (tx <? ty).
Proof.
  intros Hx Hy. unfold comes_after, newest_first. rewrite Hx, Hy.
  destruct (Z.ltb_spec 0 (ty - tx)), (Z.ltb_spec tx ty); try reflexivity; lia.
Qed.

Lemma insert_head (x y : Transaction) (l : list Transaction) :
  not_earlier y x -> HdRel not_earlier y l ->
  HdRel not_earlier y (insert newest_first x l).
Proof.
  intros Hyx Hl. destruct l as [| z l]; simpl.
  - now constructor.
  - destruct (comes_after newest_first x z).
    + constructor. now inversion Hl.
    + now constructor.
Qed.

Lemma insert_sorted (x : Transaction) (l : list Transaction) :
  dated x -> Forall dated l ->
  Sorted not_earlier l -> Sorted not_earlier (insert newest_first x l).
Proof.
  intros [tx Hx] Hd Hs.
  induction l as [| y l IH]; simpl.
  - repeat constructor.
  - inversion Hd as [| ? ? [ty Hy] Hd']; subst.
    inversion Hs as [| ? ? Hs' Hh]; subst.
    rewrite (comes_after_dated x y tx ty Hx Hy).
    destruct (Z.ltb_spec tx ty).
    + constructor; [now apply IH |].
      apply insert_head; [| assumption].
      exists ty, tx. repeat split; try assumption; lia.
    + constructor; [assumption |].
      constructor. exists tx, ty. repeat split; try assumption; lia.
Qed.

Lemma sort_sorted (l : list Transaction) :
  Forall dated l -> Sorted not_earlier (sort newest_first l).
Proof.
  induction l as [| x l IH]; intros Hd; simpl; [constructor |].
  inversion Hd as [| ? ? Hx Hl]; subst.
  apply insert_sorted; [assumption | | now apply IH].
  eapply Permutation_Forall; [apply sort_perm | assumption].
Qed.

Lemma income_dated (i : Income.t) :
  (exists tv, getTime (Income.date i) = Some tv) ->
  dated (createTransactionFromIncome i).
Proof. intros H; exact H. Qed.

Lemma expense_dated (e : Expense.t) :
  (exists tv, getTime (Expense.date e) = Some tv) ->
  dated (createTransactionFromExpense e).
Proof. intros H; exact H. Qed.

(** C2, as the code has it.  When every date is a valid one, the merged
    list holds exactly the given incomes and expenses, and each element is
    dated later than the next or at the same time. *)
Theorem merged_list_newest_first
        (incomes : list Income.t) (expenses : list Expense.t) :
  Forall (fun i => exists tv, getTime (Income.date i) = Some tv) incomes ->
  Forall (fun e => exists tv, getTime (Expense.date e) = Some tv) expenses ->
  Sorted not_earlier (allTransactions incomes expenses) /\
  Permutation (map createTransactionFromIncome incomes ++
               map createTransactionFromExpense expenses)
              (allTransactions incomes expenses).
Proof.
  intros Hi He. unfold allTransactions. split; [| apply sort_perm].
  apply sort_sorted. apply Forall_app. split.
  - induction Hi; simpl; constructor; [now apply income_dated | assumption].
  - induction He; simpl; constructor; [now apply expense_dated | assumption].
Qed.

End ByDate.

(** An income and two expenses, two of the three of the same day, merged
    on a platform in UTC. *)
Lemma merged_list_newest_first_witness :
  let D := ISODate utc mid_january_2024 in
  Forall (fun i => exists tv, getTime (Income.date i) = Some tv) [salary] /\
  Forall (fun e => exists tv, getTime (Expense.date e) = Some tv)
         [lunch; groceries] /\
  Sorted not_earlier (allTransactions [salary] [lunch; groceries]) /\
  Permutation (map createTransactionFromIncome [salary] ++
               map createTransactionFromExpense [lunch; groceries])
              (allTransactions [salary] [lunch; groceries]).
Proof.
  intros D.
  assert (Hi : Forall (fun i => exists tv, getTime (Income.date i) = Some tv)
                      [salary])
    by (constructor; [exists 1704067200000; reflexivity | constructor]).
  assert (He : Forall (fun e => exists tv, getTime (Expense.date e) = Some tv)
                      [lunch; groceries])
    by (constructor; [exists 1704067200000; reflexivity |];
        constructor; [exists 1704153600000; reflexivity | constructor]).
  split; [exact Hi |]. split; [exact He |].
  exact (merged_list_newest_first [salary] [lunch; groceries] Hi He).
Defined.

(** C2, as the specification words it, fails: an income and an expense of
    the same day stay next to each other, and neither is strictly later
    than the other. *)
Lemma same_day_not_strictly_sorted :
  ~ (forall (D : DateAPI) (incomes : list Income.t) (expenses : list Expense.t),
        Sorted strictly_later (allTransactions incomes expenses)).
Proof.
  intros H.
  specialize (H (ISODate utc mid_january_2024) [salary] [lunch]).
  assert (E : allTransactions (D := ISODate utc mid_january_2024) [salary] [lunch]
              = [createTransactionFromIncome salary;
                 createTransactionFromExpense lunch])
    by (vm_compute; reflexivity).
  rewrite E in H.
  inversion H as [| ? ? _ Hh]; subst.
  inversion Hh as [| ? ? (ta & tb & Ha & Hb & Hlt)]; subst.
  vm_compute in Ha, Hb.
  inversion Ha; inversion Hb; subst. lia.
Qed.

End SortProofs.

(* ================================================================== *)
(** * The example of the monthly summary *)
(* ================================================================== *)

Module MonthlyExample.

Import JSString JSDate Transaction TransactionSpec Examples.
Local Open Scope Z_scope.

Lemma keeps_noFilters {D : DateAPI} (t : Transaction) : keeps noFilters t = true.
Proof. reflexivity. Qed.

Lemma filtered_noFilters {D : DateAPI} (l : list Transaction) :
  filteredTransactions noFilters l = l.
Proof.
  unfold filteredTransactions.
  induction l as [| t l IH]; simpl; [reflexivity | now rewrite IH].
Qed.










(** What the two platforms make of the example. *)
Remark january_example_elsewhere :
  hook_monthlyData
    (useTransactionList (D := ISODate utc november_2026)
                        noFilters [salary] [groceries])
  = summarise [] /\
  (let D := ISODate utc_minus_5 mid_january_2024 in
   currentMonth = 0 /\ currentYear = 2024 /\
   hook_monthlyData (useTransactionList noFilters [salary] [groceries])
   = summarise [createTransactionFromExpense groceries]).
Proof. vm_compute. repeat split. Qed.

End MonthlyExample.

(* ================================================================== *)
(** * Amount validation *)
(* ================================================================== *)

Module AmountProofs.

Import JSString JSNumber ValidationSpec.
Local Open Scope string_scope.

(** ** Texts without a full stop *)

Lemma append_assoc (a b c : string) : (a ++ b) ++ c = a ++ (b ++ c).
Proof. induction a as [| x a IH]; simpl; [reflexivity | now rewrite IH]. Qed.

Lemma length_append (a b : string) :
  String.length (a ++ b) = (String.length a + String.length b)%nat.
Proof. induction a as [| x a IH]; simpl; [reflexivity | now rewrite IH]. Qed.

Lemma no_dot_append (a b : string) : no_dot (a ++ b) = no_dot a && no_dot b.
Proof.
  unfold no_dot. induction a as [| x a IH]; simpl; [reflexivity |].
  now rewrite IH, andb_assoc.
Qed.

Lemma no_dot_digit (d : digit) : (code (digit_char d) =? 46)%N = false.
Proof. destruct d; reflexivity. Qed.

Lemma no_dot_digits (ds : list digit) : no_dot (digits_string ds) = true.
Proof.
  unfold no_dot. induction ds as [| d ds IH]; simpl; [reflexivity |].
  now rewrite no_dot_digit, IH.
Qed.

Lemma no_dot_zeros (n : nat) : no_dot (zeros n) = true.
Proof. unfold no_dot. induction n as [| n IH]; simpl; [reflexivity | exact IH]. Qed.

Lemma no_dot_uint (u : Decimal.uint) :
  no_dot (DecimalString.NilEmpty.string_of_uint u) = true.
Proof. unfold no_dot. induction u; simpl; try reflexivity; exact IHu. Qed.

Lemma no_dot_decimal (n : Z) : no_dot (decimal n) = true.
Proof.
  unfold decimal, DecimalString.NilZero.string_of_uint.
  destruct (N.to_uint (Z.to_N n)); try apply no_dot_uint. reflexivity.
Qed.

Lemma length_digits (ds : list digit) :
  String.length (digits_string ds) = List.length ds.
Proof. induction ds as [| d ds IH]; simpl; [reflexivity | now rewrite IH]. Qed.

Lemma length_zeros (n : nat) : String.length (zeros n) = n.
Proof. induction n as [| n IH]; simpl; [reflexivity | now rewrite IH]. Qed.

(** ** What [split('.')] finds *)

Lemma split_without_dot (s : string) : no_dot s = true -> split_dot s = [s].
Proof.
  unfold no_dot. induction s as [| c s IH]; simpl; [reflexivity |].
  intros H. apply andb_true_iff in H. destruct H as [Hc Hs].
  apply negb_true_iff in Hc. rewrite Hc, (IH Hs). reflexivity.
Qed.

Lemma split_at_dot (pre post : string) :
  no_dot pre = true ->
  split_dot (pre ++ "." ++ post) = pre :: split_dot post.
Proof.
  unfold no_dot. induction pre as [| c pre IH]; simpl; [reflexivity |].
  intros H. apply andb_true_iff in H. destruct H as [Hc Hs].
  apply negb_true_iff in Hc. rewrite Hc.
  simpl in IH. rewrite (IH Hs). reflexivity.
Qed.

Lemma places_without_dot (s : string) :
  no_dot s = true -> second_or_empty (split_dot s) = "".
Proof. intros H. now rewrite (split_without_dot s H). Qed.

Lemma places_after_dot (pre post : string) :
  no_dot pre = true -> no_dot post = true ->
  second_or_empty (split_dot (pre ++ "." ++ post)) = post.
Proof.
  intros Hpre Hpost.
  now rewrite (split_at_dot pre post Hpre), (split_without_dot post Hpost).
Qed.

Lemma no_dot_sign (neg : bool) : no_dot (if neg then "-" else "") = true.
Proof. destruct neg; reflexivity. Qed.

(** ** The count the validators make *)

Local Open Scope Z_scope.

(** In positional notation the count is the number of fraction digits. *)
Lemma decimalPlaces_positional (neg : bool) (d : digit) (ds : list digit) (n : Z) :
  positional n = true ->
  Z.of_nat (decimalPlaces (Finite neg d ds n))
  = fractionDigits (Finite neg d ds n).
Proof.
  intros Hp. unfold decimalPlaces, fractionDigits, toString.
  unfold positional in Hp. rewrite Hp.
  set (digits := d :: ds). set (k := Z.of_nat (List.length digits)).
  destruct (Z.leb_spec k n) as [Hkn | Hkn].
  - rewrite places_without_dot.
    + simpl String.length. lia.
    + now rewrite !no_dot_append, no_dot_sign, no_dot_digits, no_dot_zeros.
  - destruct (Z.ltb_spec 0 n) as [Hn | Hn].
    + rewrite <- append_assoc.
      rewrite places_after_dot.
      * rewrite length_digits, length_skipn. fold k. lia.
      * now rewrite no_dot_append, no_dot_sign, no_dot_digits.
      * apply no_dot_digits.
    + change ("0." ++ zeros (Z.to_nat (- n)) ++ digits_string digits)%string
        with ("0" ++ "." ++ zeros (Z.to_nat (- n)) ++ digits_string digits)%string.
      rewrite <- append_assoc.
      rewrite places_after_dot.
      * rewrite length_append, length_zeros, length_digits. fold k. lia.
      * now rewrite no_dot_append, no_dot_sign.
      * now rewrite no_dot_append, no_dot_zeros, no_dot_digits.
Qed.

(** With an exponent and a single digit there is no full stop at all. *)
Lemma decimalPlaces_exponent_single (neg : bool) (d : digit) (n : Z) :
  positional n = false ->
  decimalPlaces (Finite neg d [] n) = 0%nat.
Proof.
  intros Hp. unfold decimalPlaces, toString.
  unfold positional in Hp. rewrite Hp.
  change (Z.of_nat (List.length [d]) =? 1) with true. cbv iota.
  rewrite places_without_dot; [reflexivity |].
  rewrite !no_dot_append, no_dot_sign, no_dot_digits, no_dot_decimal.
  now destruct (n - 1 <? 0).
Qed.

(** With an exponent and several digits the exponent is counted too. *)
Lemma decimalPlaces_exponent_several
      (neg : bool) (d d' : digit) (ds : list digit) (n : Z) :
  positional n = false ->
  (2 < decimalPlaces (Finite neg d (d' :: ds) n))%nat.
Proof.
  intros Hp. unfold decimalPlaces, toString.
  unfold positional in Hp. rewrite Hp.
  replace (Z.of_nat (List.length (d :: d' :: ds)) =? 1) with false
    by (symmetry; apply Z.eqb_neq; simpl List.length; lia).
  rewrite <- append_assoc.
  rewrite places_after_dot.
  - rewrite !length_append, length_digits. simpl List.length.
    destruct (n - 1 <? 0); simpl String.length; lia.
  - now rewrite no_dot_append, no_dot_sign, no_dot_digits.
  - rewrite !no_dot_append, no_dot_digits, no_dot_decimal.
    now destruct (n - 1 <? 0).
Qed.

(** ** The verdicts *)

(** The amounts expenseValidation.ts accepts: the non-negative finite
    ones that print positionally with at most two fraction digits, or with
    an exponent and a single digit. *)
Lemma expense_validateAmount_accepts (x : number) :
  ExpenseValidation.isValid (ExpenseValidation.validateAmount x) = true <->
  match x with
  | Zero _ => True
  | Finite neg d ds n =>
      neg = false /\
      if positional n then fractionDigits x <= 2 else ds = []
  | _ => False
  end.
Proof.
  unfold ExpenseValidation.validateAmount.
  destruct x as [| neg | neg | neg d ds n]; simpl lt_zero; simpl isFinite.
  - simpl. split; [discriminate | contradiction].
  - destruct neg; simpl; split; try discriminate; contradiction.
  - simpl. split; [trivial | reflexivity].
  - destruct neg; [simpl; split; [discriminate | intros [E _]; discriminate] |].
    cbv beta iota. simpl negb. cbv iota.
    destruct (positional n) eqn:Hp.
    + pose proof (decimalPlaces_positional false d ds n Hp) as E.
      destruct (Nat.ltb_spec 2 (decimalPlaces (Finite false d ds n))) as [H | H].
      * split; [discriminate | intros [_ H']; lia].
      * split; [intros _; split; [reflexivity | lia] | reflexivity].
    + destruct ds as [| d' ds].
      * rewrite (decimalPlaces_exponent_single false d n Hp). simpl.
        split; [intros _; split; reflexivity | reflexivity].
      * pose proof (decimalPlaces_exponent_several false d d' ds n Hp) as H.
        apply Nat.ltb_lt in H. rewrite H. simpl.
        split; [discriminate | intros [_ E]; discriminate].
Qed.

(** Positional amounts are judged as the specification says: accepted
    exactly when not negative and of at most two fraction digits. *)
Lemma expense_validateAmount_positional
      (neg : bool) (d : digit) (ds : list digit) (n : Z) :
  positional n = true ->
  ExpenseValidation.isValid
    (ExpenseValidation.validateAmount (Finite neg d ds n)) = true <->
  neg = false /\ fractionDigits (Finite neg d ds n) <= 2.
Proof.
  intros Hp. rewrite expense_validateAmount_accepts. now rewrite Hp.
Qed.

(** incomeValidation.ts on positional amounts: no error exactly when
    positive and of at most two fraction digits. *)
Lemma income_validateAmount_positional
      (parseFloat : string -> number)
      (neg : bool) (d : digit) (ds : list digit) (n : Z) :
  positional n = true ->
  IncomeValidation.validateAmount parseFloat
    (IncomeValidation.ofNumber (Finite neg d ds n)) = [] <->
  neg = false /\ fractionDigits (Finite neg d ds n) <= 2.
Proof.
  intros Hp.
  pose proof (decimalPlaces_positional neg d ds n Hp) as E.
  unfold IncomeValidation.validateAmount, IncomeValidation.push_if,
    IncomeValidation.AMOUNT_MAX_DECIMAL_PLACES.
  remember (fractionDigits (Finite neg d ds n)) as fd eqn:Hfd.
  remember (decimalPlaces (Finite neg d ds n)) as dp eqn:Hdp.
  clear Hfd Hdp.
  destruct neg; simpl.
  - destruct (Nat.ltb_spec 2 dp);
      simpl; split; try discriminate; intros [H' _]; discriminate.
  - destruct (Nat.ltb_spec 2 dp) as [H | H]; simpl.
    + split; [discriminate | intros [_ H']; lia].
    + split; [intros _; split; [reflexivity | lia] | reflexivity].
Qed.

(** C4.  Both validators accept the amount 0.0000001: its decimal
    expansion has seven fraction digits, but [toString] prints it as
    [1e-7], a text without a full stop, and the count of decimal places
    made from that text is zero. *)
Theorem tiny_amount_passes_validation :
  well_formed one_ten_millionth = true /\
  fractionDigits one_ten_millionth = 7 /\
  toString one_ten_millionth = "1e-7"%string /\
  decimalPlaces one_ten_millionth = 0%nat /\
  ExpenseValidation.validateAmount one_ten_millionth = ExpenseValidation.valid /\
  (forall parseFloat,
      IncomeValidation.validateAmount parseFloat
        (IncomeValidation.ofNumber one_ten_millionth) = []).
Proof. repeat split. Qed.

(** An amount of exactly two fraction digits, 12.34, is accepted, and its
    negation is rejected. *)
Lemma two_fraction_digits_accepted :
  fractionDigits twelve_34 = 2 /\
  ExpenseValidation.validateAmount twelve_34 = ExpenseValidation.valid /\
  (forall parseFloat,
      IncomeValidation.validateAmount parseFloat
        (IncomeValidation.ofNumber twelve_34) = []) /\
  ExpenseValidation.isValid
    (ExpenseValidation.validateAmount (Finite true D1 [D2; D3; D4] 2)) = false.
Proof. repeat split. Qed.

End AmountProofs.

(* ================================================================== *)
(** * Category name validation *)
(* ================================================================== *)

Module CategoryNameProofs.

Import JSString ValidationSpec.
Import ExpenseValidation.
Local Open Scope string_scope.

Lemma trimStart_whitespace (s : string) :
  JSString.forallb is_whitespace s = true -> trimStart s = "".
Proof.
  induction s as [| c s IH]; simpl; [reflexivity |].
  intros H. apply andb_true_iff in H. destruct H as [Hc Hs].
  rewrite Hc. now apply IH.
Qed.

Lemma trim_whitespace (s : string) :
  JSString.forallb is_whitespace s = true -> trim s = "".
Proof. intros H. unfold trim. now rewrite (trimStart_whitespace s H). Qed.

Lemma existsb_eqb_In (name : string) (existing : list string) :
  existsb (String.eqb name) existing = true <-> In name existing.
Proof.
  rewrite existsb_exists. split.
  - intros (x & Hin & Hx). apply String.eqb_eq in Hx. now subst.
  - intros Hin. exists name. split; [assumption | apply String.eqb_refl].
Qed.

Lemma existsb_eqb_flip (name : string) (existing : list string) :
  existsb (fun e => String.eqb e name) existing
  = existsb (String.eqb name) existing.
Proof.
  induction existing as [| e l IH]; simpl; [reflexivity |].
  now rewrite IH, String.eqb_sym.
Qed.

(** ** expenseValidation.ts *)

(** The verdict depends on the existing names only through the presence of
    the very same name. *)
Lemma expense_duplicates_are_exact (name : string) (existing : list string) :
  isValid (validateCategoryName name existing)
  = isValid (validateCategoryName name [])
    && negb (existsb (String.eqb name) existing).
Proof.
  unfold validateCategoryName.
  rewrite existsb_eqb_flip.
  destruct (negb (truthy name) || (String.length (trim name) =? 0)%nat);
    [reflexivity |].
  destruct (negb (trim name =? name) || (String.length (trim name) =? 0)%nat);
    [reflexivity |].
  destruct (15 <? String.length name)%nat; [reflexivity |].
  destruct (negb (name_regex name)); [reflexivity |].
  simpl existsb. cbv iota.
  now destruct (existsb (String.eqb name) existing).
Qed.

Lemma expense_rejects_duplicate (name : string) (existing : list string) :
  In name existing -> isValid (validateCategoryName name existing) = false.
Proof.
  intros H. rewrite expense_duplicates_are_exact.
  apply existsb_eqb_In in H. rewrite H. apply andb_false_r.
Qed.

Lemma expense_rejects_long (name : string) (existing : list string) :
  (15 < String.length name)%nat ->
  isValid (validateCategoryName name existing) = false.
Proof.
  intros H. apply Nat.ltb_lt in H. unfold validateCategoryName. rewrite H.
  destruct (negb (truthy name) || (String.length (trim name) =? 0)%nat);
    [reflexivity |].
  destruct (negb (trim name =? name) || (String.length (trim name) =? 0)%nat);
    reflexivity.
Qed.

Lemma expense_rejects_outside_class (name : string) (existing : list string) :
  JSString.forallb name_char name = false ->
  isValid (validateCategoryName name existing) = false.
Proof.
  intros H. unfold validateCategoryName, name_regex. rewrite H, andb_false_r.
  destruct (negb (truthy name) || (String.length (trim name) =? 0)%nat);
    [reflexivity |].
  destruct (negb (trim name =? name) || (String.length (trim name) =? 0)%nat);
    [reflexivity |].
  destruct (15 <? String.length name)%nat; reflexivity.
Qed.

Lemma expense_rejects_whitespace (name : string) (existing : list string) :
  JSString.forallb is_whitespace name = true ->
  isValid (validateCategoryName name existing) = false.
Proof.
  intros H. unfold validateCategoryName. rewrite (trim_whitespace name H).
  simpl String.length. simpl Nat.eqb. now rewrite orb_true_r.
Qed.

(** ** incomeValidation.ts *)

Import IncomeValidation.

Lemma accepts_push_if (b : bool) (e : IncomeValidationError)
      (errors : list IncomeValidationError) :
  accepts (push_if b e errors) = accepts errors && negb b.
Proof.
  unfold accepts, push_if. destruct b.
  - rewrite length_app. simpl. rewrite andb_false_r.
    apply Nat.eqb_neq. lia.
  - now rewrite andb_true_r.
Qed.

(** No error is reported exactly when the name has a character that is not
    white space, at most 15 characters, all of them in the class, and is
    not among the existing names. *)
Lemma income_validateCategory_accepts (category : string) (existing : list string) :
  accepts (validateCategory category existing)
  = negb (negb (truthy category) || (String.length (trim category) =? 0)%nat)
    && negb (15 <? String.length category)%nat
    && name_regex category
    && negb (existsb (String.eqb category) existing).
Proof.
  unfold validateCategory, CATEGORY_MAX_LENGTH.
  destruct (negb (truthy category) || (String.length (trim category) =? 0)%nat).
  - reflexivity.
  - rewrite !accepts_push_if. rewrite negb_involutive. reflexivity.
Qed.

Lemma income_duplicates_are_exact (category : string) (existing : list string) :
  accepts (validateCategory category existing)
  = accepts (validateCategory category [])
    && negb (existsb (String.eqb category) existing).
Proof.
  rewrite !income_validateCategory_accepts. simpl existsb.
  now rewrite andb_true_r.
Qed.

Lemma income_rejects_duplicate (category : string) (existing : list string) :
  In category existing -> accepts (validateCategory category existing) = false.
Proof.
  intros H. rewrite income_validateCategory_accepts.
  apply existsb_eqb_In in H. rewrite H. apply andb_false_r.
Qed.

Lemma income_rejects_long (category : string) (existing : list string) :
  (15 < String.length category)%nat ->
  accepts (validateCategory category existing) = false.
Proof.
  intros H. apply Nat.ltb_lt in H. rewrite income_validateCategory_accepts, H.
  simpl. now rewrite andb_false_r.
Qed.

Lemma income_rejects_outside_class (category : string) (existing : list string) :
  JSString.forallb name_char category = false ->
  accepts (validateCategory category existing) = false.
Proof.
  intros H. rewrite income_validateCategory_accepts.
  unfold name_regex. rewrite H. now rewrite !andb_false_r.
Qed.

Lemma income_rejects_whitespace (category : string) (existing : list string) :
  JSString.forallb is_whitespace category = true ->
  accepts (validateCategory category existing) = false.
Proof.
  intros H. rewrite income_validateCategory_accepts.
  rewrite (trim_whitespace category H). simpl String.length. simpl Nat.eqb.
  now rewrite orb_true_r.
Qed.

(** A name that differs from an existing one in letter case only is
    accepted by both validators. *)
Lemma other_case_accepted :
  case_variant "food" "Food" /\
  validateCategoryName "food" ["Food"] = valid /\
  validateCategory "food" ["Food"] = [].
Proof. repeat split. Qed.

(** C5.  Both validators accept the three-character name a, TAB, b: the
    class [\s] of the regular expression admits every white-space
    character, not the space alone.  The tab is neither a letter nor a
    digit nor a space. *)
Theorem name_with_tab_passes_validation :
  JSString.forallb letter_digit_space a_tab_b = false /\
  validateCategoryName a_tab_b [] = valid /\
  validateCategory a_tab_b [] = [].
Proof. repeat split. Qed.

End CategoryNameProofs.

(* ================================================================== *)
(** * Deleting a category *)
(* ================================================================== *)

Module CategoryProofs.

Import Store UseCategories Examples.
Local Open Scope string_scope.

Lemma remote_call_keeps_records (w w' : World) (r : Result unit) :
  remote_call w = (r, w') ->
  fs_expenses w' = fs_expenses w /\ fs_incomes w' = fs_incomes w.
Proof.
  unfold remote_call.
  destruct (remote_faults w) as [| [err |] rest]; intros E;
    inversion E; subst; split; reflexivity.
Qed.

(** Whatever the outcome, [deleteCategory] leaves every expense and every
    income as it was. *)
Lemma deleteCategory_keeps_records
      (st : HookState) (categoryId : string) (w w' : World)
      (r : Result (bool * HookState)) :
  deleteCategory st categoryId w = (r, w') ->
  fs_expenses w' = fs_expenses w /\ fs_incomes w' = fs_incomes w.
Proof.
  unfold deleteCategory.
  destruct (find (is_category categoryId) (categories st)) as [c |].
  - destruct (Category.isDefault c).
    + intros E; inversion E; subst; split; reflexivity.
    + unfold bind, try_catch, CategoryService.deleteCategory,
        deleteCategoryDoc, bind, modify, ret.
      destruct (remote_call w) as [[[] | err] w1] eqn:Hr;
        apply remote_call_keeps_records in Hr;
        intros E; inversion E; subst; simpl; exact Hr.
  - intros E; inversion E; subst; split; reflexivity.
Qed.

(** C6.  Deleting the custom category "Travel" succeeds and removes the
    category, but the expense and the income that refer to it are not
    reassigned to "Other": they still name "Travel". *)
Theorem deleted_category_still_referenced :
  let r := deleteCategory categories_screen (Category.id travel) calm_world in
  fst r = Ok (true, {| categories := [other]; isDeleting := None;
                       error := None |}) /\
  fs_categories (snd r) = [other] /\
  fs_expenses (snd r) = [train_ticket] /\
  fs_incomes (snd r) = [refund] /\
  expense_refers (Category.name travel) train_ticket = true /\
  income_refers (Category.name travel) refund = true.
Proof. vm_compute. repeat split. Qed.

End CategoryProofs.

(* ================================================================== *)
(** * The pending-sync queue *)
(* ================================================================== *)

Module QueueProofs.

Import Store ExpenseStorageService StoreSpec Examples.

(** ** Replacing an entry *)

Lemma put_expense_nil (e : Expense.t) : put_expense e [] = [e].
Proof. reflexivity. Qed.

Lemma put_expense_cons (e x : Expense.t) (l : list Expense.t) :
  put_expense e (x :: l)
  = if has_id (Expense.id e) x then e :: l else x :: put_expense e l.
Proof.
  unfold put_expense; simpl.
  destruct (has_id (Expense.id e) x); [reflexivity |].
  destruct (findIndex (has_id (Expense.id e)) l); reflexivity.
Qed.

Lemma has_id_true (i : string) (x : Expense.t) :
  has_id i x = true <-> Expense.id x = i.
Proof. unfold has_id. apply String.eqb_eq. Qed.

Lemma has_id_self (e : Expense.t) : has_id (Expense.id e) e = true.
Proof. now apply has_id_true. Qed.

Lemma put_expense_In (e : Expense.t) (l : list Expense.t) :
  In e (put_expense e l).
Proof.
  induction l as [| x l IH].
  - now left.
  - rewrite put_expense_cons.
    destruct (has_id (Expense.id e) x); [now left | now right].
Qed.






(** A replaced entry does not lengthen the queue. *)
Lemma put_expense_length (e : Expense.t) (l : list Expense.t) :
  List.length (put_expense e l)
  = if existsb (has_id (Expense.id e)) l
    then List.length l else S (List.length l).
Proof.
  induction l as [| x l IH]; [reflexivity |].
  rewrite put_expense_cons. simpl existsb.
  destruct (has_id (Expense.id e) x); simpl; [reflexivity |].
  rewrite IH. now destruct (existsb (has_id (Expense.id e)) l).
Qed.




Lemma filter_NoDup_ids (p : Expense.t -> bool) (l : list Expense.t) :
  NoDup (map Expense.id l) -> NoDup (map Expense.id (filter p l)).
Proof.
  induction l as [| x l IH]; intros Hnd; simpl; [constructor |].
  inversion Hnd as [| ? ? Hx Hl]; subst.
  destruct (p x); simpl; [| now apply IH].
  constructor; [| now apply IH].
  intros Hin. apply Hx. apply in_map_iff in Hin.
  destruct Hin as (y & Hy & Hin). apply filter_In in Hin.
  rewrite <- Hy. apply in_map. tauto.
Qed.

(** ** The local store when it works *)

Lemma local_call_ok (w : World) :
  local_faults w = [] -> local_call w = (Ok tt, w).
Proof. intros H. unfold local_call. now rewrite H. Qed.

Lemma getPendingSyncExpenses_ok (w : World) :
  local_faults w = [] ->
  getPendingSyncExpenses w = (Ok (pending_list w), w).
Proof.
  intros H. unfold getPendingSyncExpenses, try_catch, bind, gets.
  rewrite (local_call_ok w H). unfold pending_list.
  destruct (pending_sync_expenses w); reflexivity.
Qed.

Lemma addPendingSyncExpense_ok (e : Expense.t) (w : World) :
  local_faults w = [] ->
  addPendingSyncExpense e w
  = (Ok tt, set_pending_sync_expenses (Some (put_expense e (pending_list w))) w).
Proof.
  intros H. unfold addPendingSyncExpense, try_catch, bind.
  rewrite (getPendingSyncExpenses_ok w H), (local_call_ok w H). reflexivity.
Qed.

Lemma removePendingSyncExpense_ok (i : string) (w : World) :
  local_faults w = [] ->
  removePendingSyncExpense i w
  = (Ok tt,
     set_pending_sync_expenses
       (Some (filter (fun x => negb (has_id i x)) (pending_list w))) w).
Proof.
  intros H. unfold removePendingSyncExpense, try_catch, bind.
  rewrite (getPendingSyncExpenses_ok w H), (local_call_ok w H). reflexivity.
Qed.

Lemma cacheExpenseLocally_ok (e : Expense.t) (w : World) :
  local_faults w = [] ->
  exists w', cacheExpenseLocally e w = (Ok tt, w') /\
             local_faults w' = [] /\
             pending_sync_expenses w' = pending_sync_expenses w /\
             remote_faults w' = remote_faults w /\
             fs_expenses w' = fs_expenses w.
Proof.
  intros H.
  unfold cacheExpenseLocally, getCachedExpenses, cacheExpenses, try_catch,
    bind, gets, modify.
  rewrite (local_call_ok w H).
  destruct (cached_expenses w) as [[data stamp] |]; unfold ret;
    rewrite (local_call_ok w H); eexists; (split; [reflexivity |]);
    simpl; auto.
Qed.


(** ** The remote operations *)



Lemma pending_list_eq (w w1 : World) :
  pending_sync_expenses w1 = pending_sync_expenses w ->
  pending_list w1 = pending_list w.
Proof. unfold pending_list. now intros ->. Qed.




(** ** Synchronisation *)

Lemma setDoc_outcome (e : Expense.t) (w : World) :
  match remote_faults w with
  | Some err :: rest => setDoc e w = (Throw err, set_remote_faults rest w)
  | faults =>
      setDoc e w
      = (Ok tt,
         set_fs_expenses (put_expense e (fs_expenses w))
                         (match faults with
                          | [] => w
                          | _ :: rest => set_remote_faults rest w
                          end))
  end.
Proof.
  unfold setDoc, bind, remote_call, modify.
  destruct (remote_faults w) as [| [err |] rest]; reflexivity.
Qed.

(** A save that succeeds has written the document. *)
Lemma save_success_stored (e : Expense.t) (w w' : World) :
  local_faults w = [] ->
  saveExpenseToFirestore e w = (Ok tt, w') ->
  In e (fs_expenses w').
Proof.
  intros Hl. unfold saveExpenseToFirestore, try_catch. unfold bind at 1.
  pose proof (setDoc_outcome e w) as Hs.
  destruct (remote_faults w) as [| [err |] rest].
  - rewrite Hs.
    destruct (cacheExpenseLocally_ok e
                (set_fs_expenses (put_expense e (fs_expenses w)) w) Hl)
      as (w2 & E & _ & _ & _ & Hfs).
    rewrite E. intros H; inversion H; subst.
    rewrite Hfs. simpl. apply put_expense_In.
  - rewrite Hs. unfold bind.
    rewrite (addPendingSyncExpense_ok e (set_remote_faults rest w) Hl).
    discriminate.
  - rewrite Hs.
    destruct (cacheExpenseLocally_ok e
                (set_fs_expenses (put_expense e (fs_expenses w))
                                 (set_remote_faults rest w)) Hl)
      as (w2 & E & _ & _ & _ & Hfs).
    rewrite E. intros H; inversion H; subst.
    rewrite Hfs. simpl. apply put_expense_In.
Qed.


(** One turn of the loop on an entry whose save succeeds: the document is
    written and the entries of that [id] leave the queue. *)
Lemma sync_one_success (e : Expense.t) (w : World) :
  local_faults w = [] ->
  (remote_faults w = [] \/ exists rest, remote_faults w = None :: rest) ->
  exists w', sync_one e w = (Ok tt, w') /\
             local_faults w' = [] /\
             remote_faults w' = tl (remote_faults w) /\
             pending_list w'
             = filter (fun x => negb (has_id (Expense.id e) x)) (pending_list w) /\
             fs_expenses w' = put_expense e (fs_expenses w).
Proof.
  intros Hl Hr.
  pose proof (setDoc_outcome e w) as Hs.
  assert (exists w1, setDoc e w = (Ok tt, w1) /\ local_faults w1 = [] /\
                     remote_faults w1 = tl (remote_faults w) /\
                     pending_sync_expenses w1 = pending_sync_expenses w /\
                     fs_expenses w1 = put_expense e (fs_expenses w))
    as (w1 & Hs1 & Hl1 & Hr1 & Hp1 & Hf1).
  { destruct Hr as [Hr | [rest Hr]]; rewrite Hr in Hs |- *;
      eexists; (split; [exact Hs |]); simpl; auto. }
  destruct (cacheExpenseLocally_ok e w1 Hl1) as (w2 & Hc & Hl2 & Hp2 & Hr2 & Hf2).
  unfold sync_one, try_catch, saveExpenseToFirestore, try_catch.
  unfold bind at 1. unfold bind at 1. rewrite Hs1, Hc.
  rewrite (removePendingSyncExpense_ok (Expense.id e) w2 Hl2).
  eexists. split; [reflexivity |]. simpl.
  repeat split; try congruence.
  unfold pending_list at 1. simpl.
  now rewrite (pending_list_eq w1 w2 Hp2), (pending_list_eq w w1 Hp1).
Qed.







(** ** The claim *)




(** What happens there: the error of the queue replaces the error of the
    network, and the queue stays empty. *)
Remark broken_world_run :
  let r := saveExpenseToFirestore groceries broken_world in
  fst r = Throw (new_Error "Failed to add pending sync expense") /\
  pending_list (snd r) = [] /\
  fs_expenses (snd r) = fs_expenses broken_world.
Proof. vm_compute. repeat split. Qed.

End QueueProofs.

(* ================================================================== *)
(** * A search in capitals *)
(* ================================================================== *)

Module SearchExample.

Import JSString JSDate Transaction TransactionSpec Examples.
Local Open Scope string_scope.


End SearchExample.

(* ================================================================== *)
(** * Labels and descriptions *)
(* ================================================================== *)

Module TextFieldProofs.

Import JSString JSSplit.
Local Open Scope string_scope.

(** ** What [trim] leaves *)

Lemma trimStart_cases (s : string) :
  (trimStart s = "" /\ JSString.forallb is_whitespace s = true) \/
  (exists c r, trimStart s = String c r /\ is_whitespace c = false /\
               JSString.forallb is_whitespace s = false).
Proof.
  induction s as [| c s IH]; simpl.
  - now left.
  - destruct (is_whitespace c) eqn:E; simpl.
    + exact IH.
    + right. exists c, s. auto.
Qed.

Lemma trimEnd_keeps_head (c : ascii) (r : string) :
  is_whitespace c = false -> exists r', trimEnd (String c r) = String c r'.
Proof.
  intros E. simpl. destruct (trimEnd r) as [| d r'].
  - rewrite E. now exists "".
  - now exists (String d r').
Qed.

Lemma trim_blank (s : string) :
  (String.length (trim s) =? 0)%nat = JSString.forallb is_whitespace s.
Proof.
  unfold trim. destruct (trimStart_cases s) as [[E A] | (c & r & E & Hc & A)];
    rewrite E, A.
  - reflexivity.
  - destruct (trimEnd_keeps_head c r Hc) as [r' E']. now rewrite E'.
Qed.

(** [!s || s.trim().length === 0]: the text is blank. *)
Lemma blank_test (s : string) :
  negb (truthy s) || (String.length (trim s) =? 0)%nat = negb (has_visible s).
Proof.
  rewrite trim_blank. unfold has_visible. rewrite negb_involutive.
  destruct s; simpl; [reflexivity |].
  reflexivity.
Qed.

Lemma trimEnd_idem (s : string) : trimEnd (trimEnd s) = trimEnd s.
Proof.
  induction s as [| c s IH]; simpl; [reflexivity |].
  destruct (trimEnd s) as [| d r] eqn:E.
  - destruct (is_whitespace c) eqn:Hc; simpl; [reflexivity |].
    now rewrite Hc.
  - simpl in *. rewrite IH. reflexivity.
Qed.

(** ** Words *)

Lemma count_words_cons (c : ascii) (x y : string) :
  (forall b, count_words_from b x = count_words_from b y) ->
  forall b, count_words_from b (String c x) = count_words_from b (String c y).
Proof. intros H b. simpl. destruct (is_whitespace c); now rewrite H. Qed.

Lemma count_words_trimEnd (s : string) :
  forall b, count_words_from b (trimEnd s) = count_words_from b s.
Proof.
  induction s as [| c s IH]; intros b; [reflexivity |].
  simpl trimEnd. destruct (trimEnd s) as [| d r] eqn:E.
  - pose proof (IH true) as Ht. pose proof (IH false) as Hf.
    simpl in Ht, Hf. simpl.
    destruct (is_whitespace c) eqn:Hc; simpl.
    + now rewrite <- Ht.
    + rewrite Hc, <- Hf. reflexivity.
  - now apply count_words_cons.
Qed.

Lemma count_words_trimStart (s : string) :
  count_words_from true (trimStart s) = count_words_from true s.
Proof.
  induction s as [| c s IH]; simpl; [reflexivity |].
  destruct (is_whitespace c) eqn:Hc; [exact IH |].
  simpl. now rewrite Hc.
Qed.

Lemma count_words_trim (s : string) : count_words (trim s) = count_words s.
Proof.
  unfold count_words, trim.
  now rewrite count_words_trimEnd, count_words_trimStart.
Qed.

Lemma split_ws_not_nil (b : bool) (s : string) : split_ws b s <> [].
Proof.
  revert b. induction s as [| c s IH]; intros b; simpl; [discriminate |].
  destruct (is_whitespace c).
  - destruct b; [apply IH | discriminate].
  - unfold cons_head. destruct (split_ws false s); discriminate.
Qed.

Lemma visible_cons_head (c : ascii) (pieces : list string) :
  pieces <> [] ->
  visible_pieces (cons_head c pieces) = S (visible_pieces (tl pieces)).
Proof.
  destruct pieces as [| p ps]; [contradiction |]. intros _. reflexivity.
Qed.

Lemma tl_cons_head (c : ascii) (pieces : list string) :
  pieces <> [] -> tl (cons_head c pieces) = tl pieces.
Proof. destruct pieces; [contradiction | reflexivity]. Qed.

(** The pieces that are not empty are the words: after a run of white
    space, and after a piece has been opened. *)
Lemma visible_pieces_words (s : string) :
  visible_pieces (split_ws true s) = count_words_from true s /\
  visible_pieces (tl (split_ws false s)) = count_words_from false s.
Proof.
  induction s as [| c s [IH1 IH2]]; simpl; [split; reflexivity |].
  pose proof (split_ws_not_nil false s) as Hn.
  destruct (is_whitespace c); simpl.
  - split; assumption.
  - rewrite (visible_cons_head c _ Hn), (tl_cons_head c _ Hn), IH2.
    split; reflexivity.
Qed.

Lemma visible_pieces_count (s : string) :
  visible_pieces (split_whitespace s) = count_words s.
Proof.
  unfold split_whitespace, count_words.
  destruct s as [| c s]; [reflexivity |]. simpl.
  destruct (is_whitespace c).
  - change (visible_pieces (split_ws true s) = count_words_from true s).
    apply visible_pieces_words.
  - rewrite (visible_cons_head c _ (split_ws_not_nil false s)).
    now rewrite (proj2 (visible_pieces_words s)).
Qed.

Lemma forallb_cons_head (c : ascii) (pieces : list string) :
  pieces <> [] ->
  List.forallb nonempty (cons_head c pieces) = List.forallb nonempty (tl pieces).
Proof. destruct pieces; [contradiction | reflexivity]. Qed.

(** A text without white space at its end splits into pieces none of
    which is empty, the first one apart. *)
Lemma pieces_of_trimmed (s : string) :
  trimEnd s = s -> s <> "" ->
  List.forallb nonempty (split_ws true s) = true /\
  List.forallb nonempty (tl (split_ws false s)) = true.
Proof.
  induction s as [| c s IH]; intros Ht Hne; [contradiction |].
  pose proof (split_ws_not_nil false s) as Hn.
  simpl in Ht. destruct (trimEnd s) as [| d r] eqn:E.
  - destruct (is_whitespace c) eqn:Hc; [discriminate |].
    injection Ht as Hs. subst s. simpl. rewrite Hc. split; reflexivity.
  - injection Ht as Hs.
    assert (Hs' : s <> "") by (rewrite <- Hs; discriminate).
    destruct (IH Hs Hs') as [IH1 IH2].
    simpl split_ws. destruct (is_whitespace c).
    + split; assumption.
    + rewrite (forallb_cons_head c _ Hn), (tl_cons_head c _ Hn). auto.
Qed.

Lemma trim_head_visible (s : string) (c : ascii) (r : string) :
  trim s = String c r -> is_whitespace c = false.
Proof.
  unfold trim.
  destruct (trimStart_cases s) as [[E _] | (d & r' & E & Hd & _)]; rewrite E.
  - discriminate.
  - destruct (trimEnd_keeps_head d r' Hd) as [r'' E']. rewrite E'.
    intros H. injection H as Hc _. now subst.
Qed.

(** A trimmed text that is not empty splits into its words: no piece is
    empty. *)
Lemma trimmed_pieces_are_words (s : string) :
  trim s <> "" ->
  List.length (split_whitespace (trim s)) = count_words s.
Proof.
  intros Hne. rewrite <- count_words_trim, <- visible_pieces_count.
  unfold visible_pieces.
  assert (Ht : trimEnd (trim s) = trim s) by (unfold trim; apply trimEnd_idem).
  destruct (trim s) as [| c r] eqn:E; [contradiction |].
  pose proof (trim_head_visible s c r E) as Hc.
  destruct (pieces_of_trimmed (String c r) Ht Hne) as [_ H2].
  unfold split_whitespace in *. simpl in *. rewrite Hc in *.
  pose proof (split_ws_not_nil false r) as Hn.
  rewrite (tl_cons_head c _ Hn) in H2.
  destruct (split_ws false r) as [| p ps]; [contradiction |].
  simpl in *. f_equal.
  clear - H2. induction ps as [| q ps IH]; simpl in *; [reflexivity |].
  apply andb_true_iff in H2. destruct H2 as [Hq Hps].
  rewrite Hq. simpl. f_equal. now apply IH.
Qed.

(** ** The verdicts *)

Lemma leb_ltb (n m : nat) : (n <=? m)%nat = negb (m <? n)%nat.
Proof.
  destruct (Nat.leb_spec n m), (Nat.ltb_spec m n); try reflexivity; lia.
Qed.

(** X1.  Both validators accept a label exactly when it has a character
    that is not white space and is at most 26 characters long, white
    space at its ends counted. *)
Theorem label_accepted_iff (label : string) :
  ExpenseValidation.isValid (ExpenseFormValidation.validateLabel label)
  = has_visible label && (String.length label <=? 26)%nat /\
  IncomeValidation.accepts (IncomeFormValidation.validateLabel label)
  = has_visible label && (String.length label <=? 26)%nat.
Proof.
  unfold ExpenseFormValidation.validateLabel, IncomeFormValidation.validateLabel,
    IncomeFormValidation.LABEL_MAX_LENGTH.
  rewrite blank_test, leb_ltb.
  destruct (has_visible label); simpl; [| split; reflexivity].
  destruct (26 <? String.length label)%nat; split; reflexivity.
Qed.

Lemma truthy_trim_words (text : string) :
  truthy (trim text) = false -> count_words text = 0.
Proof.
  intros H. rewrite <- count_words_trim.
  destruct (trim text); [reflexivity | discriminate].
Qed.

(** X2.  Both validators accept a description exactly when it has at most
    50 words, a word being a maximal run of characters that are not white
    space; an absent, empty or blank description has none. *)
Theorem description_accepted_iff (description : option string) :
  let words :=
    match description with Some text => count_words text | None => 0 end in
  ExpenseValidation.isValid
    (ExpenseFormValidation.validateDescription description)
  = (words <=? 50)%nat /\
  IncomeValidation.accepts
    (IncomeFormValidation.validateDescription description)
  = (words <=? 50)%nat.
Proof.
  destruct description as [text |]; simpl; [| split; reflexivity].
  rewrite leb_ltb. split.
  - destruct text as [| c r]; [reflexivity |]. simpl truthy. simpl negb.
    cbv iota.
    unfold ExpenseFormValidation.wordCount.
    fold (visible_pieces (split_whitespace (trim (String c r)))).
    rewrite visible_pieces_count, count_words_trim.
    now destruct (50 <? count_words (String c r))%nat.
  - destruct (truthy text) eqn:Ht; simpl.
    + destruct (truthy (trim text)) eqn:Htt.
      * rewrite trimmed_pieces_are_words
          by (intros E; rewrite E in Htt; discriminate).
        unfold IncomeFormValidation.DESCRIPTION_MAX_WORDS.
        now destruct (50 <? count_words text)%nat.
      * now rewrite (truthy_trim_words text Htt).
    + destruct text; [reflexivity | discriminate].
Qed.

End TextFieldProofs.

(* ================================================================== *)
(** * Dates *)
(* ================================================================== *)

Module DateFieldProofs.

Import JSString JSDate CalendarSpec.
Local Open Scope Z_scope.









End DateFieldProofs.


(* ================================================================== *)
(** * Files, and the validators of a whole record *)
(* ================================================================== *)

Module RecordValidationProofs.

Import JSString JSSplit JSNumber JSDate.
Import IncomeValidation IncomeFormValidation FormSpec.
Local Open Scope string_scope.

(** ** Attached files *)

Lemma receipt_verdict (file : FileInfo) :
  ExpenseValidation.isValid
    (ExpenseFormValidation.validateReceiptFile (as_receipt file))
  = negb (MAX_FILE_SIZE <? file_size file)%Z
    && existsb (String.eqb (file_type file)) ALLOWED_FILE_FORMATS.
Proof.
  unfold ExpenseFormValidation.validateReceiptFile, as_receipt.
  cbn [ExpenseFormValidation.file_size ExpenseFormValidation.file_type].
  change ExpenseFormValidation.maxSize with MAX_FILE_SIZE.
  change ExpenseFormValidation.allowedTypes with ALLOWED_FILE_FORMATS.
  destruct (MAX_FILE_SIZE <? file_size file)%Z; [reflexivity |].
  destruct (existsb (String.eqb (file_type file)) ALLOWED_FILE_FORMATS);
    reflexivity.
Qed.

Lemma forEach_document_accepts (documents : list FileInfo) :
  forall (index : nat) (errors : list IncomeValidationError),
    accepts (forEach_document documents index errors)
    = accepts errors
      && List.forallb
           (fun file =>
              ExpenseValidation.isValid
                (ExpenseFormValidation.validateReceiptFile (as_receipt file)))
           documents.
Proof.
  induction documents as [| file rest IH]; intros index errors; simpl.
  - now rewrite andb_true_r.
  - rewrite IH. unfold check_document.
    rewrite !CategoryNameProofs.accepts_push_if, receipt_verdict.
    rewrite negb_involutive. now rewrite <- !andb_assoc.
Qed.

(** X4.  The supporting documents of an income raise no error exactly
    when each of them would pass as the receipt of an expense: at most
    10 MB, the limit included, and of one of the four allowed types.  No
    document at all is in order. *)
Theorem documents_accepted_iff (documents : option (list FileInfo)) :
  accepts (validateSupportingDocuments documents)
  = List.forallb
      (fun file =>
         ExpenseValidation.isValid
           (ExpenseFormValidation.validateReceiptFile (as_receipt file)))
      (documents_of documents) /\
  (forall file,
      ExpenseValidation.isValid
        (ExpenseFormValidation.validateReceiptFile (as_receipt file)) = true <->
      (file_size file <= 10485760)%Z /\ In (file_type file) ALLOWED_FILE_FORMATS).
Proof.
  split.
  - destruct documents as [[| file rest] |]; try reflexivity.
    unfold validateSupportingDocuments, documents_of.
    now rewrite forEach_document_accepts.
  - intros file. rewrite receipt_verdict, andb_true_iff, negb_true_iff,
      Z.ltb_ge, existsb_exists.
    unfold MAX_FILE_SIZE. split.
    + intros [Hs (x & Hin & Hx)]. apply String.eqb_eq in Hx. subst x.
      split; [lia | assumption].
    + intros [Hs Hin]. split; [lia |].
      exists (file_type file). split; [assumption | apply String.eqb_refl].
Qed.

(** ** The expense form *)


(** ** The income record *)

Lemma accepts_app (l1 l2 : list IncomeValidationError) :
  accepts (l1 ++ l2) = accepts l1 && accepts l2.
Proof. destruct l1; reflexivity. Qed.

Lemma getFieldError_app (l1 l2 : list IncomeValidationError) (f : string) :
  getFieldError (l1 ++ l2) f
  = match getFieldError l1 f with
    | Some m => Some m
    | None => getFieldError l2 f
    end.
Proof.
  unfold getFieldError. induction l1 as [| e l1 IH]; simpl; [reflexivity |].
  destruct (field e =? f); [reflexivity | exact IH].
Qed.

Lemma getFieldError_all_on (l : list IncomeValidationError) (f : string) :
  all_on f l = true -> getFieldError l f = first_message l.
Proof.
  unfold getFieldError. destruct l as [| e l]; simpl; [reflexivity |].
  intros H. apply andb_true_iff in H. destruct H as [H _]. now rewrite H.
Qed.

Lemma getFieldError_none_on (l : list IncomeValidationError) (f : string) :
  none_on f l = true -> getFieldError l f = None.
Proof.
  unfold getFieldError. induction l as [| e l IH]; simpl; [reflexivity |].
  intros H. apply andb_true_iff in H. destruct H as [H1 H2].
  apply negb_true_iff in H1. rewrite H1. now apply IH.
Qed.

(** The errors of one validator, between the errors of others. *)
Lemma getFieldError_between
      (before own after : list IncomeValidationError) (f : string) :
  none_on f before = true -> all_on f own = true -> none_on f after = true ->
  getFieldError (before ++ own ++ after) f = first_message own.
Proof.
  intros Hb Ho Ha.
  rewrite !getFieldError_app, (getFieldError_none_on before f Hb),
    (getFieldError_all_on own f Ho), (getFieldError_none_on after f Ha).
  now destruct own.
Qed.

Lemma none_on_app (f : string) (l1 l2 : list IncomeValidationError) :
  none_on f (l1 ++ l2) = none_on f l1 && none_on f l2.
Proof. unfold none_on. apply forallb_app. Qed.

Lemma other_field (f g : string) (l : list IncomeValidationError) :
  (g =? f) = false -> all_on g l = true -> none_on f l = true.
Proof.
  intros Hne. unfold all_on, none_on.
  induction l as [| e l IH]; simpl; [reflexivity |].
  intros H. apply andb_true_iff in H. destruct H as [H1 H2].
  apply String.eqb_eq in H1. rewrite H1, Hne. simpl. now apply IH.
Qed.

Lemma amount_errors_field (parseFloat : string -> number) (a : AmountInput) :
  all_on "amount" (validateAmount parseFloat a) = true.
Proof.
  unfold validateAmount, push_if.
  destruct (amount_missing a); [reflexivity |].
  match goal with |- context [isNaN ?x || le_zero ?x] =>
    destruct (isNaN x || le_zero x) end;
  match goal with |- context [(?n <? ?m)%nat] => destruct (n <? m)%nat end;
  reflexivity.
Qed.

Lemma label_errors_field (l : string) : all_on "label" (validateLabel l) = true.
Proof.
  unfold validateLabel.
  destruct (negb (truthy l) || (String.length (trim l) =? 0)%nat);
    [reflexivity |].
  now destruct (LABEL_MAX_LENGTH <? String.length l)%nat.
Qed.

Lemma description_errors_field (d : option string) :
  all_on "description" (validateDescription d) = true.
Proof.
  unfold validateDescription, push_if. destruct d as [text |]; [| reflexivity].
  destruct (truthy text && truthy (trim text)); [| reflexivity].
  match goal with |- context [(?n <? ?m)%nat] => destruct (n <? m)%nat end;
  reflexivity.
Qed.

Lemma category_errors_field (c : string) (existing : list string) :
  all_on "category" (validateCategory c existing) = true.
Proof.
  unfold validateCategory, push_if.
  destruct (negb (truthy c) || (String.length (trim c) =? 0)%nat);
    [reflexivity |].
  destruct (CATEGORY_MAX_LENGTH <? String.length c)%nat;
    destruct (negb (ExpenseValidation.name_regex c));
    destruct (existsb (String.eqb c) existing); reflexivity.
Qed.

Lemma date_errors_field {D : DateAPI} (d : string) :
  all_on "date" (validateDate d) = true.
Proof.
  unfold validateDate, push_if.
  destruct (negb (truthy d)); [reflexivity |].
  destruct (getTime d) as [t |]; [| reflexivity].
  destruct (getTime MIN_DATE) as [m |]; [| reflexivity].
  now destruct (t <? m)%Z.
Qed.

Lemma document_field_other (index : nat) (f : string) :
  In f ["amount"; "label"; "description"; "category"; "date"] ->
  (document_field index =? f) = false.
Proof.
  unfold document_field.
  intros [H | [H | [H | [H | [H | []]]]]]; subst f; reflexivity.
Qed.

Lemma none_on_snoc (f : string) (errors : list IncomeValidationError)
      (e : IncomeValidationError) :
  none_on f errors = true -> (field e =? f) = false ->
  none_on f (errors ++ [e]) = true.
Proof.
  intros He Hf. rewrite none_on_app, He. unfold none_on. cbn [List.forallb].
  now rewrite Hf.
Qed.

Lemma check_document_field (f : string) (errors : list IncomeValidationError)
      (file : FileInfo) (index : nat) :
  In f ["amount"; "label"; "description"; "category"; "date"] ->
  none_on f errors = true ->
  none_on f (check_document errors file index) = true.
Proof.
  intros Hf He. pose proof (document_field_other index f Hf) as Hd.
  unfold check_document, push_if.
  destruct (MAX_FILE_SIZE <? file_size file)%Z;
    destruct (negb (existsb (String.eqb (file_type file)) ALLOWED_FILE_FORMATS));
    repeat apply none_on_snoc; assumption.
Qed.

Lemma document_errors_field (f : string) (documents : list FileInfo) :
  In f ["amount"; "label"; "description"; "category"; "date"] ->
  forall index errors,
    none_on f errors = true ->
    none_on f (forEach_document documents index errors) = true.
Proof.
  intros Hf. induction documents as [| file rest IH]; intros index errors He;
    cbn [forEach_document]; [assumption |].
  apply IH. now apply check_document_field.
Qed.

Lemma documents_no_field (f : string) (documents : option (list FileInfo)) :
  In f ["amount"; "label"; "description"; "category"; "date"] ->
  none_on f (validateSupportingDocuments documents) = true.
Proof.
  intros Hf. destruct documents as [[| file rest] |]; try reflexivity.
  now apply document_errors_field.
Qed.

Ltac field_in := cbn [In]; repeat (first [left; reflexivity | right]).

Section IncomeRecord.
Context {D : DateAPI}.
Variable parseFloat : string -> number.
Variable incomeData : IncomeInput.
Variable existingCategories : list string.

Let result := validateIncome parseFloat incomeData existingCategories.
Let byAmount := validateAmount parseFloat (amount incomeData).
Let byLabel := validateLabel (label incomeData).
Let byDescription := validateDescription (description incomeData).
Let byCategory := validateCategory (category incomeData) existingCategories.
Let byDate := validateDate (date incomeData).
Let byDocuments := validateSupportingDocuments (supportingDocuments incomeData).

Lemma income_errors_in_order :
  errors result
  = (byAmount ++ byLabel ++ byDescription ++ byCategory ++ byDate
     ++ byDocuments)%list.
Proof. reflexivity. Qed.

Lemma income_valid_iff_all_accept :
  isValid result
  = accepts byAmount && accepts byLabel && accepts byDescription
    && accepts byCategory && accepts byDate && accepts byDocuments.
Proof.
  change (isValid result) with (accepts (errors result)).
  rewrite income_errors_in_order. now rewrite !accepts_app, !andb_assoc.
Qed.

Lemma income_category_error :
  getFieldError (errors result) "category" = first_message byCategory.
Proof.
  rewrite income_errors_in_order.
  rewrite !getFieldError_app,
    (getFieldError_none_on byAmount "category"
       (other_field "category" "amount" byAmount eq_refl
          (amount_errors_field parseFloat (amount incomeData)))),
    (getFieldError_none_on byLabel "category"
       (other_field "category" "label" byLabel eq_refl
          (label_errors_field (label incomeData)))),
    (getFieldError_none_on byDescription "category"
       (other_field "category" "description" byDescription eq_refl
          (description_errors_field (description incomeData)))).
  rewrite <- !getFieldError_app.
  apply (getFieldError_between [] byCategory);
    [reflexivity | apply category_errors_field |].
  rewrite !none_on_app,
    (other_field "category" "date" byDate eq_refl
       (date_errors_field (date incomeData))).
  apply documents_no_field. field_in.
Qed.

(** X6.  [validateIncome] is valid exactly when each of the six validators
    returns no error, and [getFieldError] on its error list gives, for
    each of the five scalar fields, the first message of that field's own
    validator: the other validators and the supporting documents never
    write on it. *)
Theorem income_errors_by_field :
  isValid result
  = accepts byAmount && accepts byLabel && accepts byDescription
    && accepts byCategory && accepts byDate && accepts byDocuments /\
  getFieldError (errors result) "amount" = first_message byAmount /\
  getFieldError (errors result) "label" = first_message byLabel /\
  getFieldError (errors result) "description" = first_message byDescription /\
  getFieldError (errors result) "category" = first_message byCategory /\
  getFieldError (errors result) "date" = first_message byDate.
Proof.
  assert (Ha := amount_errors_field parseFloat (amount incomeData)).
  assert (Hl := label_errors_field (label incomeData)).
  assert (Hd := description_errors_field (description incomeData)).
  assert (Hc := category_errors_field (category incomeData) existingCategories).
  assert (Ht := date_errors_field (date incomeData)).
  assert (Hs : forall f,
             In f ["amount"; "label"; "description"; "category"; "date"] ->
             none_on f byDocuments = true)
    by (intros f Hf; now apply documents_no_field).
  fold byAmount in Ha. fold byLabel in Hl. fold byDescription in Hd.
  fold byCategory in Hc. fold byDate in Ht.
  split; [exact income_valid_iff_all_accept |].
  rewrite income_errors_in_order.
  clearbody byAmount byLabel byDescription byCategory byDate byDocuments.
  split.
  { apply (getFieldError_between [] byAmount); [reflexivity | exact Ha |].
    rewrite !none_on_app,
      (other_field "amount" "label" byLabel eq_refl Hl),
      (other_field "amount" "description" byDescription eq_refl Hd),
      (other_field "amount" "category" byCategory eq_refl Hc),
      (other_field "amount" "date" byDate eq_refl Ht).
    apply Hs. field_in. }
  split.
  { rewrite getFieldError_app,
      (getFieldError_none_on byAmount "label"
         (other_field "label" "amount" byAmount eq_refl Ha)).
    apply (getFieldError_between [] byLabel); [reflexivity | exact Hl |].
    rewrite !none_on_app,
      (other_field "label" "description" byDescription eq_refl Hd),
      (other_field "label" "category" byCategory eq_refl Hc),
      (other_field "label" "date" byDate eq_refl Ht).
    apply Hs. field_in. }
  split.
  { rewrite !getFieldError_app,
      (getFieldError_none_on byAmount "description"
         (other_field "description" "amount" byAmount eq_refl Ha)),
      (getFieldError_none_on byLabel "description"
         (other_field "description" "label" byLabel eq_refl Hl)).
    rewrite <- !getFieldError_app.
    apply (getFieldError_between [] byDescription);
      [reflexivity | exact Hd |].
    rewrite !none_on_app,
      (other_field "description" "category" byCategory eq_refl Hc),
      (other_field "description" "date" byDate eq_refl Ht).
    apply Hs. field_in. }
  split.
  { rewrite !getFieldError_app,
      (getFieldError_none_on byAmount "category"
         (other_field "category" "amount" byAmount eq_refl Ha)),
      (getFieldError_none_on byLabel "category"
         (other_field "category" "label" byLabel eq_refl Hl)),
      (getFieldError_none_on byDescription "category"
         (other_field "category" "description" byDescription eq_refl Hd)).
    rewrite <- !getFieldError_app.
    apply (getFieldError_between [] byCategory); [reflexivity | exact Hc |].
    rewrite !none_on_app,
      (other_field "category" "date" byDate eq_refl Ht).
    apply Hs. field_in. }
  { rewrite !getFieldError_app,
      (getFieldError_none_on byAmount "date"
         (other_field "date" "amount" byAmount eq_refl Ha)),
      (getFieldError_none_on byLabel "date"
         (other_field "date" "label" byLabel eq_refl Hl)),
      (getFieldError_none_on byDescription "date"
         (other_field "date" "description" byDescription eq_refl Hd)),
      (getFieldError_none_on byCategory "date"
         (other_field "date" "category" byCategory eq_refl Hc)).
    rewrite <- !getFieldError_app.
    apply (getFieldError_between [] byDate); [reflexivity | exact Ht |].
    apply Hs. field_in. }
Qed.

End IncomeRecord.

(** X7.  [validateIncome] validates the category of a record as a new
    category name: whatever the other fields hold, the record is invalid
    when its category is one of [existingCategories], and when it is
    longer than 15 characters, as the default income categories Business
    Revenue and Investment Returns are; the record of [sound_income] is
    valid with any other category that passes [validateCategory]. *)
Theorem income_category_must_be_new {D : DateAPI}
        (parseFloat : string -> number)
        (incomeData : IncomeInput) (existingCategories : list string) :
  In (category incomeData) existingCategories \/
  (15 < String.length (category incomeData))%nat ->
  isValid (validateIncome parseFloat incomeData existingCategories) = false /\
  getFieldError
    (errors (validateIncome parseFloat incomeData existingCategories)) "category"
  <> None /\
  In "Business Revenue" DEFAULT_INCOME_CATEGORY_NAMES /\
  In "Investment Returns" DEFAULT_INCOME_CATEGORY_NAMES /\
  (15 < String.length "Business Revenue")%nat /\
  (15 < String.length "Investment Returns")%nat.
Proof.
  intros H.
  assert (R : accepts (validateCategory (category incomeData) existingCategories)
              = false).
  { destruct H as [H | H].
    - now apply CategoryNameProofs.income_rejects_duplicate.
    - now apply CategoryNameProofs.income_rejects_long. }
  split; [| split].
  - rewrite income_valid_iff_all_accept, R. now rewrite !andb_false_r.
  - rewrite income_category_error.
    destruct (validateCategory (category incomeData) existingCategories);
      [discriminate R | discriminate].
  - repeat split; try (simpl; lia); field_in.
Qed.

Lemma income_category_must_be_new_witness :
  isValid (validateIncome (D := ISODate 0 0) (fun _ => NaN)
             (sound_income "Business Revenue") []) = false.
Proof.
  apply (income_category_must_be_new (D := ISODate 0 0) (fun _ => NaN)
           (sound_income "Business Revenue") []).
  right. simpl. lia.
Defined.

End RecordValidationProofs.

(* ================================================================== *)
(** * The storage service: deletion, failed reads, synchronisation *)
(* ================================================================== *)

Module StorageProofs.

Import Store ExpenseStorageService ExpenseStorageRest StoreSpec StorageSpec.
Local Open Scope store_scope.

(** ** What a computation leaves alone *)

Section Leaves.
Context {B : Type}.
Variable f : World -> B.

Lemma leaves_ret {A} (a : A) : leaves f (ret a).
Proof. intros w. reflexivity. Qed.

Lemma leaves_throw {A} (e : Error) : leaves f (throw (A := A) e).
Proof. intros w. reflexivity. Qed.

Lemma leaves_gets {A} (g : World -> A) : leaves f (gets g).
Proof. intros w. reflexivity. Qed.

Lemma leaves_modify (g : World -> World) :
  (forall w, f (g w) = f w) -> leaves f (modify g).
Proof. intros H w. apply H. Qed.

Lemma leaves_bind {A C} (m : M A) (k : A -> M C) :
  leaves f m -> (forall a, leaves f (k a)) -> leaves f (bind m k).
Proof.
  intros Hm Hk w. unfold bind. specialize (Hm w).
  destruct (m w) as [[a | e] w1]; simpl in *.
  - now rewrite Hk.
  - exact Hm.
Qed.

Lemma leaves_try_catch {A} (m : M A) (handler : Error -> M A) :
  leaves f m -> (forall e, leaves f (handler e)) -> leaves f (try_catch m handler).
Proof.
  intros Hm Hh w. unfold try_catch. specialize (Hm w).
  destruct (m w) as [[a | e] w1]; simpl in *.
  - exact Hm.
  - now rewrite Hh.
Qed.

Lemma leaves_for_of {A} (xs : list A) (body : A -> M unit) :
  (forall x, leaves f (body x)) -> leaves f (for_of xs body).
Proof.
  intros H. induction xs as [| x xs IH]; simpl.
  - apply leaves_ret.
  - apply leaves_bind; [apply H | intros _; exact IH].
Qed.

Hypothesis f_outside : outside_calls f.

Lemma leaves_local_call : leaves f local_call.
Proof.
  intros w. unfold local_call.
  destruct (local_faults w) as [| [e |] rest]; simpl;
    [reflexivity | apply f_outside | apply f_outside].
Qed.

Lemma leaves_remote_call : leaves f remote_call.
Proof.
  intros w. unfold remote_call.
  destruct (remote_faults w) as [| [e |] rest]; simpl;
    [reflexivity | apply f_outside | apply f_outside].
Qed.

End Leaves.

Ltac frame H :=
  repeat first
    [ apply leaves_ret | apply leaves_throw | apply leaves_gets
    | apply leaves_local_call; exact H
    | apply leaves_remote_call; exact H
    | apply leaves_modify; intros ?; reflexivity
    | apply leaves_bind; [| intros ?]
    | apply leaves_try_catch; [| intros ?]
    | apply leaves_for_of; intros ?
    | match goal with
      | |- leaves _ (match ?x with _ => _ end) => destruct x
      end ].

Lemma sync_mark_outside : outside_calls sync_mark.
Proof. split; reflexivity. Qed.

Lemma queue_outside : outside_calls pending_sync_expenses.
Proof. split; reflexivity. Qed.

Lemma getPendingSyncExpenses_leaves {B} (f : World -> B) :
  outside_calls f -> leaves f getPendingSyncExpenses.
Proof. intros H. unfold getPendingSyncExpenses. frame H. Qed.

Lemma getCachedExpenses_leaves {B} (f : World -> B) :
  outside_calls f -> leaves f getCachedExpenses.
Proof. intros H. unfold getCachedExpenses. frame H. Qed.

Lemma sync_one_mark (e : Expense.t) : leaves sync_mark (sync_one e).
Proof.
  unfold sync_one, saveExpenseToFirestore, removePendingSyncExpense,
    addPendingSyncExpense, cacheExpenseLocally, cacheExpenses, setDoc,
    getCachedExpenses, getPendingSyncExpenses.
  frame sync_mark_outside.
Qed.

(** ** What never throws *)

Lemma try_catch_never_throws {A} (m : M A) (handler : Error -> M A) :
  (forall e, never_throws (handler e)) -> never_throws (try_catch m handler).
Proof.
  intros H w. unfold try_catch. destruct (m w) as [[a | e] w1].
  - now exists a.
  - apply H.
Qed.

Lemma ret_never_throws {A} (a : A) : never_throws (ret a).
Proof. intros w. now exists a. Qed.

Lemma for_of_never_throws {A} (xs : list A) (body : A -> M unit) :
  (forall x, never_throws (body x)) -> never_throws (for_of xs body).
Proof.
  intros H. induction xs as [| x xs IH]; intros w; simpl.
  - now exists tt.
  - unfold bind. destruct (H x w) as [a Ha].
    destruct (body x w) as [r w1]. simpl in Ha. subst r. apply IH.
Qed.

Lemma getPendingSyncExpenses_never_throws : never_throws getPendingSyncExpenses.
Proof. apply try_catch_never_throws. intros e. apply ret_never_throws. Qed.

Lemma getCachedExpenses_never_throws : never_throws getCachedExpenses.
Proof. apply try_catch_never_throws. intros e. apply ret_never_throws. Qed.

Lemma sync_one_never_throws (e : Expense.t) : never_throws (sync_one e).
Proof. apply try_catch_never_throws. intros err. apply ret_never_throws. Qed.

(** ** Synchronisation *)

(** X8.  [syncWithFirestore] throws nothing but the failure of its last
    step: whatever the Firestore and AsyncStorage calls do, either it
    returns and the last-sync time is the current time, also when no
    expense could be saved, or it throws "Failed to update last sync
    timestamp" and the last-sync time is as before. *)
Theorem sync_throws_only_for_the_timestamp (w : World) :
  let (r, w') := syncWithFirestore w in
  (r = Ok tt /\ last_sync_timestamp w' = Some (clock w)) \/
  (r = Throw (new_Error "Failed to update last sync timestamp") /\
   last_sync_timestamp w' = last_sync_timestamp w).
Proof.
  unfold syncWithFirestore, try_catch, bind.
  pose proof (getPendingSyncExpenses_never_throws w) as [pending Hp].
  pose proof (getPendingSyncExpenses_leaves sync_mark sync_mark_outside w) as M1.
  destruct (getPendingSyncExpenses w) as [r1 w1]. simpl in Hp, M1. subst r1.
  pose proof (for_of_never_throws pending sync_one sync_one_never_throws w1)
    as [[] Hl].
  pose proof (leaves_for_of sync_mark pending sync_one sync_one_mark w1) as M2.
  destruct (for_of pending sync_one w1) as [r2 w2]. simpl in Hl, M2. subst r2.
  rewrite M1 in M2. unfold sync_mark in M2. injection M2 as Hc Ht.
  unfold updateLastSyncTimestamp, try_catch, bind, local_call, modify, throw.
  destruct (local_faults w2) as [| [err |] rest]; simpl.
  - left. now rewrite Hc.
  - right. now rewrite Ht.
  - left. now rewrite Hc.
Qed.

(** ** Deletion *)

Lemma document_filtered (i : string) (docs : list Expense.t) :
  document i (filter (fun e => negb (has_id i e)) docs) = None.
Proof.
  unfold document. induction docs as [| x docs IH]; simpl; [reflexivity |].
  destruct (has_id i x) eqn:E; simpl; [exact IH |]. now rewrite E.
Qed.

Lemma removeCachedExpense_outcome (expenseId : string) (w : World) :
  let (r, w') := removeCachedExpense expenseId w in
  fs_expenses w' = fs_expenses w /\
  pending_sync_expenses w' = pending_sync_expenses w /\
  ((r = Ok tt /\ document expenseId (cached_list w') = None) \/
   (r = Throw (new_Error "Failed to cache expenses") /\
    cached_expenses w' = cached_expenses w)).
Proof.
  unfold removeCachedExpense, bind.
  pose proof (getCachedExpenses_never_throws w) as [cached Hc].
  assert (O : outside_calls
                (fun w => (fs_expenses w, pending_sync_expenses w,
                           cached_expenses w)))
    by (split; reflexivity).
  pose proof (getCachedExpenses_leaves _ O w) as L.
  destruct (getCachedExpenses w) as [r1 w1]. simpl in Hc, L. subst r1.
  injection L as L1 L2 L3.
  unfold cacheExpenses, try_catch, bind, local_call, modify, throw.
  destruct (local_faults w1) as [| [err |] rest]; simpl;
    repeat split; try assumption.
  - left. split; [reflexivity | apply document_filtered].
  - right. split; [reflexivity | assumption].
  - left. split; [reflexivity | apply document_filtered].
Qed.

(** X9.  [deleteExpenseFromFirestore] never touches the pending-sync
    queue.  When the Firestore call is rejected the error is thrown again
    and nothing else has changed, so that the deletion is not tried again
    by a later synchronisation; otherwise the document is gone, and either
    the cache has lost the expense too or "Failed to cache expenses" is
    thrown and the cache still holds what it held. *)
Theorem failed_delete_is_not_queued (expenseId : string) (w : World) :
  let (r, w') := deleteExpenseFromFirestore expenseId w in
  pending_sync_expenses w' = pending_sync_expenses w /\
  match remote_faults w with
  | Some err :: rest => r = Throw err /\ w' = set_remote_faults rest w
  | _ =>
      fs_expenses w'
      = filter (fun e => negb (has_id expenseId e)) (fs_expenses w) /\
      document expenseId (fs_expenses w') = None /\
      ((r = Ok tt /\ document expenseId (cached_list w') = None) \/
       (r = Throw (new_Error "Failed to cache expenses") /\
        cached_expenses w' = cached_expenses w))
  end.
Proof.
  unfold deleteExpenseFromFirestore, deleteExpenseDoc, try_catch, bind,
    remote_call, modify, throw.
  destruct (remote_faults w) as [| [err |] rest] eqn:Hr; simpl.
  - match goal with |- context [removeCachedExpense expenseId ?w1] =>
      pose proof (removeCachedExpense_outcome expenseId w1) as H;
      destruct (removeCachedExpense expenseId w1) as [[[] | e] w']
    end; simpl in H; destruct H as (F & Q & C);
      (split; [exact Q |]); rewrite F;
      (split; [reflexivity |]); (split; [apply document_filtered |]);
      destruct C as [[C1 C2] | [C1 C2]]; try discriminate C1.
    + left. now split.
    + right. split; [assumption | exact C2].
  - split; [reflexivity | now split].
  - match goal with |- context [removeCachedExpense expenseId ?w1] =>
      pose proof (removeCachedExpense_outcome expenseId w1) as H;
      destruct (removeCachedExpense expenseId w1) as [[[] | e] w']
    end; simpl in H; destruct H as (F & Q & C);
      (split; [exact Q |]); rewrite F;
      (split; [reflexivity |]); (split; [apply document_filtered |]);
      destruct C as [[C1 C2] | [C1 C2]]; try discriminate C1.
    + left. now split.
    + right. split; [assumption | exact C2].
Qed.

(** ** A failed read of a stored list *)

(** X10.  The services read a stored list before they write it back, and
    a failed read counts as an empty list.  So when the read fails and
    the write that follows succeeds, what was stored is lost:
    [addPendingSyncExpense] leaves the expense alone in the queue,
    [removePendingSyncExpense] leaves an empty queue, and
    [cacheExpenseLocally] a cache of one expense; none of them throws. *)
Theorem failed_read_wipes_the_stored_list
        (expense : Expense.t) (w : World) (err : Error)
        (rest : list (option Error)) :
  local_faults w = Some err :: rest ->
  next_succeeds rest = true ->
  (fst (addPendingSyncExpense expense w) = Ok tt /\
   pending_sync_expenses (snd (addPendingSyncExpense expense w))
   = Some [expense]) /\
  (forall expenseId,
      fst (removePendingSyncExpense expenseId w) = Ok tt /\
      pending_sync_expenses (snd (removePendingSyncExpense expenseId w))
      = Some []) /\
  (fst (cacheExpenseLocally expense w) = Ok tt /\
   cached_expenses (snd (cacheExpenseLocally expense w))
   = Some ([expense], clock w)).
Proof.
  intros Hl Hn.
  unfold addPendingSyncExpense, removePendingSyncExpense, cacheExpenseLocally,
    cacheExpenses, getPendingSyncExpenses, getCachedExpenses,
    try_catch, bind, local_call, modify, ret, gets, throw.
  rewrite Hl. simpl.
  destruct rest as [| [e |] rest']; [| discriminate Hn |]; simpl;
    repeat split; reflexivity.
Qed.

Lemma failed_read_wipes_the_stored_list_witness :
  pending_sync_expenses
    (snd (addPendingSyncExpense Examples.train_ticket
            (set_local_faults [Some Examples.disk_full] Examples.queued_world)))
  = Some [Examples.train_ticket].
Proof.
  apply (failed_read_wipes_the_stored_list Examples.train_ticket
           (set_local_faults [Some Examples.disk_full] Examples.queued_world)
           Examples.disk_full []); reflexivity.
Defined.

(** ** A synchronisation without faults *)

Lemma document_put (i : string) (e : Expense.t) (docs : list Expense.t) :
  document i (put_expense e docs)
  = if has_id i e then Some e else document i docs.
Proof.
  unfold document. induction docs as [| x docs IH].
  - rewrite QueueProofs.put_expense_nil. simpl. now destruct (has_id i e).
  - rewrite QueueProofs.put_expense_cons.
    destruct (has_id (Expense.id e) x) eqn:Ex; simpl.
    + destruct (has_id i e) eqn:Ee; [reflexivity |].
      apply QueueProofs.has_id_true in Ex.
      assert (Hx : has_id i x = false).
      { destruct (has_id i x) eqn:Hx; [| reflexivity].
        apply QueueProofs.has_id_true in Hx.
        assert (Hi : has_id i e = true)
          by (apply QueueProofs.has_id_true; congruence).
        congruence. }
      now rewrite Hx.
    + destruct (has_id i x) eqn:Hx.
      * destruct (has_id i e) eqn:Ee; [| reflexivity].
        apply QueueProofs.has_id_true in Hx, Ee.
        assert (Hi : has_id (Expense.id e) x = true)
          by (apply QueueProofs.has_id_true; congruence).
        congruence.
      * exact IH.
Qed.

Lemma document_app (i : string) (l1 l2 : list Expense.t) :
  document i (l1 ++ l2)
  = match document i l1 with
    | Some e => Some e
    | None => document i l2
    end.
Proof.
  unfold document. induction l1 as [| x l1 IH]; simpl; [reflexivity |].
  now destruct (has_id i x).
Qed.

(** The documents after the queue has been saved entry by entry. *)
Lemma document_saved (i : string) (queue : list Expense.t) :
  forall docs,
    document i (fold_left (fun docs e => put_expense e docs) queue docs)
    = latest queue docs i.
Proof.
  unfold latest. induction queue as [| e queue IH]; intros docs; simpl.
  - reflexivity.
  - rewrite IH, document_app, document_put.
    destruct (document i (rev queue)); [reflexivity |].
    unfold document at 1. simpl. now destruct (has_id i e).
Qed.

(** The queue after each of [done] has been removed from it. *)
Lemma removed_all (done : list Expense.t) :
  forall queue,
    (forall x, In x queue -> In x done) ->
    fold_left (fun q e => filter (fun x => negb (has_id (Expense.id e) x)) q)
              done queue = [].
Proof.
  induction done as [| e done IH]; intros queue H; simpl.
  - destruct queue as [| x queue]; [reflexivity |].
    destruct (H x (or_introl eq_refl)).
  - apply IH. intros x Hx. apply filter_In in Hx. destruct Hx as [Hx Hn].
    destruct (H x Hx) as [E | Hd]; [| exact Hd].
    subst x. now rewrite QueueProofs.has_id_self in Hn.
Qed.

Lemma save_without_faults (e : Expense.t) (w : World) :
  local_faults w = [] -> remote_faults w = [] ->
  exists w1, saveExpenseToFirestore e w = (Ok tt, w1) /\
             local_faults w1 = [] /\ remote_faults w1 = [] /\
             pending_sync_expenses w1 = pending_sync_expenses w /\
             fs_expenses w1 = put_expense e (fs_expenses w) /\
             sync_mark w1 = sync_mark w.
Proof.
  intros Hl Hr. unfold saveExpenseToFirestore, try_catch, bind at 1.
  pose proof (QueueProofs.setDoc_outcome e w) as S. rewrite Hr in S. rewrite S.
  set (w0 := set_fs_expenses (put_expense e (fs_expenses w)) w).
  assert (M0 : sync_mark
                 (snd (cacheExpenseLocally e w0)) = sync_mark w0).
  { revert w0. generalize (set_fs_expenses (put_expense e (fs_expenses w)) w).
    change (leaves sync_mark (cacheExpenseLocally e)).
    unfold cacheExpenseLocally, cacheExpenses, getCachedExpenses.
    frame sync_mark_outside. }
  destruct (QueueProofs.cacheExpenseLocally_ok e w0 Hl)
    as (w1 & E & L1 & P1 & R1 & F1).
  rewrite E in M0 |- *. exists w1. repeat split; try assumption.
  now rewrite R1.
Qed.

Lemma sync_one_without_faults (e : Expense.t) (w : World) :
  local_faults w = [] -> remote_faults w = [] ->
  exists w1, sync_one e w = (Ok tt, w1) /\
             local_faults w1 = [] /\ remote_faults w1 = [] /\
             pending_list w1
             = filter (fun x => negb (has_id (Expense.id e) x)) (pending_list w) /\
             fs_expenses w1 = put_expense e (fs_expenses w).
Proof.
  intros Hl Hr.
  destruct (QueueProofs.sync_one_success e w Hl (or_introl Hr))
    as (w1 & E & L1 & R1 & P1 & F1).
  exists w1. rewrite Hr in R1. now repeat split.
Qed.

Lemma loop_without_faults (queue : list Expense.t) :
  forall w,
    local_faults w = [] -> remote_faults w = [] ->
    exists w1, for_of queue sync_one w = (Ok tt, w1) /\
               local_faults w1 = [] /\ remote_faults w1 = [] /\
               pending_list w1
               = fold_left
                   (fun q e => filter (fun x => negb (has_id (Expense.id e) x)) q)
                   queue (pending_list w) /\
               fs_expenses w1
               = fold_left (fun docs e => put_expense e docs) queue (fs_expenses w).
Proof.
  induction queue as [| e queue IH]; intros w Hl Hr; simpl.
  - exists w. now repeat split.
  - destruct (sync_one_without_faults e w Hl Hr) as (w1 & E & L1 & R1 & P1 & F1).
    destruct (IH w1 L1 R1) as (w2 & E2 & L2 & R2 & P2 & F2).
    exists w2. unfold bind. rewrite E, E2.
    repeat split; try assumption.
    + now rewrite P2, P1.
    + now rewrite F2, F1.
Qed.

Lemma sync_without_faults (w : World) :
  local_faults w = [] -> remote_faults w = [] ->
  exists w', syncWithFirestore w = (Ok tt, w') /\
             local_faults w' = [] /\ remote_faults w' = [] /\
             pending_list w' = [] /\
             last_sync_timestamp w' = Some (clock w) /\
             forall i, document i (fs_expenses w')
                       = latest (pending_list w) (fs_expenses w) i.
Proof.
  intros Hl Hr.
  unfold syncWithFirestore, try_catch, bind.
  rewrite (QueueProofs.getPendingSyncExpenses_ok w Hl).
  destruct (loop_without_faults (pending_list w) w Hl Hr)
    as (w1 & E & L1 & R1 & P1 & F1).
  pose proof (leaves_for_of sync_mark (pending_list w) sync_one sync_one_mark w)
    as M. rewrite E in M. injection M as Hc _.
  rewrite E.
  unfold updateLastSyncTimestamp, try_catch, bind, local_call, modify.
  rewrite L1.
  eexists. split; [reflexivity |]. simpl.
  repeat split; try assumption.
  - unfold pending_list at 1. simpl. fold (pending_list w1).
    rewrite P1. apply removed_all. now intros x Hx.
  - now rewrite Hc.
  - intros i. rewrite F1. apply document_saved.
Qed.

Lemma document_unique (e : Expense.t) (l : list Expense.t) :
  NoDup (map Expense.id l) -> In e l -> document (Expense.id e) l = Some e.
Proof.
  unfold document. induction l as [| x l IH]; intros Hn Hi; [destruct Hi |].
  simpl in Hn. inversion Hn as [| ? ? Hx Hn']. subst. simpl.
  destruct Hi as [E | Hi].
  - subst x. now rewrite QueueProofs.has_id_self.
  - destruct (has_id (Expense.id e) x) eqn:Ex; [| now apply IH].
    apply QueueProofs.has_id_true in Ex. exfalso. apply Hx. rewrite Ex.
    now apply in_map.
Qed.

(** X11.  A synchronisation that meets no fault returns, empties the
    queue and records the current time; under every [id] Firestore then
    holds the last version the queue had of it, and the document it held
    before when the queue had none. *)
Theorem sync_without_faults_drains_the_queue (w : World) :
  local_faults w = [] -> remote_faults w = [] ->
  exists w', syncWithFirestore w = (Ok tt, w') /\
             pending_list w' = [] /\
             last_sync_timestamp w' = Some (clock w) /\
             forall i, document i (fs_expenses w')
                       = latest (pending_list w) (fs_expenses w) i.
Proof.
  intros Hl Hr.
  destruct (sync_without_faults w Hl Hr) as (w' & E & _ & _ & P & T & F).
  exists w'. now repeat split.
Qed.

Lemma sync_without_faults_drains_the_queue_witness :
  exists w', syncWithFirestore reconnected_world = (Ok tt, w') /\
             pending_list w' = [] /\
             last_sync_timestamp w' = Some (clock reconnected_world) /\
             forall i, document i (fs_expenses w')
                       = latest (pending_list reconnected_world)
                                (fs_expenses reconnected_world) i.
Proof.
  apply (sync_without_faults_drains_the_queue reconnected_world); reflexivity.
Defined.

(** X12.  A successful [saveExpenseToFirestore] leaves the queue as it
    is.  So when an older version of the expense waits in the queue, the
    save stores the new version and the next synchronisation, meeting no
    fault, puts the older one back over it. *)
Theorem queued_version_overwrites_a_newer_save
        (old new : Expense.t) (w : World) :
  local_faults w = [] -> remote_faults w = [] ->
  queue_ok w -> In old (pending_list w) ->
  Expense.id old = Expense.id new ->
  exists w1 w2,
    saveExpenseToFirestore new w = (Ok tt, w1) /\
    document (Expense.id new) (fs_expenses w1) = Some new /\
    pending_list w1 = pending_list w /\
    syncWithFirestore w1 = (Ok tt, w2) /\
    document (Expense.id new) (fs_expenses w2) = Some old.
Proof.
  intros Hl Hr Hq Hin Hid.
  destruct (save_without_faults new w Hl Hr) as (w1 & E1 & L1 & R1 & P1 & F1 & _).
  destruct (sync_without_faults w1 L1 R1) as (w2 & E2 & _ & _ & _ & _ & F2).
  exists w1, w2.
  assert (Q : pending_list w1 = pending_list w)
    by now apply QueueProofs.pending_list_eq.
  split; [exact E1 |]. split.
  { rewrite F1, document_put. now rewrite QueueProofs.has_id_self. }
  split; [exact Q |]. split; [exact E2 |].
  rewrite F2, Q. unfold latest. rewrite <- Hid.
  rewrite (document_unique old (rev (pending_list w))); [reflexivity | |].
  - rewrite map_rev. apply NoDup_rev. exact Hq.
  - apply in_rev. now rewrite rev_involutive.
Qed.

Lemma queued_version_overwrites_a_newer_save_witness :
  exists w1 w2,
    saveExpenseToFirestore lunch_corrected reconnected_world = (Ok tt, w1) /\
    document "e2" (fs_expenses w1) = Some lunch_corrected /\
    pending_list w1 = [Examples.groceries; Examples.lunch] /\
    syncWithFirestore w1 = (Ok tt, w2) /\
    document "e2" (fs_expenses w2) = Some Examples.lunch.
Proof.
  apply (queued_version_overwrites_a_newer_save
           Examples.lunch lunch_corrected reconnected_world);
    try reflexivity.
  - unfold queue_ok. simpl.
    constructor; [intros [H | []]; discriminate |].
    constructor; [intros [] | constructor].
  - right. left. reflexivity.
Defined.

End StorageProofs.

(* ================================================================== *)
(** * The categories hook *)
(* ================================================================== *)

Module CategoryHookProofs.

Import JSString Store ExpenseValidation UseCategoriesActions.
Local Open Scope string_scope.

(** ** Default and custom categories *)





(** ** Names in use *)

Lemma name_in_use (categories : list Category.t) (name : string)
      (keep : Category.t -> bool) :
  existsb (String.eqb name) (map Category.name (filter keep categories))
  = existsb (fun cat => String.eqb (Category.name cat) name && keep cat) categories.
Proof.
  induction categories as [| cat l IH]; simpl; [reflexivity |].
  destruct (keep cat); simpl.
  - now rewrite IH, andb_true_r, (String.eqb_sym name).
  - now rewrite IH, andb_false_r.
Qed.

(** X14.  [validateNewCategoryName] and [categoryNameExists] agree: a name
    is valid for the hook exactly when it is valid on its own and no
    category other than the excluded one bears it.  An empty [excludeId]
    excludes nothing. *)
Theorem new_name_valid_iff_free (categories : list Category.t)
        (name : string) (excludeId : option string) :
  isValid (validateNewCategoryName categories name excludeId)
  = isValid (validateCategoryName name [])
    && negb (categoryNameExists categories name excludeId) /\
  categoryNameExists categories name (Some "")
  = categoryNameExists categories name None.
Proof.
  split; [| reflexivity].
  unfold validateNewCategoryName, categoryNameExists.
  now rewrite CategoryNameProofs.expense_duplicates_are_exact, name_in_use.
Qed.

(** ** Creating and updating *)

Lemma message_or_some (err : Error) (fallback : string) :
  Some (UseCategories.message_or err fallback) <> None.
Proof. discriminate. Qed.

(** X15.  [createCategory] of the hook never throws.  A name that
    [validateCategoryName] rejects among the names of the categories
    never reaches the service: nothing is called, the list is as before
    and the error is set.  Otherwise the service is called once,
    [isCreating] is false again whatever the outcome, a created category
    is appended and a failure leaves the list alone with the error set.
    With a service that answers with the name it was asked for, names
    that were distinct stay distinct. *)
Theorem createCategory_keeps_names_distinct
        (service : CategoryCreateInput.t -> M Category.t)
        (st : State) (categoryData : CategoryCreateInput.t) (w : World) :
  let validation :=
    validateCategoryName (CategoryCreateInput.name categoryData)
                         (map Category.name (categories st)) in
  exists result st' w',
    createCategory service st categoryData w = (Ok (result, st'), w') /\
    (isValid validation = false ->
     result = None /\ w' = w /\ categories st' = categories st /\
     error st' <> None /\ isCreating st' = isCreating st) /\
    (isValid validation = true ->
     isCreating st' = false /\
     match result with
     | Some newCategory =>
         service categoryData w = (Ok newCategory, w') /\
         categories st' = (categories st ++ [newCategory])%list /\
         error st' = None
     | None =>
         (exists err, service categoryData w = (Throw err, w')) /\
         categories st' = categories st /\ error st' <> None
     end) /\
    ((forall newCategory,
         result = Some newCategory ->
         Category.name newCategory = CategoryCreateInput.name categoryData) ->
     NoDup (map Category.name (categories st)) ->
     NoDup (map Category.name (categories st'))).
Proof.
  intros validation. unfold createCategory. fold validation.
  destruct (isValid validation) eqn:V; cbn [negb]; cbv iota.
  - unfold bind, try_catch, ret. cbv beta zeta.
    destruct (service categoryData w) as [[newCategory | err] w1] eqn:S; simpl.
    + eexists _, _, _. split; [reflexivity |]. simpl.
      split; [discriminate |]. split.
      * intros _. now repeat split.
      * intros Hname Hnd. rewrite map_app. simpl.
        rewrite (Hname newCategory eq_refl).
        apply NoDup_app_remove_l with (l := []). simpl.
        apply Permutation_NoDup
          with (l := CategoryCreateInput.name categoryData
                     :: map Category.name (categories st)).
        { apply Permutation_cons_append. }
        constructor; [| exact Hnd].
        intros Hin.
        pose proof (CategoryNameProofs.expense_rejects_duplicate
                      (CategoryCreateInput.name categoryData)
                      (map Category.name (categories st)) Hin) as R.
        fold validation in R. congruence.
    + eexists _, _, _. split; [reflexivity |]. simpl.
      split; [discriminate |]. split.
      * intros _. split; [reflexivity |]. split; [now exists err |].
        split; [reflexivity | discriminate].
      * intros _ Hnd. exact Hnd.
  - eexists _, _, _. split; [reflexivity |]. simpl.
    split; [| split].
    + intros _. repeat split. discriminate.
    + discriminate.
    + intros _ Hnd. exact Hnd.
Qed.

Lemma replaced_length (categories : list Category.t) (i : string)
      (updated : Category.t) :
  List.length
    (map (fun cat => if String.eqb (Category.id cat) i then updated else cat)
         categories)
  = List.length categories.
Proof. apply length_map. Qed.

Lemma replaced_ids (categories : list Category.t) (i : string)
      (updated : Category.t) :
  Category.id updated = i ->
  map Category.id
      (map (fun cat => if String.eqb (Category.id cat) i then updated else cat)
           categories)
  = map Category.id categories.
Proof.
  intros H. rewrite map_map. apply map_ext. intros cat.
  destruct (String.eqb (Category.id cat) i) eqn:E; [| reflexivity].
  apply String.eqb_eq in E. congruence.
Qed.

(** X16.  [updateCategory] of the hook never throws and never changes the
    number of categories; with a service that answers with the category
    of the [id] it was asked for, the ids stay as they were, in their
    order.  A new name borne by another category never reaches the
    service, while the name of the category itself, or no name at all,
    is not held against the update. *)
Theorem updateCategory_keeps_the_list
        (service : CategoryUpdateInput.t -> M Category.t)
        (st : State) (categoryData : CategoryUpdateInput.t) (w : World) :
  exists result st' w',
    updateCategory service st categoryData w = (Ok (result, st'), w') /\
    List.length (categories st') = List.length (categories st) /\
    ((forall updated,
         result = Some updated ->
         Category.id updated = CategoryUpdateInput.id categoryData) ->
     map Category.id (categories st') = map Category.id (categories st)) /\
    (forall name other,
        name_to_validate categoryData = Some name ->
        In other (categories st) -> Category.name other = name ->
        Category.id other <> CategoryUpdateInput.id categoryData ->
        result = None /\ w' = w /\ categories st' = categories st /\
        error st' <> None) /\
    ((name_to_validate categoryData = None \/
      exists name,
        name_to_validate categoryData = Some name /\
        isValid (validateCategoryName name []) = true /\
        forall other, In other (categories st) -> Category.name other = name ->
                      Category.id other = CategoryUpdateInput.id categoryData) ->
     isUpdating st' = false /\
     match result with
     | Some updated => service categoryData w = (Ok updated, w')
     | None => exists err, service categoryData w = (Throw err, w')
     end).
Proof.
  unfold updateCategory.
  set (others :=
         map Category.name
             (filter (fun cat =>
                        negb (String.eqb (Category.id cat)
                                         (CategoryUpdateInput.id categoryData)))
                     (categories st))).
  set (validation :=
         match name_to_validate categoryData with
         | Some name => validateCategoryName name others
         | None => valid
         end).
  assert (Taken : forall name other,
             name_to_validate categoryData = Some name ->
             In other (categories st) -> Category.name other = name ->
             Category.id other <> CategoryUpdateInput.id categoryData ->
             isValid validation = false).
  { intros name other Hn Hin Hname Hid. unfold validation. rewrite Hn.
    apply CategoryNameProofs.expense_rejects_duplicate.
    unfold others. rewrite <- Hname. apply in_map. apply filter_In.
    split; [exact Hin |]. apply negb_true_iff. now apply String.eqb_neq. }
  assert (Free : (name_to_validate categoryData = None \/
                  exists name,
                    name_to_validate categoryData = Some name /\
                    isValid (validateCategoryName name []) = true /\
                    forall other, In other (categories st) ->
                                  Category.name other = name ->
                                  Category.id other
                                  = CategoryUpdateInput.id categoryData) ->
                 isValid validation = true).
  { intros [Hn | (name & Hn & Hv & Hown)]; unfold validation; rewrite Hn;
      [reflexivity |].
    rewrite CategoryNameProofs.expense_duplicates_are_exact, Hv. simpl.
    apply negb_true_iff.
    destruct (existsb (String.eqb name) others) eqn:E; [| reflexivity].
    apply existsb_exists in E. destruct E as (n & Hin & Heq).
    apply String.eqb_eq in Heq. subst n. unfold others in Hin.
    apply in_map_iff in Hin. destruct Hin as (other & Hname & Hin).
    apply filter_In in Hin. destruct Hin as [Hin Hid].
    apply negb_true_iff, String.eqb_neq in Hid.
    destruct (Hid (Hown other Hin Hname)). }
  destruct (isValid validation) eqn:V; cbn [negb]; cbv iota.
  - unfold bind, try_catch, ret. cbv beta zeta.
    destruct (service categoryData w) as [[updated | err] w1] eqn:S; simpl.
    + eexists _, _, _. split; [reflexivity |]. simpl.
      split; [apply replaced_length |]. split.
      { intros H. apply replaced_ids. now apply H. }
      split.
      { intros name other Hn Hin Hname Hid.
        pose proof (Taken name other Hn Hin Hname Hid). congruence. }
      intros _. now split.
    + eexists _, _, _. split; [reflexivity |]. simpl.
      split; [reflexivity |]. split; [reflexivity |]. split.
      { intros name other Hn Hin Hname Hid.
        pose proof (Taken name other Hn Hin Hname Hid). congruence. }
      intros _. split; [reflexivity | now exists err].
  - eexists _, _, _. split; [reflexivity |]. simpl.
    split; [reflexivity |]. split; [reflexivity |]. split.
    { intros. repeat split. discriminate. }
    intros H. specialize (Free H). congruence.
Qed.

(** ** Deleting *)

(** X17.  [deleteCategory] of the hook never throws, and it answers true
    only for a category of the list that is not a default one, after the
    service has deleted it: then the categories of that id are gone from
    the list and from Firestore, with no error.  When the id is unknown
    or belongs to a default category nothing is called and only the error
    changes; when the service fails the list and Firestore keep the
    category and [isDeleting] is reset. *)
Theorem deleteCategory_guards
        (st : UseCategories.HookState) (categoryId : string) (w : World) :
  let found :=
    find (UseCategories.is_category categoryId) (UseCategories.categories st) in
  let guarded :=
    match found with
    | Some category => Category.isDefault category
    | None => true
    end in
  exists ok st' w',
    UseCategories.deleteCategory st categoryId w = (Ok (ok, st'), w') /\
    (guarded = true ->
     ok = false /\ w' = w /\
     UseCategories.categories st' = UseCategories.categories st /\
     UseCategories.isDeleting st' = UseCategories.isDeleting st /\
     UseCategories.error st'
     = Some (match found with
             | Some _ => "Cannot delete default categories"
             | None => "Category not found"
             end)) /\
    (guarded = false ->
     UseCategories.isDeleting st' = None /\
     if ok then
       UseCategories.categories st'
       = filter (fun cat => negb (UseCategories.is_category categoryId cat))
                (UseCategories.categories st) /\
       fs_categories w'
       = filter (fun c => negb (String.eqb (Category.id c) categoryId))
                (fs_categories w) /\
       UseCategories.error st' = None
     else
       UseCategories.categories st' = UseCategories.categories st /\
       fs_categories w' = fs_categories w /\
       UseCategories.error st' <> None).
Proof.
  intros found guarded. subst guarded. unfold UseCategories.deleteCategory.
  fold found. destruct found as [category |].
  - destruct (Category.isDefault category) eqn:Df.
    + eexists _, _, _. split; [reflexivity |]. simpl.
      split; [now repeat split | discriminate].
    + unfold CategoryService.deleteCategory, deleteCategoryDoc.
      unfold bind, try_catch, ret, remote_call, modify. cbv beta zeta.
      destruct (remote_faults w) as [| [err |] rest]; simpl;
        eexists _, _, _; (split; [reflexivity |]); simpl;
        (split; [discriminate |]); intros _; repeat split; discriminate.
  - eexists _, _, _. split; [reflexivity |]. simpl.
    split; [now repeat split | discriminate].
Qed.

End CategoryHookProofs.

(* ================================================================== *)
(** * The transaction list: filter actions, windows, order *)
(* ================================================================== *)

Module TransactionViewProofs.

Import JSString JSDate Transaction TransactionSpec.
Import TransactionFilterState TransactionViewSpec.

Section View.
Context {D : DateAPI}.

(** ** The actions on the filters *)

Lemma keeps_search (f : TransactionFilters) (t : Transaction) :
  keeps f t = negb (fails_search f t) && keeps (with_searchQuery None f) t.
Proof.
  unfold keeps at 1. destruct (fails_search f t); reflexivity.
Qed.

Lemma step_in_step (st : State) (a : Action) :
  TransactionFilterState.searchQuery (step st a)
  = or_empty_string (Transaction.searchQuery (filters (step st a))).
Proof. destruct a; reflexivity. Qed.

(** X18.  Whatever the user does to the filters, the text of the search
    box is the query of the filter object, the empty text when there is
    none.  A search narrows what the other filters keep and leaves them as
    they are, a search for the empty text narrows nothing, and after
    [clearFilters] the list shown is the whole merged list. *)
Theorem search_box_follows_the_filters
        (initialFilters : TransactionFilters) (actions : list Action) :
  let st := fold_left step actions (initial initialFilters) in
  TransactionFilterState.searchQuery st
  = or_empty_string (Transaction.searchQuery (filters st)) /\
  (forall query l,
      filteredTransactions (filters (search st query)) l
      = filter (fun t => negb (fails_search (filters (search st query)) t))
               (filteredTransactions (with_searchQuery None (filters st)) l)) /\
  (forall l,
      filteredTransactions (filters (search st EmptyString)) l
      = filteredTransactions (with_searchQuery None (filters st)) l) /\
  (forall l, filteredTransactions (filters (clearFilters st)) l = l).
Proof.
  intros st. split; [| split; [| split]].
  - subst st. destruct actions as [| a actions] using rev_ind.
    + reflexivity.
    + rewrite fold_left_app. apply step_in_step.
  - intros query l. unfold filteredTransactions.
    induction l as [| t l IH]; [reflexivity |].
    cbn [filter]. rewrite IH, keeps_search.
    change (keeps (with_searchQuery None (filters (search st query))) t)
      with (keeps (with_searchQuery None (filters st)) t).
    destruct (keeps (with_searchQuery None (filters st)) t);
      cbn [filter]; destruct (fails_search (filters (search st query)) t);
      reflexivity.
  - reflexivity.
  - intros l. apply MonthlyExample.filtered_noFilters.
Qed.

(** ** The date range *)

Lemma keeps_date_range (f : TransactionFilters) (t : Transaction) :
  keeps f t
  = keeps (without_date_range f) t
    && negb (fails_dateFrom f t) && negb (fails_dateTo f t).
Proof.
  unfold keeps.
  change (fails_dateFrom (without_date_range f) t) with false.
  change (fails_dateTo (without_date_range f) t) with false.
  change (fails_search (without_date_range f) t) with (fails_search f t).
  change (fails_type (without_date_range f) t) with (fails_type f t).
  change (fails_category (without_date_range f) t) with (fails_category f t).
  change (fails_amountMin (without_date_range f) t) with (fails_amountMin f t).
  change (fails_amountMax (without_date_range f) t) with (fails_amountMax f t).
  cbv iota.
  repeat match goal with
         | |- context [if ?b then false else _] =>
             destruct b; simpl; try reflexivity
         end.
Qed.

Lemma passes_dateFrom (f : TransactionFilters) (t : Transaction) :
  fails_dateFrom f t = false <->
  (forall d from tv,
      dateFrom f = Some d -> d <> EmptyString ->
      getTime d = Some from -> getTime (date t) = Some tv -> (from <= tv)%Z).
Proof.
  unfold fails_dateFrom, date_lt. destruct (dateFrom f) as [d |].
  - destruct d as [| c d]; simpl.
    + split; [| reflexivity]. intros _ d' from tv E N. exfalso. apply N. congruence.
    + destruct (getTime (date t)) as [tv |] eqn:Gt;
        destruct (getTime (String c d)) as [from |] eqn:Gd;
        try (split; [intros _ d' from' tv' E N F T; inversion E; subst;
                     congruence | reflexivity]).
      rewrite Z.ltb_ge. split.
      * intros H d' from' tv' E N F T. inversion E; subst.
        rewrite Gd in F. congruence.
      * intros H. apply (H (String c d) from tv); congruence.
  - split; [intros _ d from tv E; discriminate | reflexivity].
Qed.

Lemma passes_dateTo (f : TransactionFilters) (t : Transaction) :
  fails_dateTo f t = false <->
  (forall d to tv,
      dateTo f = Some d -> d <> EmptyString ->
      getTime d = Some to -> getTime (date t) = Some tv -> (tv <= to)%Z).
Proof.
  unfold fails_dateTo, date_lt. destruct (dateTo f) as [d |].
  - destruct d as [| c d]; simpl.
    + split; [| reflexivity]. intros _ d' to tv E N. exfalso. apply N. congruence.
    + destruct (getTime (String c d)) as [to |] eqn:Gd;
        destruct (getTime (date t)) as [tv |] eqn:Gt;
        try (split; [intros _ d' to' tv' E N F T; inversion E; subst;
                     congruence | reflexivity]).
      rewrite Z.ltb_ge. split.
      * intros H d' to' tv' E N F T. inversion E; subst.
        rewrite Gd in F. congruence.
      * intros H. apply (H (String c d) to tv); congruence.
  - split; [intros _ d to tv E; discriminate | reflexivity].
Qed.

(** X19.  The date bounds act as an inclusive range on the time values of
    the dates: a transaction is kept exactly when the rest of the filter
    keeps it and its date is neither before [dateFrom] nor after
    [dateTo].  A bound that is empty or not a date excludes nothing, and
    a transaction whose date is not a date passes every bound. *)
Theorem date_range_is_inclusive
        (filters : TransactionFilters) (l : list Transaction) (t : Transaction) :
  (In t (filteredTransactions filters l) <->
   In t (filteredTransactions (without_date_range filters) l) /\
   (forall d from tv,
       dateFrom filters = Some d -> d <> EmptyString ->
       getTime d = Some from -> getTime (date t) = Some tv -> (from <= tv)%Z) /\
   (forall d to tv,
       dateTo filters = Some d -> d <> EmptyString ->
       getTime d = Some to -> getTime (date t) = Some tv -> (tv <= to)%Z)) /\
  (getTime (date t) = None ->
   keeps filters t = keeps (without_date_range filters) t).
Proof.
  split.
  - unfold filteredTransactions. rewrite !filter_In, keeps_date_range,
      !andb_true_iff, !negb_true_iff, passes_dateFrom, passes_dateTo.
    tauto.
  - intros H. rewrite keeps_date_range.
    assert (F : fails_dateFrom filters t = false).
    { apply passes_dateFrom. intros d from tv _ _ _ T. congruence. }
    assert (T : fails_dateTo filters t = false).
    { apply passes_dateTo. intros d to tv _ _ _ T. congruence. }
    rewrite F, T. simpl. now rewrite !andb_true_r.
Qed.

(** ** The three windows *)

Lemma month_within_year (t : Transaction) :
  inCurrentMonth t = true -> inCurrentYear t = true.
Proof.
  unfold inCurrentMonth, inCurrentYear.
  destruct (getTime (date t)); [| discriminate].
  intros H. now apply andb_true_iff in H.
Qed.

Lemma filter_length_le {A : Type} (p : A -> bool) (l : list A) :
  List.length (filter p l) <= List.length l.
Proof.
  induction l as [| x l IH]; simpl; [lia |]. destruct (p x); simpl; lia.
Qed.

Lemma filter_comm {A : Type} (p q : A -> bool) (l : list A) :
  filter p (filter q l) = filter q (filter p l).
Proof.
  induction l as [| x l IH]; simpl; [reflexivity |].
  destruct (p x) eqn:P, (q x) eqn:Q; simpl; rewrite ?P, ?Q, IH; reflexivity.
Qed.

Lemma filter_narrower {A : Type} (p q : A -> bool) (l : list A) :
  (forall x, p x = true -> q x = true) ->
  filter p l = filter p (filter q l).
Proof.
  intros H. induction l as [| x l IH]; simpl; [reflexivity |].
  destruct (p x) eqn:P.
  - rewrite (H x P). simpl. now rewrite P, IH.
  - destruct (q x); simpl; rewrite ?P; exact IH.
Qed.

Lemma counts_of_part (p : Transaction -> bool) (w : list Transaction) :
  counts_within (summarise (filter p w)) (summarise w).
Proof.
  unfold counts_within, summarise; simpl.
  rewrite (filter_comm isIncome p), (filter_comm isExpense p).
  repeat split; apply filter_length_le.
Qed.

(** X20.  The three windows are nested: the transactions of the current
    month are those of the current year that fall in the month, and
    those are among the filtered ones, which are among the merged list.
    So no count of the monthly summary exceeds that of the year-to-date
    summary, none of these that of the overall summary, and the overall
    count is at most the number of incomes and expenses. *)
Theorem windows_are_nested
        (filters : TransactionFilters)
        (incomes : list Income.t) (expenses : list Expense.t) :
  let h := useTransactionList filters incomes expenses in
  monthlyTransactions (hook_transactions h)
  = filter inCurrentMonth (ytdTransactions (hook_transactions h)) /\
  incl (ytdTransactions (hook_transactions h)) (hook_transactions h) /\
  incl (hook_transactions h) (hook_allTransactions h) /\
  counts_within (hook_monthlyData h) (hook_yearToDateData h) /\
  counts_within (hook_yearToDateData h) (hook_summaryData h) /\
  transactionCount (hook_summaryData h)
  <= List.length incomes + List.length expenses.
Proof.
  intros h. split; [| split; [| split; [| split; [| split]]]].
  - apply filter_narrower. exact month_within_year.
  - intros t Ht. apply filter_In in Ht. tauto.
  - intros t Ht. apply filter_In in Ht. tauto.
  - unfold h, useTransactionList, monthlyData, yearToDateData,
      monthlyTransactions, ytdTransactions.
    cbn [hook_monthlyData hook_yearToDateData].
    rewrite (filter_narrower inCurrentMonth inCurrentYear _ month_within_year).
    apply counts_of_part.
  - apply counts_of_part.
  - unfold h, useTransactionList, summaryData, summarise; simpl.
    etransitivity; [apply filter_length_le |].
    unfold allTransactions.
    rewrite <- (Permutation_length (SortProofs.sort_perm _ newest_first _)).
    rewrite length_app, !length_map. lia.
Qed.

Local Open Scope Q_scope.

Lemma total_of_part (p : Transaction -> bool) (w : list Transaction) :
  (forall t, In t w -> 0 <= amount t) ->
  total (map amount (filter p w)) <= total (map amount w).
Proof.
  induction w as [| x w IH]; intros H; simpl; [apply Qle_refl |].
  assert (Hx : 0 <= amount x) by (apply H; now left).
  assert (Hw : total (map amount (filter p w)) <= total (map amount w))
    by (apply IH; intros t Ht; apply H; now right).
  destruct (p x); simpl.
  - apply Qplus_le_compat; [apply Qle_refl | exact Hw].
  - rewrite <- (Qplus_0_l (total (map amount (filter p w)))).
    apply Qplus_le_compat; assumption.
Qed.

Lemma totals_of_part (p : Transaction -> bool) (w : list Transaction) :
  (forall t, In t w -> 0 <= amount t) ->
  totals_within (summarise (filter p w)) (summarise w).
Proof.
  intros H. unfold totals_within, summarise; simpl.
  rewrite !SummaryProofs.sumAmounts_total.
  rewrite (filter_comm isIncome p), (filter_comm isExpense p).
  split; apply total_of_part; intros t Ht; apply H;
    apply filter_In in Ht; tauto.
Qed.

Lemma merged_amounts (incomes : list Income.t) (expenses : list Expense.t) :
  (forall i, In i incomes -> 0 <= Income.amount i) ->
  (forall e, In e expenses -> 0 <= Expense.amount e) ->
  forall t, In t (allTransactions incomes expenses) -> 0 <= amount t.
Proof.
  intros Hi He t Ht. unfold allTransactions in Ht.
  apply (Permutation_in _ (Permutation_sym (SortProofs.sort_perm _ newest_first _)))
    in Ht.
  apply in_app_or in Ht. destruct Ht as [Ht | Ht]; apply in_map_iff in Ht;
    destruct Ht as (x & E & Hx); subst t; simpl; auto.
Qed.

(** X21.  When no income and no expense has a negative amount, the totals
    are nested as the windows are: the income and expense totals of the
    month do not exceed those of the year to date, which do not exceed
    the overall ones. *)
Theorem totals_are_nested
        (filters : TransactionFilters)
        (incomes : list Income.t) (expenses : list Expense.t) :
  (forall i, In i incomes -> 0 <= Income.amount i) ->
  (forall e, In e expenses -> 0 <= Expense.amount e) ->
  let h := useTransactionList filters incomes expenses in
  totals_within (hook_monthlyData h) (hook_yearToDateData h) /\
  totals_within (hook_yearToDateData h) (hook_summaryData h).
Proof.
  intros Hi He h.
  assert (Hf : forall t, In t (hook_transactions h) -> 0 <= amount t).
  { intros t Ht. apply filter_In in Ht.
    apply (merged_amounts incomes expenses Hi He). tauto. }
  split.
  - unfold h, useTransactionList, monthlyData, yearToDateData,
      monthlyTransactions, ytdTransactions.
    cbn [hook_monthlyData hook_yearToDateData].
    rewrite (filter_narrower inCurrentMonth inCurrentYear _ month_within_year).
    apply totals_of_part. intros t Ht. apply Hf. apply filter_In in Ht. tauto.
  - apply totals_of_part. exact Hf.
Qed.

Local Close Scope Q_scope.

(** ** The type filter *)

Lemma kept_type (f : TransactionFilters) (k : TransactionType) (t : Transaction) :
  keeps (with_typeFilter (Some (only k)) f) t = true -> type t = k.
Proof.
  unfold keeps.
  destruct (fails_search (with_typeFilter (Some (only k)) f) t);
    [discriminate |].
  destruct (fails_type (with_typeFilter (Some (only k)) f) t) eqn:E;
    [discriminate |].
  intros _. unfold fails_type in E. simpl in E. apply negb_false_iff in E.
  destruct (type t), k; try discriminate E; reflexivity.
Qed.

Lemma none_of_other (k : TransactionType) (w : list Transaction) :
  Forall (fun t => type t = k) w -> none_of (other_type k) (summarise w).
Proof.
  intros H.
  assert (N : filter (fun t => TransactionType_eqb (type t) (other_type k)) w = []).
  { induction H as [| t w Ht _ IH]; simpl; [reflexivity |].
    rewrite Ht, IH. now destruct k. }
  assert (A : filter (fun t => TransactionType_eqb (type t) k) w = w).
  { clear N. induction H as [| t w Ht _ IH]; simpl; [reflexivity |].
    rewrite Ht, IH. now destruct k. }
  destruct k; unfold none_of, other_type, summarise in *; simpl.
  - change (filter isExpense w) with
      (filter (fun t => TransactionType_eqb (type t) expense) w).
    change (filter isIncome w) with
      (filter (fun t => TransactionType_eqb (type t) income) w).
    rewrite N, A. now repeat split.
  - change (filter isExpense w) with
      (filter (fun t => TransactionType_eqb (type t) expense) w).
    change (filter isIncome w) with
      (filter (fun t => TransactionType_eqb (type t) income) w).
    rewrite N, A. now repeat split.
Qed.

Lemma Forall_filter {A : Type} (P : A -> Prop) (p : A -> bool) (l : list A) :
  Forall P l -> Forall P (filter p l).
Proof.
  intros H. apply Forall_forall. intros x Hx. apply filter_In in Hx.
  rewrite Forall_forall in H. now apply H.
Qed.

(** X22.  With the type filter on one kind, every transaction shown is of
    that kind, and each of the three summaries has nothing of the other
    kind: its count, total and average are zero and the transaction count
    is the count of the kind chosen.  The type filter 'all' is no filter. *)
Theorem type_filter_leaves_one_kind
        (filters : TransactionFilters) (k : TransactionType)
        (incomes : list Income.t) (expenses : list Expense.t) :
  let h :=
    useTransactionList (with_typeFilter (Some (only k)) filters)
                       incomes expenses in
  Forall (fun t => type t = k) (hook_transactions h) /\
  Forall (none_of (other_type k)) (summaries h) /\
  hook_transactions
    (useTransactionList (with_typeFilter (Some all) filters) incomes expenses)
  = hook_transactions
      (useTransactionList (with_typeFilter None filters) incomes expenses).
Proof.
  intros h.
  assert (K : Forall (fun t => type t = k) (hook_transactions h)).
  { apply Forall_forall. intros t Ht. apply filter_In in Ht.
    now apply (kept_type filters). }
  split; [exact K |]. split; [| reflexivity].
  repeat constructor.
  - now apply none_of_other.
  - apply none_of_other. now apply Forall_filter.
  - apply none_of_other. now apply Forall_filter.
Qed.

(** ** The order of ties *)

Lemma sorted_stays (l : list Transaction) :
  Sorted not_earlier l -> sort newest_first l = l.
Proof.
  induction l as [| x l IH]; intros H; [reflexivity |].
  inversion H as [| ? ? Hs Hh]; subst. simpl. rewrite (IH Hs).
  destruct l as [| y l]; [reflexivity |]. simpl.
  inversion Hh as [| ? ? Hxy]; subst.
  destruct Hxy as (tx & ty & Hx & Hy & Hle).
  rewrite (SortProofs.comes_after_dated x y tx ty Hx Hy).
  destruct (Z.ltb_spec tx ty); [lia | reflexivity].
Qed.

(** X23.  The sort keeps the order of ties.  When the incomes followed by
    the expenses are already dated newest first, the merged list is that
    very list: transactions of the same day stay in the order given, the
    incomes before the expenses.  And sorting a merged list again changes
    nothing. *)
Theorem merged_list_keeps_ties
        (incomes : list Income.t) (expenses : list Expense.t) :
  Sorted not_earlier
         (map createTransactionFromIncome incomes
          ++ map createTransactionFromExpense expenses) ->
  allTransactions incomes expenses
  = (map createTransactionFromIncome incomes
     ++ map createTransactionFromExpense expenses)%list /\
  sort newest_first (allTransactions incomes expenses)
  = allTransactions incomes expenses.
Proof.
  intros H. unfold allTransactions. rewrite (sorted_stays _ H).
  split; [reflexivity | exact (sorted_stays _ H)].
Qed.

End View.

Lemma totals_are_nested_witness :
  let D := ISODate Examples.utc Examples.mid_january_2024 in
  let h := useTransactionList noFilters [Examples.salary]
                              [Examples.groceries; Examples.lunch] in
  totals_within (hook_monthlyData h) (hook_yearToDateData h) /\
  totals_within (hook_yearToDateData h) (hook_summaryData h).
Proof.
  intros D.
  apply (totals_are_nested (D := D) noFilters [Examples.salary]
           [Examples.groceries; Examples.lunch]).
  - intros i [E | []]. subst i. discriminate.
  - intros e [E | [E | []]]; subst e; discriminate.
Defined.

Lemma merged_list_keeps_ties_witness :
  let D := ISODate Examples.utc Examples.mid_january_2024 in
  allTransactions [Examples.salary] [Examples.lunch]
  = [createTransactionFromIncome Examples.salary;
     createTransactionFromExpense Examples.lunch].
Proof.
  intros D.
  apply (merged_list_keeps_ties (D := D) [Examples.salary] [Examples.lunch]).
  simpl. constructor; [repeat constructor |].
  constructor. exists 1704067200000%Z, 1704067200000%Z.
  split; [reflexivity |]. split; [reflexivity | lia].
Defined.

End TransactionViewProofs.

(* ================================================================== *)
(** * The two amount validators, side by side *)
(* ================================================================== *)

Module AmountAgreementProofs.

Import JSString JSNumber.
Local Open Scope string_scope.

(** X24.  On a number, the amount validator of an income and that of an
    expense agree except at zero, which is a valid expense amount and not
    a valid income amount, and at positive infinity, which only the
    income validator lets pass.  Both refuse NaN, negative numbers and
    numbers that print with more than two decimal places. *)
Theorem amount_validators_differ_at_zero_and_infinity
        (parseFloat : string -> number) (x : number) :
  IncomeValidation.accepts
    (IncomeValidation.validateAmount parseFloat (IncomeValidation.ofNumber x))
  = match x with
    | Zero _ => false
    | Infinity false => true
    | _ => ExpenseValidation.isValid (ExpenseValidation.validateAmount x)
    end /\
  (forall negative,
      ExpenseValidation.isValid (ExpenseValidation.validateAmount (Zero negative))
      = true) /\
  ExpenseValidation.isValid (ExpenseValidation.validateAmount (Infinity false))
  = false /\
  ExpenseValidation.isValid (ExpenseValidation.validateAmount NaN) = false.
Proof.
  split; [| split; [intros negative; reflexivity | split; reflexivity]].
  unfold IncomeValidation.validateAmount, ExpenseValidation.validateAmount,
    IncomeValidation.amount_missing, IncomeValidation.AMOUNT_MAX_DECIMAL_PLACES.
  destruct x as [| negative | negative | negative d ds n];
    try reflexivity.
  - now destruct negative.
  - cbn [isNaN le_zero lt_zero isFinite orb negb].
    rewrite !CategoryNameProofs.accepts_push_if.
    destruct negative; cbn [negb andb IncomeValidation.accepts List.length Nat.eqb];
      [reflexivity |].
    now destruct (2 <? decimalPlaces (Finite false d ds n))%nat.
Qed.

End AmountAgreementProofs.

(* ================================================================== *)
(** * The expense form and the category chips *)
(* ================================================================== *)

Module FormProofs.

Import JSString JSSplit JSNumber JSDate ExpenseValidation ExpenseFormValidation.
Import UseExpenseForm.
Local Open Scope string_scope.

(** ** Trimmed texts *)

Lemma length_trimStart (s : string) :
  String.length (trimStart s) <= String.length s.
Proof.
  induction s as [| c s IH]; simpl; [lia |].
  destruct (is_whitespace c); simpl; lia.
Qed.

Lemma length_trimEnd (s : string) :
  String.length (trimEnd s) <= String.length s.
Proof.
  induction s as [| c s IH]; simpl; [lia |].
  destruct (trimEnd s) as [| d r]; simpl in *.
  - destruct (is_whitespace c); simpl; lia.
  - lia.
Qed.

Lemma length_trim (s : string) : String.length (trim s) <= String.length s.
Proof.
  unfold trim. etransitivity; [apply length_trimEnd | apply length_trimStart].
Qed.

Lemma visible_trim (s : string) : has_visible (trim s) = has_visible s.
Proof.
  unfold has_visible. f_equal.
  rewrite <- (TextFieldProofs.trim_blank s).
  destruct (trim s) as [| c r] eqn:E; [reflexivity |].
  simpl. now rewrite (TextFieldProofs.trim_head_visible s c r E).
Qed.

Lemma label_verdict (l : string) :
  isValid (validateLabel l) = has_visible l && (String.length l <=? 26)%nat.
Proof.
  unfold validateLabel. rewrite TextFieldProofs.blank_test, TextFieldProofs.leb_ltb.
  destruct (has_visible l); simpl; [| reflexivity].
  now destruct (26 <? String.length l)%nat.
Qed.

Lemma wordCount_words (text : string) : wordCount text = count_words text.
Proof.
  unfold wordCount. fold (visible_pieces (split_whitespace (trim text))).
  now rewrite TextFieldProofs.visible_pieces_count, TextFieldProofs.count_words_trim.
Qed.

Lemma key_absent (value : string) (validation : ValidationResult) :
  present (key_for value validation) = 0 ->
  truthy value = true -> isValid validation = true.
Proof.
  unfold key_for. intros H T. rewrite T in H.
  destruct (isValid validation); [reflexivity | discriminate H].
Qed.

(** ** While typing and on submit *)

(** X25.  When the form is valid while typing, the final validation of
    [submitForm], which trims the label and the description, can fail
    for one reason only: it passes exactly when the category has a
    character that is not white space, and says "Category is required"
    otherwise.  A category of spaces only is the one thing the validation
    while typing lets through. *)
Theorem submit_fails_only_on_a_blank_category
        {D : DateAPI} (parseFloat : string -> number)
        (formData : ExpenseFormData.t) :
  isValid_state parseFloat formData = true ->
  finalValidation parseFloat formData
  = if has_visible (ExpenseFormData.category formData)
    then valid else invalid "Category is required".
Proof.
  unfold isValid_state, keys_length, newErrors. cbn [FormErrors.amount
    FormErrors.label FormErrors.description FormErrors.category
    FormErrors.date FormErrors.general present].
  intros H. apply andb_true_iff in H. destruct H as [R E].
  apply andb_true_iff in R. destruct R as [R Td].
  apply andb_true_iff in R. destruct R as [R Tc].
  apply andb_true_iff in R. destruct R as [Ta Tl].
  apply Nat.eqb_eq in E.
  assert (Va : isValid (validateAmount
                          (parseFloat (ExpenseFormData.amount formData))) = true)
    by (apply (key_absent (ExpenseFormData.amount formData)); [lia | exact Ta]).
  assert (Vl : isValid (validateLabel (ExpenseFormData.label formData)) = true)
    by (apply (key_absent (ExpenseFormData.label formData)); [lia | exact Tl]).
  assert (Vd : isValid (validateDate (ExpenseFormData.date formData)) = true)
    by (apply (key_absent (ExpenseFormData.date formData)); [lia | exact Td]).
  assert (Vw : truthy (ExpenseFormData.description formData) = true ->
               (50 <? count_words (ExpenseFormData.description formData))%nat
               = false).
  { intros T.
    assert (V : isValid (validateDescription
                           (Some (ExpenseFormData.description formData))) = true)
      by (apply (key_absent (ExpenseFormData.description formData));
          [lia | exact T]).
    unfold validateDescription in V. rewrite T, wordCount_words in V.
    simpl negb in V. cbv iota in V.
    now destruct (50 <? count_words (ExpenseFormData.description formData))%nat. }
  clear E.
  unfold finalValidation, validateExpenseForm, expenseData.
  cbn [amount label description category date].
  rewrite Va. cbn [negb].
  assert (Vt : isValid (validateLabel (trim (ExpenseFormData.label formData)))
               = true).
  { rewrite label_verdict in Vl |- *. rewrite visible_trim.
    apply andb_true_iff in Vl. destruct Vl as [V1 V2]. rewrite V1. simpl.
    apply Nat.leb_le in V2. apply Nat.leb_le.
    pose proof (length_trim (ExpenseFormData.label formData)). lia. }
  rewrite Vt. cbn [negb].
  assert (Vs : isValid
                 (validateDescription
                    (if truthy (trim (ExpenseFormData.description formData))
                     then Some (trim (ExpenseFormData.description formData))
                     else None)) = true).
  { destruct (truthy (trim (ExpenseFormData.description formData))) eqn:T;
      [| reflexivity].
    unfold validateDescription. rewrite T. cbn [negb].
    rewrite wordCount_words, TextFieldProofs.count_words_trim, Vw; [reflexivity |].
    destruct (ExpenseFormData.description formData); [discriminate T | reflexivity]. }
  rewrite Vs. cbn [negb].
  rewrite TextFieldProofs.blank_test, Vd.
  now destruct (has_visible (ExpenseFormData.category formData)).
Qed.

Lemma submit_fails_only_on_a_blank_category_witness :
  finalValidation (D := ISODate Examples.utc Examples.mid_january_2024)
                  sample_parseFloat lunch_form
  = valid.
Proof.
  apply (submit_fails_only_on_a_blank_category
           (D := ISODate Examples.utc Examples.mid_january_2024)
           sample_parseFloat lunch_form).
  vm_compute. reflexivity.
Defined.

End FormProofs.

Module CategoryChipProofs.

Import JSString Transaction TransactionFiltersComponent.
Local Open Scope string_scope.

Lemma selected_after_removal (name : string) (cs : list string) (n : string) :
  existsb (String.eqb n) (filter (fun cat => negb (String.eqb cat name)) cs)
  = negb (String.eqb n name) && existsb (String.eqb n) cs.
Proof.
  induction cs as [| c cs IH]; simpl.
  - now rewrite andb_false_r.
  - destruct (String.eqb c name) eqn:Ec; simpl.
    + rewrite IH. apply String.eqb_eq in Ec. subst c.
      destruct (String.eqb n name); reflexivity.
    + rewrite IH. destruct (String.eqb n c) eqn:En; simpl.
      * apply String.eqb_eq in En. subst n. now rewrite Ec.
      * reflexivity.
Qed.

Lemma selected_after_addition (name : string) (cs : list string) (n : string) :
  existsb (String.eqb n) (cs ++ [name])
  = existsb (String.eqb n) cs || String.eqb n name.
Proof. rewrite existsb_app. simpl. now rewrite orb_false_r. Qed.

Lemma selected_in (cs : list string) (n : string) :
  existsb (String.eqb n)
          (match (if (0 <? List.length cs)%nat then Some cs else None) with
           | Some l => l
           | None => []
           end)
  = existsb (String.eqb n) cs.
Proof. now destruct cs. Qed.

Lemma toggled_selection (f : TransactionFilters) (name n : string) :
  isSelected (handleCategoryToggle f name) n
  = if String.eqb n name then negb (isSelected f name) else isSelected f n.
Proof.
  unfold isSelected, handleCategoryToggle, currentCategories at 1.
  cbn [categories]. rewrite selected_in.
  fold (currentCategories f).
  destruct (existsb (String.eqb name) (currentCategories f)) eqn:S.
  - rewrite selected_after_removal.
    destruct (String.eqb n name) eqn:E; reflexivity.
  - rewrite selected_after_addition.
    destruct (String.eqb n name) eqn:E.
    + now rewrite orb_true_r.
    + now rewrite orb_false_r.
Qed.

(** X26.  Pressing a category chip flips the selection of that category
    and of no other: a selected category is taken out of the filter,
    every copy of it, and one that is not selected is added.  Pressing
    twice leaves the selection as it was.  The filter never holds an
    empty list of categories, and with the chips set this way a
    transaction passes the category test exactly when no category is
    selected or its own is. *)
Theorem chip_flips_one_category
        (tempFilters : TransactionFilters)
        (categoryName : string) :
  let toggled := handleCategoryToggle tempFilters categoryName in
  (forall name,
      isSelected toggled name
      = if String.eqb name categoryName
        then negb (isSelected tempFilters categoryName)
        else isSelected tempFilters name) /\
  (forall name,
      isSelected (handleCategoryToggle toggled categoryName) name
      = isSelected tempFilters name) /\
  categories toggled <> Some [] /\
  (forall t,
      fails_category toggled t
      = existsb (fun name => isSelected toggled name) (currentCategories toggled)
        && negb (isSelected toggled (category t))).
Proof.
  intros toggled. split; [| split; [| split]].
  - intros name. apply toggled_selection.
  - intros name. subst toggled. rewrite !toggled_selection.
    destruct (String.eqb name categoryName) eqn:E.
    + rewrite String.eqb_refl, negb_involutive.
      apply String.eqb_eq in E. now subst.
    + reflexivity.
  - unfold toggled, handleCategoryToggle. cbn [categories].
    match goal with |- context [(0 <? List.length ?l)%nat] => destruct l end;
      discriminate.
  - intros t. unfold fails_category, isSelected, currentCategories.
    destruct (categories toggled) as [[| c cs] |]; try reflexivity.
    cbn [List.length Nat.ltb Nat.leb existsb]. rewrite String.eqb_refl.
    reflexivity.
Qed.

End CategoryChipProofs.

(* ================================================================== *)
(** * The three validators of a category name *)
(* ================================================================== *)

Module CategoryNameAgreement.

Import JSString ExpenseValidation.
Local Open Scope string_scope.

Lemma income_name_in_use (categories : list IncomeCategory.t) (name : string)
      (keep : IncomeCategory.t -> bool) :
  existsb (fun existing => String.eqb existing name)
          (map IncomeCategory.name (filter keep categories))
  = existsb (fun cat => String.eqb (IncomeCategory.name cat) name && keep cat)
            categories.
Proof.
  induction categories as [| cat l IH]; simpl; [reflexivity |].
  destruct (keep cat); simpl.
  - now rewrite IH, andb_true_r.
  - now rewrite IH, andb_false_r.
Qed.

(** X27.  The three validators of a category name compared.  The hook of
    the income categories and [validateCategoryName] of the expenses
    accept the same names, against the names of the categories that are
    not excluded, though they test in another order and word their errors
    differently.  [validateCategory] of the income validation accepts
    these names and, besides, the names that begin or end with white
    space. *)
Theorem category_name_validators_compared
        (categories : list IncomeCategory.t) (existing : list string)
        (name : string) (excludeId : option string) :
  isValid (UseIncomeCategories.validateCategoryName categories name excludeId)
  = isValid
      (validateCategoryName name
         (map IncomeCategory.name
              (filter (UseIncomeCategories.not_excluded excludeId) categories))) /\
  isValid (validateCategoryName name existing)
  = IncomeValidation.accepts (IncomeValidation.validateCategory name existing)
    && String.eqb (trim name) name.
Proof.
  split.
  - unfold UseIncomeCategories.validateCategoryName, validateCategoryName.
    rewrite income_name_in_use.
    destruct (negb (truthy name) || (String.length (trim name) =? 0)%nat) eqn:B;
      [reflexivity |].
    apply orb_false_iff in B. destruct B as [_ B]. rewrite B, orb_false_r.
    destruct (15 <? String.length name)%nat;
      destruct (negb (name_regex name));
      destruct (negb (String.eqb (trim name) name));
      try reflexivity.
    now destruct (existsb
                    (fun cat => String.eqb (IncomeCategory.name cat) name
                                && UseIncomeCategories.not_excluded excludeId cat)
                    categories).
  - rewrite CategoryNameProofs.income_validateCategory_accepts.
    unfold validateCategoryName.
    rewrite (CategoryNameProofs.existsb_eqb_flip name existing).
    destruct (negb (truthy name) || (String.length (trim name) =? 0)%nat) eqn:B;
      [reflexivity |].
    apply orb_false_iff in B. destruct B as [_ B]. rewrite B, orb_false_r.
    destruct (String.eqb (trim name) name); simpl.
    + rewrite andb_true_r.
      destruct (15 <? String.length name)%nat; [reflexivity |].
      destruct (name_regex name); [| reflexivity].
      now destruct (existsb (String.eqb name) existing).
    + now rewrite andb_false_r.
Qed.

End CategoryNameAgreement.
